(** * Uptime monitor: retry-gated checks, alert suppression, incidents, history

    A shallow embedding of the monitor's TypeScript sources
    ([index.ts], [src/checker.ts], [src/store.ts], [src/status-page.ts],
    [src/config.ts], [src/types.ts]) together with the properties of its
    scheduling state machine, incident ledger and history store.

    Conventions of the embedding:
    - a JavaScript [number] is an integer of [Z]; an optional field
      ([x?: T], [T | null]) is an [option];
    - an ISO-8601 timestamp string is the epoch-millisecond integer it
      denotes ([new Date(s).getTime()] inverts [toISOString()]);
    - [Map<string, V>] and [Record<string, V>] are [gmap string V];
    - the module-level mutable variables of the sources are the fields of
      one [World] record, threaded through a state monad that can also
      abort (an uncaught exception ends the process); the configuration
      that [getConfig()] returns is constant during a cycle and is passed
      to the functions that read it;
    - the system clock and the network are oracles indexed by the number of
      reads, resp. requests, performed so far. *)

From Stdlib Require Import ZArith Lia List.
From stdpp Require Import gmap strings list fin_maps pretty sorting.
From Equations Require Import Equations.

Local Open Scope Z_scope.

(** ** JavaScript idioms used by the sources *)

Module JS.

(** [x || d] on an optional number: [undefined] and [0] are falsy. *)
Definition num_or (x : option Z) (d : Z) : Z :=
  match x with
  | Some v => if v =? 0 then d else v
  | None => d
  end.

(** [x || d] on an optional string: [undefined] and the empty string are
    falsy. *)
Definition str_or (x : option string) (d : string) : string :=
  match x with
  | Some EmptyString => d
  | Some s => s
  | None => d
  end.

(** Truthiness of an optional number and of an optional string. *)
Definition truthy_num (x : option Z) : bool :=
  match x with
  | Some v => negb (v =? 0)
  | None => false
  end.

Definition truthy_str (x : option string) : bool :=
  match x with
  | Some EmptyString => false
  | Some _ => true
  | None => false
  end.

(** [s.includes(sub)] on strings. *)
Fixpoint includes (s sub : string) : bool :=
  String.prefix sub s
  || match s with
     | EmptyString => false
     | String _ s' => includes s' sub
     end.

(** [Math.round(p / q)] for a positive [q], in exact arithmetic: JavaScript
    rounds halves towards plus infinity. *)
Definition round_div (p q : Z) : Z := (2 * p + q) / (2 * q).

(** The double-quote character, for message templates. *)
Definition dquote : string := String (Ascii.ascii_of_nat 34) EmptyString.

End JS.

(** ** Data model ([src/types.ts], [src/config.ts]) *)

Record SslInfo := mkSslInfo {
  ssl_valid : bool;
  ssl_validFrom : string;
  ssl_validTo : string;
  ssl_issuer : option string;
  ssl_subject : option string;
  ssl_daysRemaining : Z
}.

Record CheckResult := mkCheckResult {
  cr_name : string;
  cr_url : string;
  cr_success : bool;
  cr_statusCode : option Z;
  cr_responseTime : option Z;
  cr_error : option string;
  cr_sslInfo : option SslInfo;
  cr_timestamp : Z
}.

Record StoredCheck := mkStoredCheck {
  sc_timestamp : Z;
  sc_success : bool;
  sc_responseTime : option Z;
  sc_statusCode : option Z;
  sc_error : option string
}.

Record UrlConfig := mkUrlConfig {
  uc_name : string;
  uc_category : option string;
  uc_url : string;
  uc_delay : option Z;
  uc_method : option string;
  uc_timeout : option Z;
  uc_expected_status : option (list Z);
  uc_expected_content : option string;
  uc_response_time_threshold : option Z;
  uc_check_ssl : option bool
}.

Record AlertsConfig := mkAlertsConfig {
  retry_count : option Z;
  retry_delay : option Z;
  alert_on_recovery : option bool;
  cooldown_period : option Z
}.

Record SettingsConfig := mkSettingsConfig {
  default_timeout : option Z;
  user_agent : option string;
  follow_redirects : option bool;
  max_redirects : option Z
}.

Record NotificationsConfig := mkNotificationsConfig {
  email : option (list string)
}.

Record StorageConfig := mkStorageConfig {
  storage_path : option string;
  retention_days : option Z
}.

Record StatusPageConfig := mkStatusPageConfig {
  sp_enabled : option bool;
  sp_public : option bool;
  sp_title : option string;
  incident_retention_days : option Z
}.

Record Config := mkConfig {
  settings : option SettingsConfig;
  notifications : option NotificationsConfig;
  alerts : option AlertsConfig;
  urls : option (list UrlConfig);
  storage : option StorageConfig;
  status_page : option StatusPageConfig
}.

(** [config.alerts || {}] and [config.settings || {}]. *)
Definition no_alerts : AlertsConfig := mkAlertsConfig None None None None.
Definition no_settings : SettingsConfig := mkSettingsConfig None None None None.

(** ** Module states *)

(** [index.ts]: [UrlState] and [State]. *)
Inductive Status := Up | Down.

Record UrlState := mkUrlState {
  us_status : Status;
  us_lastCheck : Z;
  us_responseTime : option Z;
  us_error : option string;
  us_sslInfo : option SslInfo;
  us_category : option string;
  us_name : string
}.

(** A timer handle is represented by the interval, in milliseconds, it was
    created with. *)
Record State := mkState {
  urlStates : gmap string UrlState;
  timers : gmap string Z;
  lastAlert : gmap string Z
}.

(** [src/store.ts]: [data.checks], [retentionDays], and the content last
    written to [dataPath]. *)
Record Store := mkStore {
  checks : gmap string (list StoredCheck);
  retentionDays : Z;
  saved : option (gmap string (list StoredCheck))
}.

Record HourlyAverage := mkHourlyAverage {
  ha_hour : Z;
  ha_avgResponseTime : option Z;
  ha_uptime : option Z;
  ha_checkCount : Z
}.

(** [src/status-page.ts]: [Incident], [statusData], [retentionHours]. *)
Record Incident := mkIncident {
  inc_service : string;
  inc_error : option string;
  inc_timestamp : Z;
  inc_resolved : bool;
  inc_resolvedAt : option Z
}.

Record StatusPage := mkStatusPage {
  sd_title : string;
  sd_lastUpdate : option Z;
  sd_services : list UrlState;
  sd_incidents : list Incident;
  retentionHours : Z
}.

(** ** The transport ([src/checker.ts]) *)

Record RequestOptions := mkRequestOptions {
  ro_method : string;
  ro_timeout : Z;
  ro_followRedirects : bool;
  ro_maxRedirects : Z;
  ro_userAgent : string;
  ro_checkSsl : option bool
}.

Record HttpResponse := mkHttpResponse {
  hr_statusCode : Z;
  hr_body : string;
  hr_sslInfo : option SslInfo
}.

(** The peer certificate of a TLS socket: [valid_to] comes with the instant
    it denotes. *)
Record Certificate := mkCertificate {
  cert_valid_from : string;
  cert_valid_to : string;
  cert_valid_to_ms : Z;
  cert_issuer_O : option string;
  cert_subject_CN : option string
}.

(** What the network does with one request: the request emits [error], it
    emits [timeout], or a response arrives and ends. *)
Inductive NetReply :=
| NetFailure (msg : string)
| NetTimeout
| NetResponse (statusCode : Z) (location : option string) (body : string)
              (cert : option Certificate).

(** A settled promise. *)
Inductive Settled (A : Type) : Type :=
| Resolved (a : A)
| Rejected (msg : string).
Arguments Resolved {A} a.
Arguments Rejected {A} msg.

(** ** Observable actions *)

(** The log records, in order, each completed probe, each sleep, each
    notification handed to the gateway (with the clock value of the guard
    that let it through), and each timer created. *)
Inductive Event :=
| EvProbe (r : CheckResult)
| EvSleep (ms : Z)
| EvNotifyDown (at_ms : Z) (target : string) (r : CheckResult) (emails : list string)
| EvNotifyUp (target : string) (r : CheckResult) (emails : list string)
| EvNotifySsl (at_ms : Z) (target : string) (ssl : SslInfo) (emails : list string)
| EvSetInterval (target : string) (ms : Z).

(** ** The world and its monad *)

Record World := mkWorld {
  w_ticks : nat;
  w_reqs : nat;
  w_log : list Event;
  w_state : State;
  w_store : Store;
  w_status : StatusPage
}.

Definition set_ticks (n : nat) (w : World) : World :=
  mkWorld n (w_reqs w) (w_log w) (w_state w) (w_store w) (w_status w).
Definition set_reqs (n : nat) (w : World) : World :=
  mkWorld (w_ticks w) n (w_log w) (w_state w) (w_store w) (w_status w).
Definition set_log (l : list Event) (w : World) : World :=
  mkWorld (w_ticks w) (w_reqs w) l (w_state w) (w_store w) (w_status w).
Definition set_state (s : State) (w : World) : World :=
  mkWorld (w_ticks w) (w_reqs w) (w_log w) s (w_store w) (w_status w).
Definition set_store (s : Store) (w : World) : World :=
  mkWorld (w_ticks w) (w_reqs w) (w_log w) (w_state w) s (w_status w).
Definition set_status (s : StatusPage) (w : World) : World :=
  mkWorld (w_ticks w) (w_reqs w) (w_log w) (w_state w) (w_store w) s.

(** A computation either completes with a value or dies on an uncaught
    exception; both leave a world behind. *)
Inductive Res (A : Type) : Type :=
| Ok (a : A) (w : World)
| Crash (msg : string) (w : World).
Arguments Ok {A} a w.
Arguments Crash {A} msg w.

Definition M (A : Type) : Type := World -> Res A.

Definition ret {A} (a : A) : M A := fun w => Ok a w.

Definition bind {A B} (m : M A) (k : A -> M B) : M B :=
  fun w =>
    match m w with
    | Ok a w' => k a w'
    | Crash msg w' => Crash msg w'
    end.

Definition throw {A} (msg : string) : M A := fun w => Crash msg w.

Notation "x <- m ;; k" := (bind m (fun x => k))
  (at level 100, m at next level, right associativity).
Notation "m ;; k" := (bind m (fun _ => k))
  (at level 100, right associativity).

Definition world_of {A} (r : Res A) : World :=
  match r with
  | Ok _ w => w
  | Crash _ w => w
  end.

Definition emit (e : Event) : M unit :=
  fun w => Ok tt (set_log (w_log w ++ [e]) w).

Definition get_state : M State := fun w => Ok (w_state w) w.
Definition put_state (s : State) : M unit := fun w => Ok tt (set_state s w).
Definition get_store : M Store := fun w => Ok (w_store w) w.
Definition put_store (s : Store) : M unit := fun w => Ok tt (set_store s w).
Definition get_status : M StatusPage := fun w => Ok (w_status w) w.
Definition put_status (s : StatusPage) : M unit := fun w => Ok tt (set_status s w).

(** [sleep(ms)]. *)
Definition sleep (ms : Z) : M unit := emit (EvSleep ms).

(** [arr.includes(x)] on an array of numbers. *)
Definition array_includes (arr : list Z) (x : Z) : bool :=
  existsb (Z.eqb x) arr.

Section Monitor.

(** [clock k] is the value of the [k]-th read of the system clock
    ([Date.now()], [new Date()]) since the process started. *)
Variable clock : nat -> Z.

(** [net k url options] is what happens to the [k]-th request the process
    issues, sent to [url] with [options]. *)
Variable net : nat -> string -> RequestOptions -> NetReply.

(** [new URL(s)]: [None] when the constructor throws, otherwise whether the
    protocol is ["https:"]. *)
Variable parseUrl : string -> option bool.

(** [new URL(location, base).href]: [None] when the constructor throws. *)
Variable resolveUrl : string -> string -> option string.

(** [Date.now()]. *)
Definition Date_now : M Z :=
  fun w => Ok (clock (w_ticks w)) (set_ticks (S (w_ticks w)) w).

(** [transport.request(requestOptions, ...)] followed by [req.end()]. *)
Definition request (url : string) (options : RequestOptions) : M NetReply :=
  fun w => Ok (net (w_reqs w) url options) (set_reqs (S (w_reqs w)) w).

(** The response callback's certificate inspection. *)
Definition peerSslInfo (isHttps : bool) (options : RequestOptions)
    (cert : option Certificate) : M (option SslInfo) :=
  if isHttps && bool_decide (ro_checkSsl options = Some true) then
    match cert with
    | Some c =>
        if JS.truthy_str (Some (cert_valid_to c)) then
          now <- Date_now ;;
          ret (Some (mkSslInfo true (cert_valid_from c) (cert_valid_to c)
                       (cert_issuer_O c) (cert_subject_CN c)
                       ((cert_valid_to_ms c - now) / (1000 * 60 * 60 * 24))))
        else ret None
    | None => ret None
    end
  else ret None.

Definition is_redirect (statusCode : Z) : bool :=
  array_includes [301; 302; 303; 307; 308] statusCode.

(** [makeRequest]. The promise settles ([Resolved] or [Rejected]), except
    that an exception thrown by [new URL(location, urlString)] inside the
    [end] listener is caught by nobody. *)
Equations? makeRequest (urlString : string) (options : RequestOptions)
    (redirectCount : Z) (w : World) : Res (Settled HttpResponse)
    by wf (Z.to_nat (ro_maxRedirects options - redirectCount)) lt :=
  makeRequest urlString options redirectCount w with parseUrl urlString := {
    | None => Ok (Rejected "Invalid URL") w
    | Some isHttps with request urlString options w := {
      | Crash msg w1 => Crash msg w1
      | Ok (NetFailure msg) w1 => Ok (Rejected msg) w1
      | Ok NetTimeout w1 =>
          Ok (Rejected ("Request timeout after " +:+ pretty (ro_timeout options) +:+ "ms")) w1
      | Ok (NetResponse statusCode location body cert) w1
          with peerSslInfo isHttps options cert w1 := {
        | Crash msg w2 => Crash msg w2
        | Ok sslInfo w2
            with is_redirect statusCode && ro_followRedirects options := {
          | false => Ok (Resolved (mkHttpResponse statusCode body sslInfo)) w2
          | true with decide (redirectCount >= ro_maxRedirects options) := {
            | left _ =>
                Ok (Rejected ("Too many redirects (max: "
                              +:+ pretty (ro_maxRedirects options) +:+ ")")) w2
            | right _ with JS.truthy_str location := {
              | false => Ok (Rejected "Redirect without location header") w2
              | true with resolveUrl (default EmptyString location) urlString := {
                | None => Crash "TypeError: Invalid URL" w2
                | Some redirectUrl =>
                    makeRequest redirectUrl options (redirectCount + 1) w2 } } } } } } }.
Proof. lia. Qed.

(** [checkUrl]. Every return hands the result to the log as a completed
    probe. *)
Definition probed (result : CheckResult) : M CheckResult :=
  emit (EvProbe result) ;; ret result.

(** The options [checkUrl] hands to [makeRequest], read from
    [{ ...globalSettings, ...urlConfig }]. *)
Definition request_options (urlConfig : UrlConfig) (globalSettings : SettingsConfig)
    : RequestOptions :=
  mkRequestOptions
    (JS.str_or (uc_method urlConfig) "GET")
    (JS.num_or (uc_timeout urlConfig)
       (JS.num_or (default_timeout globalSettings) 30) * 1000)
    (negb (bool_decide (follow_redirects globalSettings = Some false)))
    (JS.num_or (max_redirects globalSettings) 5)
    (JS.str_or (user_agent globalSettings) "Uptime-Monitor/1.0")
    (uc_check_ssl urlConfig).

Definition checkUrl (urlConfig : UrlConfig) (globalSettings : SettingsConfig)
    : M CheckResult :=
  startTime <- Date_now ;;
  timestamp <- Date_now ;;
  response <- makeRequest (uc_url urlConfig)
                (request_options urlConfig globalSettings) 0 ;;
  match response with
  | Resolved response =>
      now <- Date_now ;;
      let responseTime := now - startTime in
      let result error success :=
        mkCheckResult (uc_name urlConfig) (uc_url urlConfig) success
          (Some (hr_statusCode response)) (Some responseTime) error
          (hr_sslInfo response) timestamp in
      let expectedStatus := default [200] (uc_expected_status urlConfig) in
      let statusOk := array_includes expectedStatus (hr_statusCode response) in
      if negb statusOk then
        probed (result
          (Some ("Unexpected status code: " +:+ pretty (hr_statusCode response)))
          false)
      else if JS.truthy_str (uc_expected_content urlConfig)
              && negb (JS.includes (hr_body response)
                         (default EmptyString (uc_expected_content urlConfig))) then
        probed (result
          (Some ("Expected content not found: " +:+ JS.dquote
                 +:+ default EmptyString (uc_expected_content urlConfig)
                 +:+ JS.dquote))
          false)
      else if JS.truthy_num (uc_response_time_threshold urlConfig)
              && (responseTime >? default 0 (uc_response_time_threshold urlConfig)) then
        probed (result
          (Some ("Response time " +:+ pretty responseTime +:+ "ms exceeds threshold "
                 +:+ pretty (default 0 (uc_response_time_threshold urlConfig)) +:+ "ms"))
          false)
      else probed (result None true)
  | Rejected msg =>
      now <- Date_now ;;
      probed (mkCheckResult (uc_name urlConfig) (uc_url urlConfig) false
                None (Some (now - startTime)) (Some msg) None timestamp)
  end.

(** *** The history store ([src/store.ts]) *)

(** [initStore(path, retention)]; the content of the data file, when there
    is one, is the [checks] the world starts with. *)
Definition initStore (retention : Z) : M unit :=
  s <- get_store ;;
  put_store (mkStore (checks s) retention (saved s)).

(** [save()]: a failed write is caught and logged. *)
Definition save : M unit :=
  s <- get_store ;;
  put_store (mkStore (checks s) (retentionDays s) (Some (checks s))).

(** One turn of [prune]'s loop over [Object.keys(data.checks)]. *)
Definition prune_entry (cutoff : Z) (data : gmap string (list StoredCheck))
    (name : string) : gmap string (list StoredCheck) :=
  let kept :=
    List.filter (fun check => sc_timestamp check >? cutoff)
      (default [] (data !! name)) in
  if (length kept =? 0)%nat then delete name data else <[name := kept]> data.

Definition prune : M unit :=
  now <- Date_now ;;
  s <- get_store ;;
  let cutoff := now - retentionDays s * 24 * 60 * 60 * 1000 in
  put_store
    (mkStore (foldl (prune_entry cutoff) (checks s) (map fst (map_to_list (checks s))))
       (retentionDays s) (saved s)).

(** [recordCheck(name, result)]. The caller may pass [undefined]
    ([None]): the log of [name] is created, then reading
    [result.timestamp] throws. *)
Definition recordCheck (name : string) (result : option CheckResult) : M unit :=
  s <- get_store ;;
  (match checks s !! name with
   | None => put_store (mkStore (<[name := []]> (checks s)) (retentionDays s) (saved s))
   | Some _ => ret tt
   end) ;;
  match result with
  | None => throw "TypeError: Cannot read properties of undefined (reading 'timestamp')"
  | Some result =>
      s <- get_store ;;
      put_store
        (mkStore
           (<[name := default [] (checks s !! name)
                      ++ [mkStoredCheck (cr_timestamp result) (cr_success result)
                            (cr_responseTime result) (cr_statusCode result)
                            (cr_error result)]]> (checks s))
           (retentionDays s) (saved s)) ;;
      prune ;;
      save
  end.

(** [getChecks(name)]. *)
Definition getChecks (name : string) : M (list StoredCheck) :=
  s <- get_store ;;
  ret (default [] (checks s !! name)).

(** [getHourlyAverages(name, hours)]: the three loops, then the function. *)
Record Bucket := mkBucket {
  b_total : Z;
  b_count : Z;
  b_upCount : Z
}.

Definition hourMs : Z := 60 * 60 * 1000.

Definition init_bucket (now : Z) (buckets : gmap Z Bucket) (i : Z) : gmap Z Bucket :=
  let hourStart := (now - i * hourMs) / hourMs * hourMs in
  <[hourStart := mkBucket 0 0 0]> buckets.

Definition fill_bucket (buckets : gmap Z Bucket) (check : StoredCheck) : gmap Z Bucket :=
  let ts := sc_timestamp check in
  let hourStart := ts / hourMs * hourMs in
  match buckets !! hourStart with
  | Some bucket =>
      let bucket1 :=
        match sc_responseTime check with
        | Some responseTime =>
            mkBucket (b_total bucket + responseTime) (b_count bucket + 1) (b_upCount bucket)
        | None => bucket
        end in
      let bucket2 :=
        if sc_success check
        then mkBucket (b_total bucket1) (b_count bucket1) (b_upCount bucket1 + 1)
        else bucket1 in
      <[hourStart := bucket2]> buckets
  | None => buckets
  end.

Definition hourly_average (buckets : gmap Z Bucket) (hourStart : Z) : HourlyAverage :=
  let bucket := default (mkBucket 0 0 0) (buckets !! hourStart) in
  mkHourlyAverage hourStart
    (if b_count bucket >? 0
     then Some (JS.round_div (b_total bucket) (b_count bucket)) else None)
    (if b_count bucket >? 0
     then Some (JS.round_div (b_upCount bucket * 100) (b_count bucket)) else None)
    (b_count bucket).

Definition getHourlyAverages (name : string) (hours : Z) : M (list HourlyAverage) :=
  checks <- getChecks name ;;
  if (length checks =? 0)%nat then ret []
  else
    now <- Date_now ;;
    let buckets := foldl (init_bucket now) ∅ (seqZ 0 hours) in
    let buckets := foldl fill_bucket buckets checks in
    let sortedKeys := merge_sort Z.le (map fst (map_to_list buckets)) in
    ret (map (hourly_average buckets) sortedKeys).

(** *** The incident ledger ([src/status-page.ts]) *)

Definition setRetentionHours (hours : Z) : M unit :=
  sp <- get_status ;;
  put_status (mkStatusPage (sd_title sp) (sd_lastUpdate sp) (sd_services sp)
                (sd_incidents sp) hours).

(** [config?.status_page?.title]. *)
Definition config_title (config : option Config) : option string :=
  match config with
  | Some config =>
      match status_page config with
      | Some sp => sp_title sp
      | None => None
      end
  | None => None
  end.

Definition updateStatus (services : list UrlState) (config : option Config) : M unit :=
  sp <- get_status ;;
  now <- Date_now ;;
  put_status
    (mkStatusPage
       (JS.str_or (config_title config) "System Status")
       (Some now) services (sd_incidents sp) (retentionHours sp)).

Definition addIncident (service : string) (error : option string) (timestamp : Z)
    : M unit :=
  sp <- get_status ;;
  let incidents := mkIncident service error timestamp false None :: sd_incidents sp in
  let retentionDays := 90 in
  now <- Date_now ;;
  let cutoff := now - retentionDays * 24 * 60 * 60 * 1000 in
  put_status
    (mkStatusPage (sd_title sp) (sd_lastUpdate sp) (sd_services sp)
       (List.filter (fun i => inc_timestamp i >? cutoff) incidents)
       (retentionHours sp)).

(** The incident [find] returns is an element of the array: assigning to
    its fields changes the array at that position. *)
Definition is_open_for (service : string) (i : Incident) : bool :=
  String.eqb (inc_service i) service && negb (inc_resolved i).

Fixpoint assign_first (p : Incident -> bool) (f : Incident -> Incident)
    (incidents : list Incident) : list Incident :=
  match incidents with
  | [] => []
  | i :: rest => if p i then f i :: rest else i :: assign_first p f rest
  end.

Definition resolveIncident (service : string) : M unit :=
  sp <- get_status ;;
  match List.find (is_open_for service) (sd_incidents sp) with
  | Some _ =>
      now <- Date_now ;;
      put_status
        (mkStatusPage (sd_title sp) (sd_lastUpdate sp) (sd_services sp)
           (assign_first (is_open_for service)
              (fun incident =>
                 mkIncident (inc_service incident) (inc_error incident)
                   (inc_timestamp incident) true (Some now))
              (sd_incidents sp))
           (retentionHours sp))
  | None => ret tt
  end.

(** *** The scheduler ([index.ts]) *)

Definition SSL_WARNING_DAYS : Z := 14.

(** The [while] loop of [checkWithRetry], with [config.settings || {}] as
    [globalSettings]; [result] is [None] while the variable is still
    unassigned. *)
Equations? retry_loop (urlConfig : UrlConfig) (globalSettings : SettingsConfig)
    (retryCount retryDelay attempts : Z) (result : option CheckResult)
    (w : World) : Res (option CheckResult)
    by wf (Z.to_nat (retryCount - attempts)) lt :=
  retry_loop urlConfig globalSettings retryCount retryDelay attempts result w
      with decide (attempts < retryCount) := {
    | right _ => Ok result w
    | left _ with checkUrl urlConfig globalSettings w := {
      | Crash msg w1 => Crash msg w1
      | Ok r w1 with cr_success r := {
        | true => Ok (Some r) w1
        | false with (if attempts + 1 <? retryCount
                      then sleep retryDelay else ret tt) w1 := {
          | Crash msg w2 => Crash msg w2
          | Ok _ w2 =>
              retry_loop urlConfig globalSettings retryCount retryDelay
                (attempts + 1) (Some r) w2 } } } }.
Proof. lia. Qed.

(** [checkWithRetry]; the final [return result!] hands back whatever the
    variable holds. *)
Definition checkWithRetry (urlConfig : UrlConfig) (config : Config)
    : M (option CheckResult) :=
  let alerts := default no_alerts (alerts config) in
  let retryCount := JS.num_or (retry_count alerts) 3 in
  let retryDelay := JS.num_or (retry_delay alerts) 10 * 1000 in
  retry_loop urlConfig (default no_settings (settings config))
    retryCount retryDelay 0 None.

Fixpoint for_each {A} (items : list A) (body : A -> M unit) : M unit :=
  match items with
  | [] => ret tt
  | x :: rest => body x ;; for_each rest body
  end.

(** [updateStatusPage]: the services in configuration order. *)
Definition updateStatusPage (config : option Config) : M unit :=
  st <- get_state ;;
  let services :=
    match config with
    | Some config =>
        omap (fun urlConfig => urlStates st !! uc_name urlConfig)
          (default [] (urls config))
    | None => []
    end in
  updateStatus services config.

Definition set_lastAlert (key : string) (now : Z) : M unit :=
  st <- get_state ;;
  put_state (mkState (urlStates st) (timers st) (<[key := now]> (lastAlert st))).

Definition was_down (prevState : option UrlState) : bool :=
  match prevState with
  | Some (mkUrlState Down _ _ _ _ _ _) => true
  | _ => false
  end.

(** [config.notifications?.email || []]. *)
Definition config_emails (config : Config) : list string :=
  default [] (match notifications config with
              | Some n => email n
              | None => None
              end).

(** The status-change block of [runCheck]: the [if] / [else if] chain on
    the outcome and the previous state. *)
Definition status_alert (config : Config) (urlConfig : UrlConfig)
    (prevState : option UrlState) (result : CheckResult) : M unit :=
  let name := uc_name urlConfig in
  let emails := config_emails config in
  let alerts := default no_alerts (alerts config) in
  let cooldown := JS.num_or (cooldown_period alerts) 300 * 1000 in
  if negb (cr_success result) && negb (was_down prevState) then
    st <- get_state ;;
    let lastAlertTime := JS.num_or (lastAlert st !! name) 0 in
    now <- Date_now ;;
    if now - lastAlertTime >? cooldown then
      emit (EvNotifyDown now name result emails) ;;
      addIncident name (cr_error result) (cr_timestamp result) ;;
      stamp <- Date_now ;;
      set_lastAlert name stamp
    else ret tt
  else if cr_success result && was_down prevState then
    if negb (bool_decide (alert_on_recovery alerts = Some false)) then
      emit (EvNotifyUp name result emails) ;;
      resolveIncident name
    else ret tt
  else ret tt.

(** The certificate block of [runCheck]. *)
Definition ssl_alert (config : Config) (urlConfig : UrlConfig)
    (result : CheckResult) : M unit :=
  let name := uc_name urlConfig in
  let emails := config_emails config in
  match cr_sslInfo result with
  | Some sslInfo =>
      if ssl_daysRemaining sslInfo <=? SSL_WARNING_DAYS then
        let sslAlertKey := "ssl-" +:+ name in
        st <- get_state ;;
        let lastSslAlert := JS.num_or (lastAlert st !! sslAlertKey) 0 in
        let sslCooldown := 24 * 60 * 60 * 1000 in
        now <- Date_now ;;
        if now - lastSslAlert >? sslCooldown then
          emit (EvNotifySsl now name sslInfo emails) ;;
          stamp <- Date_now ;;
          set_lastAlert sslAlertKey stamp
        else ret tt
      else ret tt
  | None => ret tt
  end.

(** [state.urlStates.set(name, {...})]. *)
Definition set_urlState (urlConfig : UrlConfig) (result : CheckResult) : M unit :=
  let currentStatus := if cr_success result then Up else Down in
  st <- get_state ;;
  put_state
    (mkState
       (<[uc_name urlConfig :=
            mkUrlState currentStatus (cr_timestamp result)
              (cr_responseTime result) (cr_error result)
              (cr_sslInfo result) (uc_category urlConfig)
              (uc_name urlConfig)]> (urlStates st))
       (timers st) (lastAlert st)).

(** [runCheck], with the configuration [getConfig()] returns. Reading a
    field of an [undefined] result throws inside [recordCheck]; nothing
    catches the rejection. *)
Definition runCheck (getConfig : option Config) (urlConfig : UrlConfig) : M unit :=
  match getConfig with
  | None => ret tt
  | Some config =>
      let name := uc_name urlConfig in
      st <- get_state ;;
      let prevState := urlStates st !! name in
      result <- checkWithRetry urlConfig config ;;
      recordCheck name result ;;
      match result with
      | None => throw "TypeError: Cannot read properties of undefined (reading 'success')"
      | Some result =>
          set_urlState urlConfig result ;;
          status_alert config urlConfig prevState result ;;
          ssl_alert config urlConfig result ;;
          updateStatusPage getConfig
      end
  end.

(** [scheduleChecks]. A cycle started here is run to its end before the
    next statement, as are the cycles the timers start later. *)
Definition scheduleChecks (getConfig : option Config) : M unit :=
  st <- get_state ;;
  put_state (mkState (urlStates st) ∅ (lastAlert st)) ;;
  match getConfig with
  | None => ret tt
  | Some config =>
      match urls config with
      | None => ret tt
      | Some urls =>
          for_each urls (fun urlConfig =>
            let delay := JS.num_or (uc_delay urlConfig) 60 * 1000 in
            runCheck getConfig urlConfig ;;
            emit (EvSetInterval (uc_name urlConfig) delay) ;;
            st <- get_state ;;
            put_state (mkState (urlStates st)
                         (<[uc_name urlConfig := delay]> (timers st))
                         (lastAlert st)))
      end
  end.

(** The cycles started by a sequence of timer fires. *)
Definition run_cycles (getConfig : option Config) (fires : list UrlConfig) : M unit :=
  for_each fires (runCheck getConfig).

(** [main], once [loadConfig] has read the configuration file. *)
Definition main (getConfig : option Config) : M unit :=
  let retentionDays :=
    JS.num_or (match getConfig with
               | Some config =>
                   match storage config with
                   | Some st => retention_days st
                   | None => None
                   end
               | None => None
               end) 5 in
  initStore retentionDays ;;
  setRetentionHours (retentionDays * 24) ;;
  scheduleChecks getConfig.

End Monitor.

(** The world of a freshly started process. *)
Definition fresh_world : World :=
  mkWorld 0 0 []
    (mkState ∅ ∅ ∅)
    (mkStore ∅ 5 None)
    (mkStatusPage "System Status" None [] [] 120).

(** ** Further functions of the sources *)

(** *** Reading the history ([src/store.ts]) *)



(** *** Reconfiguration ([index.ts]) *)

(** The anonymous listener [main] registers with [onConfigChange]. *)
Definition configChanged clock net parseUrl resolveUrl (newConfig : Config) : M unit :=
  let newRetentionDays :=
    JS.num_or (match storage newConfig with
               | Some st => retention_days st
               | None => None
               end) 5 in
  setRetentionHours (newRetentionDays * 24) ;;
  scheduleChecks clock net parseUrl resolveUrl (Some newConfig).

(** ** The status page's text helpers ([src/status-page.ts]) *)

(** [s.replace(/c/g, by)] for a one-character pattern. *)
Fixpoint replace_all (c : Ascii.ascii) (by_ : string) (s : string) : string :=
  match s with
  | EmptyString => EmptyString
  | String a rest =>
      if Ascii.eqb a c then by_ +:+ replace_all c by_ rest
      else String a (replace_all c by_ rest)
  end.

(** The characters [&], [<], [>] and the double quote. *)
Definition chr_amp : Ascii.ascii := Ascii.ascii_of_nat 38.
Definition chr_lt : Ascii.ascii := Ascii.ascii_of_nat 60.
Definition chr_gt : Ascii.ascii := Ascii.ascii_of_nat 62.
Definition chr_quot : Ascii.ascii := Ascii.ascii_of_nat 34.

(** [escapeHtml(str)]; [None] stands for [null] and [undefined]. *)
Definition escapeHtml (str : option string) : string :=
  if negb (JS.truthy_str str) then EmptyString
  else
    replace_all chr_quot "&quot;"
      (replace_all chr_gt "&gt;"
         (replace_all chr_lt "&lt;"
            (replace_all chr_amp "&amp;" (default EmptyString str)))).

Section StatusPageText.

Variable clock : nat -> Z.

(** [d.toLocaleDateString()] for the instant [d]. *)
Variable toLocaleDateString : Z -> string.

(** [formatTime(iso)]. *)
Definition formatTime (iso : Z) : M string :=
  let d := iso in
  now <- Date_now clock ;;
  let diffMs := now - d in
  let diffMins := diffMs / 60000 in
  let diffHours := diffMs / 3600000 in
  let diffDays := diffMs / 86400000 in
  if diffMins <? 1 then ret "just now"
  else if diffMins <? 60 then ret (pretty diffMins +:+ "m ago")
  else if diffHours <? 24 then ret (pretty diffHours +:+ "h ago")
  else if diffDays <? 7 then ret (pretty diffDays +:+ "d ago")
  else ret (toLocaleDateString d).

End StatusPageText.

(** ** The status page's view of the services ([renderHtml]) *)

(** A synchronous computation without effects: it returns or throws. *)
Inductive Outcome (A : Type) : Type :=
| Returned (a : A)
| Thrown (msg : string).
Arguments Returned {A} a.
Arguments Thrown {A} msg.

(** The properties every object literal inherits from [Object.prototype]:
    reading one of them from [{}] yields a function or an object, never
    [undefined]. *)
Definition Object_prototype : list string :=
  ["constructor"; "__defineGetter__"; "__defineSetter__"; "hasOwnProperty";
   "__lookupGetter__"; "__lookupSetter__"; "isPrototypeOf"; "propertyIsEnumerable";
   "toString"; "valueOf"; "__proto__"; "toLocaleString"].

(** [svc.category || 'Uncategorized']. *)
Definition category_of (svc : UrlState) : string :=
  JS.str_or (us_category svc) "Uncategorized".

(** One turn of the grouping loop of [renderHtml], on [categories] and
    [groupedServices]. An inherited property is truthy, so no array is
    created for it, and it has no [push]. *)
Definition group_service
    (acc : Outcome (list string * gmap string (list UrlState))) (svc : UrlState)
    : Outcome (list string * gmap string (list UrlState)) :=
  match acc with
  | Thrown msg => Thrown msg
  | Returned (categories, groupedServices) =>
      let category := category_of svc in
      match groupedServices !! category with
      | Some group =>
          Returned (categories, <[category := group ++ [svc]]> groupedServices)
      | None =>
          if bool_decide (category ∈ Object_prototype)
          then Thrown "TypeError: groupedServices[category].push is not a function"
          else Returned (categories ++ [category], <[category := [svc]]> groupedServices)
      end
  end.

Definition group_services (services : list UrlState)
    : Outcome (list string * gmap string (list UrlState)) :=
  foldl group_service (Returned ([], ∅)) services.




(** ** Strings *)

(** A string is a sequence of code units below 256. *)
Module Str.

(** The line feed. *)
Definition nl : string := String (Ascii.ascii_of_nat 10) EmptyString.

(** White space and line terminators, as [trim] and [parseInt] see them:
    TAB, LF, VT, FF, CR, SP and NBSP. *)
Definition is_space (a : Ascii.ascii) : bool :=
  let n := Ascii.nat_of_ascii a in
  ((9 <=? n) && (n <=? 13) || (n =? 32) || (n =? 160))%nat.

(** [s.trimStart()], [s.trimEnd()], [s.trim()]. *)
Fixpoint trimStart (s : string) : string :=
  match s with
  | EmptyString => EmptyString
  | String a rest => if is_space a then trimStart rest else s
  end.

Fixpoint trimEnd (s : string) : string :=
  match s with
  | EmptyString => EmptyString
  | String a rest =>
      match trimEnd rest with
      | EmptyString => if is_space a then EmptyString else String a EmptyString
      | kept => String a kept
      end
  end.

Definition trim (s : string) : string := trimEnd (trimStart s).

(** The decimal digit a character stands for. *)
Definition digit (a : Ascii.ascii) : option Z :=
  let n := Ascii.nat_of_ascii a in
  if ((48 <=? n) && (n <=? 57))%nat then Some (Z.of_nat n - 48) else None.

(** The value of the longest prefix of decimal digits, after [acc]; [None]
    when the prefix is empty. *)
Fixpoint digits (acc : option Z) (s : string) : option Z :=
  match s with
  | EmptyString => acc
  | String a rest =>
      match digit a with
      | Some d => digits (Some (default 0 acc * 10 + d)) rest
      | None => acc
      end
  end.

(** [parseInt(s, 10)]; [None] is [NaN]. *)
Definition parseInt (s : string) : option Z :=
  match trimStart s with
  | String a rest =>
      if Ascii.eqb a (Ascii.ascii_of_nat 45) then Z.opp <$> digits None rest
      else if Ascii.eqb a (Ascii.ascii_of_nat 43) then digits None rest
      else digits None (String a rest)
  | EmptyString => None
  end.

End Str.

(** ** Notifications ([src/notify.ts]) *)

(** The options [getTransporter] creates the transport with. *)
Record Transport := mkTransport {
  tr_host : string;
  tr_port : option Z;
  tr_secure : bool;
  tr_requireTLS : bool;
  tr_auth : option (string * string)
}.

(** A message handed to [sendMail]. *)
Record Mail := mkMail {
  mail_from : string;
  mail_to : string;
  mail_subject : string;
  mail_text : string
}.

(** The module's state, the cached transport, and what the module did so
    far: the messages handed to [sendMail] and the lines written to the
    console, each oldest first. *)
Record Notifier := mkNotifier {
  transporter : option Transport;
  outbox : list Mail;
  console : list string
}.

Record SmtpConfig := mkSmtpConfig {
  smtp_enabled : bool;
  smtp_host : string;
  smtp_port : option Z;
  smtp_tls : bool;
  smtp_user : string;
  smtp_password : string;
  smtp_fromName : string;
  smtp_fromAddress : string
}.

Section Notify.

(** [process.env]. *)
Variable env : gmap string string.

(** [sendMail]: what happens to the [k]-th message handed to the
    transport; [Some msg] is a rejection with that message. *)
Variable sendMail : nat -> Transport -> Mail -> option string.

(** [toISOString()] of an instant. *)
Variable toISOString : Z -> string.

Definition getSmtpConfig : SmtpConfig :=
  mkSmtpConfig
    (bool_decide (env !! "SMTP_ENABLED" = Some "true"))
    (JS.str_or (env !! "SMTP_HOST") "localhost")
    (Str.parseInt (JS.str_or (env !! "SMTP_PORT") "587"))
    (bool_decide (env !! "SMTP_TLS" = Some "true"))
    (JS.str_or (env !! "SMTP_USER") EmptyString)
    (JS.str_or (env !! "SMTP_PASSWORD") EmptyString)
    (JS.str_or (env !! "SMTP_FROM_NAME") EmptyString)
    (JS.str_or (env !! "SMTP_FROM_ADDRESS") "uptime@localhost").

(** [getTransporter()]: the transport, created on first use;
    [createTransport] only records its options and does not throw. *)
Definition getTransporter (st : Notifier) : Transport * Notifier :=
  let config := getSmtpConfig in
  match transporter st with
  | Some t => (t, st)
  | None =>
      let t :=
        mkTransport (smtp_host config) (smtp_port config)
          (bool_decide (smtp_port config = Some 465)) (smtp_tls config)
          (if JS.truthy_str (Some (smtp_user config))
              && JS.truthy_str (Some (smtp_password config))
           then Some (smtp_user config, smtp_password config) else None) in
      (t, mkNotifier (Some t) (outbox st) (console st))
  end.

Definition log (line : string) (st : Notifier) : Notifier :=
  mkNotifier (transporter st) (outbox st) (console st ++ [line]).

(** [sendEmail(to, subject, body)]. *)
Definition sendEmail (to subject body : string) (st : Notifier) : Notifier :=
  let config := getSmtpConfig in
  if negb (smtp_enabled config) || negb (JS.truthy_str (Some (smtp_host config)))
     || String.eqb (smtp_host config) "localhost" then
    log ("  Body: " +:+ body)
      (log ("  Subject: " +:+ subject)
         (log ("  To: " +:+ to)
            (log "[notify] SMTP not configured, logging email instead:" st)))
  else
    let fromAddress :=
      if JS.truthy_str (Some (smtp_fromName config))
      then JS.dquote +:+ smtp_fromName config +:+ JS.dquote +:+ " <"
           +:+ smtp_fromAddress config +:+ ">"
      else smtp_fromAddress config in
    let '(t, st1) := getTransporter st in
    let mail := mkMail fromAddress to subject body in
    let st2 := mkNotifier (transporter st1) (outbox st1 ++ [mail]) (console st1) in
    match sendMail (length (outbox st1)) t mail with
    | None => log ("[notify] Email sent to " +:+ to) st2
    | Some err => log ("[notify] Failed to send email: " +:+ err) st2
    end.

(** The loop [for (const email of emails) await sendEmail(email, subject, body)]. *)
Definition send_to_all (emails : list string) (subject body : string) (st : Notifier)
    : Notifier :=
  foldl (fun st email => sendEmail email subject body st) st emails.

(** [`${x}`] for an optional number and an optional string. *)
Definition show_num (x : option Z) : string :=
  match x with
  | Some n => pretty n
  | None => "null"
  end.

Definition show_str (x : option string) : string := default "undefined" x.

Definition subject_down (urlConfig : UrlConfig) : string :=
  "[DOWN] " +:+ uc_name urlConfig +:+ " is not responding".

Definition body_down (urlConfig : UrlConfig) (result : CheckResult) : string :=
  Str.trim
    (Str.nl +:+ "Service: " +:+ uc_name urlConfig +:+ Str.nl
     +:+ "URL: " +:+ uc_url urlConfig +:+ Str.nl
     +:+ "Status: DOWN" +:+ Str.nl
     +:+ "Error: " +:+ JS.str_or (cr_error result) "Unknown error" +:+ Str.nl
     +:+ "Response Time: "
     +:+ (if JS.truthy_num (cr_responseTime result)
          then pretty (default 0 (cr_responseTime result)) +:+ "ms" else "N/A")
     +:+ Str.nl
     +:+ "Status Code: "
     +:+ (if JS.truthy_num (cr_statusCode result)
          then pretty (default 0 (cr_statusCode result)) else "N/A")
     +:+ Str.nl
     +:+ "Time: " +:+ toISOString (cr_timestamp result) +:+ Str.nl).

(** [notifyDown(urlConfig, result, emails)]. *)
Definition notifyDown (urlConfig : UrlConfig) (result : CheckResult)
    (emails : list string) : Notifier -> Notifier :=
  send_to_all emails (subject_down urlConfig) (body_down urlConfig result).

Definition subject_up (urlConfig : UrlConfig) : string :=
  "[UP] " +:+ uc_name urlConfig +:+ " has recovered".

Definition body_up (urlConfig : UrlConfig) (result : CheckResult) : string :=
  Str.trim
    (Str.nl +:+ "Service: " +:+ uc_name urlConfig +:+ Str.nl
     +:+ "URL: " +:+ uc_url urlConfig +:+ Str.nl
     +:+ "Status: UP" +:+ Str.nl
     +:+ "Response Time: " +:+ show_num (cr_responseTime result) +:+ "ms" +:+ Str.nl
     +:+ "Time: " +:+ toISOString (cr_timestamp result) +:+ Str.nl).

(** [notifyUp(urlConfig, result, emails)]. *)
Definition notifyUp (urlConfig : UrlConfig) (result : CheckResult)
    (emails : list string) : Notifier -> Notifier :=
  send_to_all emails (subject_up urlConfig) (body_up urlConfig result).

Definition subject_ssl (urlConfig : UrlConfig) : string :=
  "[SSL] " +:+ uc_name urlConfig +:+ " certificate expiring soon".

Definition body_ssl (urlConfig : UrlConfig) (sslInfo : SslInfo) : string :=
  Str.trim
    (Str.nl +:+ "Service: " +:+ uc_name urlConfig +:+ Str.nl
     +:+ "URL: " +:+ uc_url urlConfig +:+ Str.nl
     +:+ "Certificate: Expiring in " +:+ pretty (ssl_daysRemaining sslInfo)
     +:+ " days" +:+ Str.nl
     +:+ "Expires: " +:+ ssl_validTo sslInfo +:+ Str.nl
     +:+ "Subject: " +:+ show_str (ssl_subject sslInfo) +:+ Str.nl
     +:+ "Issuer: " +:+ show_str (ssl_issuer sslInfo) +:+ Str.nl).

(** [notifySslExpiring(urlConfig, sslInfo, emails)]. *)
Definition notifySslExpiring (urlConfig : UrlConfig) (sslInfo : SslInfo)
    (emails : list string) : Notifier -> Notifier :=
  send_to_all emails (subject_ssl urlConfig) (body_ssl urlConfig sslInfo).

End Notify.

(** ** The configuration module ([src/config.ts]) *)

(** The module's variables, and what the module did so far: the listener
    calls made and the console lines written, oldest first. A listener is
    identified by the function object that was registered. *)
Record ConfigModule := mkConfigModule {
  cm_config : option Config;
  cm_configPath : option string;
  cm_listeners : list nat;
  cm_calls : list (nat * Config);
  cm_console : list string
}.

Section ConfigReload.

(** Whether a listener throws on a configuration, and with what message. *)
Variable listener_throws : nat -> Config -> option string.

(** [onConfigChange(callback)]; the function it returns is [unsubscribe]. *)
Definition onConfigChange (callback : nat) (cm : ConfigModule) : ConfigModule :=
  mkConfigModule (cm_config cm) (cm_configPath cm) (cm_listeners cm ++ [callback])
    (cm_calls cm) (cm_console cm).

Definition unsubscribe (callback : nat) (cm : ConfigModule) : ConfigModule :=
  mkConfigModule (cm_config cm) (cm_configPath cm)
    (List.filter (fun l => negb (Nat.eqb l callback)) (cm_listeners cm))
    (cm_calls cm) (cm_console cm).

(** One turn of the loop of [notifyListeners]. A listener does not register
    or unsubscribe listeners while it runs. *)
Definition notify_listener (config : Config) (cm : ConfigModule) (listener : nat)
    : ConfigModule :=
  mkConfigModule (cm_config cm) (cm_configPath cm) (cm_listeners cm)
    (cm_calls cm ++ [(listener, config)])
    (cm_console cm
     ++ match listener_throws listener config with
        | Some msg => ["[config] Error in listener: " +:+ msg]
        | None => []
        end).

Definition notifyListeners (cm : ConfigModule) : ConfigModule :=
  match cm_config cm with
  | None => cm
  | Some config => foldl (notify_listener config) cm (cm_listeners cm)
  end.

(** [reload()], given what [parseYaml(readFileSync(configPath))] does:
    it returns a configuration or throws. *)
Definition reload (parsed : Outcome Config) (cm : ConfigModule) : ConfigModule :=
  if negb (JS.truthy_str (cm_configPath cm)) then cm
  else
    match parsed with
    | Returned config =>
        notifyListeners
          (mkConfigModule (Some config) (cm_configPath cm) (cm_listeners cm)
             (cm_calls cm) (cm_console cm ++ ["[config] Loaded configuration"]))
    | Thrown msg =>
        mkConfigModule (cm_config cm) (cm_configPath cm) (cm_listeners cm)
          (cm_calls cm) (cm_console cm ++ ["[config] Error loading config: " +:+ msg])
    end.

(** [getConfig()]. *)
Definition getConfig (cm : ConfigModule) : option Config := cm_config cm.

End ConfigReload.

(** ** The environment file ([src/envloader.ts]) *)

(** What reading the file gives. *)
Inductive FileRead :=
| NoFile
| ReadFails (msg : string)
| FileContent (content : string).

Module Env.

(** [s.split(sep)] for a one-character separator. *)
Fixpoint split (sep : Ascii.ascii) (s : string) : list string :=
  match s with
  | EmptyString => [EmptyString]
  | String a rest =>
      if Ascii.eqb a sep then EmptyString :: split sep rest
      else
        match split sep rest with
        | first :: others => String a first :: others
        | [] => [String a EmptyString]
        end
  end.

(** The text before the first [=] and the text after it; [None] when there
    is no [=]. *)
Fixpoint cut_at_equals (s : string) : option (string * string) :=
  match s with
  | EmptyString => None
  | String a rest =>
      if Ascii.eqb a (Ascii.ascii_of_nat 61) then Some (EmptyString, rest)
      else
        match cut_at_equals rest with
        | Some (before, after) => Some (String a before, after)
        | None => None
        end
  end.

(** A line terminator inside a string: [.] does not match it. *)
Fixpoint has_line_terminator (s : string) : bool :=
  match s with
  | EmptyString => false
  | String a rest =>
      Ascii.eqb a (Ascii.ascii_of_nat 10) || Ascii.eqb a (Ascii.ascii_of_nat 13)
      || has_line_terminator rest
  end.

(** The two groups of the match of a trimmed line against the key-value
    pattern: one or more characters other than [=], then [=], then the
    rest, which holds no line terminator. *)
Definition key_value (trimmed : string) : option (string * string) :=
  match cut_at_equals trimmed with
  | Some (EmptyString, _) => None
  | Some (before, after) =>
      if has_line_terminator after then None else Some (before, after)
  | None => None
  end.

Definition is_quote (a : Ascii.ascii) : bool :=
  Ascii.eqb a (Ascii.ascii_of_nat 34) || Ascii.eqb a (Ascii.ascii_of_nat 39).

(** Removing a quote at the start, then a quote at the end of what is
    left: what the global replacement of a quote at either end does. *)
Fixpoint strip_last_quote (s : string) : string :=
  match s with
  | EmptyString => EmptyString
  | String a rest =>
      match rest with
      | EmptyString => if is_quote a then EmptyString else s
      | String _ _ => String a (strip_last_quote rest)
      end
  end.

Definition strip_quotes (value : string) : string :=
  strip_last_quote
    match value with
    | String a rest => if is_quote a then rest else value
    | EmptyString => EmptyString
    end.

(** What a line of the file asks for: a variable and its value. *)
Definition assignment (line : string) : option (string * string) :=
  let trimmed := Str.trim line in
  if negb (JS.truthy_str (Some trimmed)) || String.prefix "#" trimmed then None
  else
    match key_value trimmed with
    | Some (before, after) => Some (Str.trim before, strip_quotes (Str.trim after))
    | None => None
    end.

(** [process.env[key] === undefined]: no such variable, and no property of
    that name inherited from [Object.prototype]. Names are case-sensitive
    and the empty string is a value, as on POSIX systems. *)
Definition undefined_in (env : gmap string string) (key : string) : bool :=
  bool_decide (env !! key = None) && negb (bool_decide (key ∈ Object_prototype)).

(** One turn of the loop over the lines. *)
Definition load_line (env : gmap string string) (line : string) : gmap string string :=
  match assignment line with
  | Some (key, value) => if undefined_in env key then <[key := value]> env else env
  | None => env
  end.

End Env.

(** [loadEnv(envPath)], given what reading the file gives. *)
Definition loadEnv (file : FileRead) (env : gmap string string) : gmap string string :=
  match file with
  | NoFile => env
  | ReadFails _ => env
  | FileContent content =>
      foldl Env.load_line env (Env.split (Ascii.ascii_of_nat 10) content)
  end.

(** ** Scanning a line of the configuration file ([src/yaml.ts]) *)

Module Yaml.

Definition chr_squote : Ascii.ascii := Ascii.ascii_of_nat 39.
Definition chr_dquote : Ascii.ascii := Ascii.ascii_of_nat 34.
Definition chr_hash : Ascii.ascii := Ascii.ascii_of_nat 35.
Definition chr_backslash : Ascii.ascii := Ascii.ascii_of_nat 92.
Definition chr_colon : Ascii.ascii := Ascii.ascii_of_nat 58.

(** The loop of [findCommentIndex] from index [i] on, [rest] being the
    line from there, [prevChar] the character before (none at index 0). *)
Fixpoint scan_comment (rest : string) (prevChar : option Ascii.ascii)
    (inSingleQuote inDoubleQuote : bool) (i : Z) : Z :=
  match rest with
  | EmptyString => -1
  | String char rest' =>
      let escaped := bool_decide (prevChar = Some chr_backslash) in
      if Ascii.eqb char chr_squote && negb inDoubleQuote && negb escaped then
        scan_comment rest' (Some char) (negb inSingleQuote) inDoubleQuote (i + 1)
      else if Ascii.eqb char chr_dquote && negb inSingleQuote && negb escaped then
        scan_comment rest' (Some char) inSingleQuote (negb inDoubleQuote) (i + 1)
      else if Ascii.eqb char chr_hash && negb inSingleQuote && negb inDoubleQuote then i
      else scan_comment rest' (Some char) inSingleQuote inDoubleQuote (i + 1)
  end.

(** [findCommentIndex(line)]. *)
Definition findCommentIndex (line : string) : Z :=
  scan_comment line None false false 0.

(** [str.indexOf(c)] for a character; -1 when it does not occur. *)
Fixpoint indexOf (c : Ascii.ascii) (s : string) : Z :=
  match s with
  | EmptyString => -1
  | String a rest =>
      if Ascii.eqb a c then 0
      else let i := indexOf c rest in if i <? 0 then -1 else i + 1
  end.

(** [str.slice(start, end)] and [str.slice(start)], negative indexes
    counting from the end. *)
Definition slice (s : string) (start : Z) (stop : option Z) : string :=
  let len := Z.of_nat (String.length s) in
  let clamp k := if k <? 0 then Z.max (len + k) 0 else Z.min k len in
  let from := clamp start in
  let to := match stop with
            | Some k => clamp k
            | None => len
            end in
  String.substring (Z.to_nat from) (Z.to_nat (to - from)) s.

(** [splitKeyValue(str)]. *)
Definition splitKeyValue (str : string) : string * string :=
  let colonIndex := indexOf chr_colon str in
  (Str.trim (slice str 0 (Some colonIndex)), Str.trim (slice str (colonIndex + 1) None)).

End Yaml.

(** ** Vocabulary of the properties *)

(** What pruning leaves of one target's log: the checks newer than the
    cutoff, in their order, and no log at all when none is left. *)
Definition pruned_log (cutoff : Z) (log : option (list StoredCheck))
    : option (list StoredCheck) :=
  match log with
  | Some l =>
      match List.filter (fun c => sc_timestamp c >? cutoff) l with
      | [] => None
      | kept => Some kept
      end
  | None => None
  end.

(** [s] contains [sub]. *)
Definition contains (s sub : string) : Prop :=
  exists before after, s = before +:+ sub +:+ after.

(** Two worlds that differ at most in what a probe may touch: the clock
    and request counters, and the log. *)
Definition same_modules (w w' : World) : Prop :=
  w_state w' = w_state w /\ w_store w' = w_store w /\ w_status w' = w_status w.

(** [w'] is [w] after some clock reads and requests. *)
Definition advances (w w' : World) : Prop :=
  same_modules w w' /\ w_log w' = w_log w
  /\ (w_ticks w <= w_ticks w')%nat /\ (w_reqs w <= w_reqs w')%nat.

(** The log of a run of attempts: the probes, with a sleep between each two. *)
Fixpoint retry_log (delay : Z) (attempts : list CheckResult) : list Event :=
  match attempts with
  | [] => []
  | [r] => [EvProbe r]
  | r :: rest => EvProbe r :: EvSleep delay :: retry_log delay rest
  end.

(** Events that are no notification and no timer. *)
Definition quiet (e : Event) : Prop :=
  match e with
  | EvProbe _ | EvSleep _ => True
  | _ => False
  end.

(** The check [recordCheck] stores for an outcome. *)
Definition stored (result : CheckResult) : StoredCheck :=
  mkStoredCheck (cr_timestamp result) (cr_success result) (cr_responseTime result)
    (cr_statusCode result) (cr_error result).

(** The state [runCheck] stores for an outcome. *)
Definition state_of (urlConfig : UrlConfig) (result : CheckResult) : UrlState :=
  mkUrlState (if cr_success result then Up else Down) (cr_timestamp result)
    (cr_responseTime result) (cr_error result) (cr_sslInfo result)
    (uc_category urlConfig) (uc_name urlConfig).

(** The cooldown [runCheck] applies, in milliseconds. *)
Definition cooldown_ms (config : Config) : Z :=
  JS.num_or (cooldown_period (default no_alerts (alerts config))) 300 * 1000.

(** The instants at which a down-notification, resp. a certificate
    notification, went out for [target], oldest first. *)
Definition down_alert_time (target : string) (e : Event) : option Z :=
  match e with
  | EvNotifyDown t n _ _ => if String.eqb n target then Some t else None
  | _ => None
  end.

Definition down_alert_times (target : string) (log : list Event) : list Z :=
  omap (down_alert_time target) log.

Definition ssl_alert_time (target : string) (e : Event) : option Z :=
  match e with
  | EvNotifySsl t n _ _ => if String.eqb n target then Some t else None
  | _ => None
  end.

Definition ssl_alert_times (target : string) (log : list Event) : list Z :=
  omap (ssl_alert_time target) log.

(** Any two instants of the list are more than [gap] apart, the later one
    after the earlier one. *)
Definition spaced (gap : Z) (times : list Z) : Prop :=
  forall i j ti tj,
    (i < j)%nat -> times !! i = Some ti -> times !! j = Some tj -> tj - ti > gap.

(** The clock never goes back. *)
Definition monotone (clock : nat -> Z) : Prop :=
  forall i j, (i <= j)%nat -> clock i <= clock j.

(** Events that are neither a down-notification nor a certificate
    notification. *)
Definition no_alert (e : Event) : Prop :=
  match e with
  | EvNotifyDown _ _ _ _ | EvNotifySsl _ _ _ _ => False
  | _ => True
  end.

(** What the suppression map knows about the notifications sent so far:
    every stamp is a past reading of the clock, every notification is
    covered by a stamp under its key that is not older than it, and the
    notifications of each target are spaced. *)
Definition alert_inv (clock : nat -> Z) (gap : Z) (w : World) : Prop :=
  (forall key t, lastAlert (w_state w) !! key = Some t ->
     exists k, (k < w_ticks w)%nat /\ t = clock k)
  /\ (forall target t, t ∈ down_alert_times target (w_log w) ->
        exists t', lastAlert (w_state w) !! target = Some t' /\ t <= t')
  /\ (forall target t, t ∈ ssl_alert_times target (w_log w) ->
        exists t', lastAlert (w_state w) !! ("ssl-" +:+ target) = Some t' /\ t <= t')
  /\ (forall target, spaced gap (down_alert_times target (w_log w)))
  /\ (forall target, spaced (24 * 60 * 60 * 1000) (ssl_alert_times target (w_log w))).

(** A configuration in which every field that is read with [|| default] and
    is set to 0 has been removed. *)
Definition absent_if_zero (x : option Z) : option Z :=
  match x with
  | Some v => if v =? 0 then None else Some v
  | None => None
  end.

Definition alerts_without_zeros (a : AlertsConfig) : AlertsConfig :=
  mkAlertsConfig (absent_if_zero (retry_count a)) (absent_if_zero (retry_delay a))
    (alert_on_recovery a) (absent_if_zero (cooldown_period a)).

Definition url_without_zero (u : UrlConfig) : UrlConfig :=
  mkUrlConfig (uc_name u) (uc_category u) (uc_url u) (absent_if_zero (uc_delay u))
    (uc_method u) (uc_timeout u) (uc_expected_status u) (uc_expected_content u)
    (uc_response_time_threshold u) (uc_check_ssl u).

Definition config_without_zeros (c : Config) : Config :=
  mkConfig (settings c) (notifications c)
    (option_map alerts_without_zeros (alerts c))
    (option_map (map url_without_zero) (urls c))
    (storage c) (status_page c).







(** A history of the incident ledger: the calls made to it, oldest first. *)
Inductive LedgerOp :=
| OpOpen (service : string) (error : option string) (timestamp : Z)
| OpResolve (service : string).

Definition run_op (clock : nat -> Z) (op : LedgerOp) : M unit :=
  match op with
  | OpOpen service error timestamp => addIncident clock service error timestamp
  | OpResolve service => resolveIncident clock service
  end.

Definition run_ledger (clock : nat -> Z) (ops : list LedgerOp) : M unit :=
  for_each ops (run_op clock).

(** What identifies an incident, and the incidents a history opened, oldest
    first. *)
Definition incident_id (i : Incident) : string * option string * Z :=
  (inc_service i, inc_error i, inc_timestamp i).

Fixpoint opened (ops : list LedgerOp) : list (string * option string * Z) :=
  match ops with
  | [] => []
  | OpOpen service error timestamp :: rest => (service, error, timestamp) :: opened rest
  | OpResolve _ :: rest => opened rest
  end.

(** An incident marked resolved at [now]. *)
Definition resolved_at (now : Z) (i : Incident) : Incident :=
  mkIncident (inc_service i) (inc_error i) (inc_timestamp i) true (Some now).

(** *** Vocabulary of the further properties *)

(** A computation that leaves an observation [f] of the world as it is,
    whether it returns or dies. *)
Definition keeps {T A : Type} (f : World -> T) (m : M A) : Prop :=
  forall w, f (world_of (m w)) = f w.

(** The steps of a cycle after the probes, as [runCheck] chains them. *)
Definition after_probes clock (config : Config) (urlConfig : UrlConfig)
    (prevState : option UrlState) (result : option CheckResult) : M unit :=
  recordCheck clock (uc_name urlConfig) result ;;
  match result with
  | None => throw "TypeError: Cannot read properties of undefined (reading 'success')"
  | Some result =>
      set_urlState urlConfig result ;;
      status_alert clock config urlConfig prevState result ;;
      ssl_alert clock config urlConfig result ;;
      updateStatusPage clock (Some config)
  end.

(** The requests one probe may issue: one, and one more for each
    redirection it is allowed to follow. *)
Definition requests_per_probe (globalSettings : SettingsConfig) : nat :=
  (1 + (if bool_decide (follow_redirects globalSettings = Some false) then 0
        else Z.to_nat (JS.num_or (max_redirects globalSettings) 5)))%nat.

(** Events other than a certificate notification. *)
Definition no_ssl_event (e : Event) : Prop :=
  match e with
  | EvNotifySsl _ _ _ _ => False
  | _ => True
  end.




(** The two retention settings of a running monitor: the store's, in
    days, and the status page's, in hours. *)
Definition retentions (w : World) : Z * Z :=
  (retentionDays (w_store w), retentionHours (w_status w)).

(** [storage.retention_days || 5]. *)
Definition configured_retention (config : Config) : Z :=
  JS.num_or (match storage config with
             | Some st => retention_days st
             | None => None
             end) 5.

(** The entity, if any, that stands for a character. *)
Definition entity (a : Ascii.ascii) : string :=
  if Ascii.eqb a chr_amp then "&amp;"
  else if Ascii.eqb a chr_lt then "&lt;"
  else if Ascii.eqb a chr_gt then "&gt;"
  else if Ascii.eqb a chr_quot then "&quot;"
  else String a EmptyString.

Fixpoint escaped (s : string) : string :=
  match s with
  | EmptyString => EmptyString
  | String a rest => entity a +:+ escaped rest
  end.

(** The distinct elements of a list, each at its first occurrence. *)
Fixpoint first_occurrences (l : list string) : list string :=
  match l with
  | [] => []
  | x :: rest => x :: List.filter (fun y => negb (String.eqb y x)) (first_occurrences rest)
  end.

(** The services filed under a category. *)
Definition in_category (category : string) (svc : UrlState) : bool :=
  String.eqb (category_of svc) category.

(** The sender [sendEmail] writes on a message. *)
Definition sender (config : SmtpConfig) : string :=
  if JS.truthy_str (Some (smtp_fromName config))
  then JS.dquote +:+ smtp_fromName config +:+ JS.dquote +:+ " <"
       +:+ smtp_fromAddress config +:+ ">"
  else smtp_fromAddress config.

(** The transport [getTransporter] creates from a configuration. *)
Definition transport_of (config : SmtpConfig) : Transport :=
  mkTransport (smtp_host config) (smtp_port config)
    (bool_decide (smtp_port config = Some 465)) (smtp_tls config)
    (if JS.truthy_str (Some (smtp_user config))
        && JS.truthy_str (Some (smtp_password config))
     then Some (smtp_user config, smtp_password config) else None).

(** The console line that reports what became of a message. *)
Definition delivery_line (to : string) (reply : option string) : string :=
  match reply with
  | None => "[notify] Email sent to " +:+ to
  | Some err => "[notify] Failed to send email: " +:+ err
  end.

(** The four console lines that stand for a message when SMTP is not
    configured. *)
Definition logged_instead (subject body to : string) : list string :=
  ["[notify] SMTP not configured, logging email instead:";
   "  To: " +:+ to; "  Subject: " +:+ subject; "  Body: " +:+ body].

(** The [k]-th of the messages a loop hands to the transport, and the
    console line for it. *)
Fixpoint deliveries (sendMail : nat -> Transport -> Mail -> option string)
    (t : Transport) (from subject body : string) (k : nat)
    (emails : list string) : list string :=
  match emails with
  | [] => []
  | to :: rest =>
      delivery_line to (sendMail k t (mkMail from to subject body))
      :: deliveries sendMail t from subject body (S k) rest
  end.

(** The value the first line that assigns [key] gives it. *)
Definition first_assignment (key : string) (lines : list string) : option string :=
  head (omap (fun line =>
                match Env.assignment line with
                | Some (k, v) => if String.eqb k key then Some v else None
                | None => None
                end) lines).

(** No character of [s] is [c]. *)
Fixpoint free_of (c : Ascii.ascii) (s : string) : Prop :=
  match s with
  | EmptyString => True
  | String a rest => a <> c /\ free_of c rest
  end.

(** [s] without its last character. *)
Definition but_last (s : string) : string :=
  String.substring 0 (String.length s - 1) s.

(** An incident is marked resolved exactly when it carries a resolution
    time. *)
Definition resolution_recorded (i : Incident) : Prop :=
  inc_resolved i = true <-> inc_resolvedAt i <> None.


(** ** Sample inputs *)

Module Sample.

Definition T0 : Z := 1700000000000.
Definition day : Z := 24 * 60 * 60 * 1000.

(** A clock that advances one second per read. *)
Definition clock (k : nat) : Z := T0 + Z.of_nat k * 1000.

(** A clock that jumps sixty days after its first read. *)
Definition clock_60d (k : nat) : Z :=
  match k with
  | O => T0
  | S _ => T0 + 60 * day
  end.

Definition parseUrl (s : string) : option bool := Some (String.prefix "https:" s).

Definition resolveUrl (location base : string) : option string :=
  if String.eqb location "http://" then None else Some location.

(** Every redirection target parses. *)
Definition resolveUrl_any (location base : string) : option string :=
  Some location.

Definition net_down (k : nat) (url : string) (o : RequestOptions) : NetReply :=
  NetFailure "connect ECONNREFUSED".

Definition net_up (k : nat) (url : string) (o : RequestOptions) : NetReply :=
  NetResponse 200 None "ok" None.

(** The first two requests of the process fail, the later ones succeed. *)
Definition net_fail_twice (k : nat) (url : string) (o : RequestOptions) : NetReply :=
  if (k <? 2)%nat then NetFailure "connect ECONNREFUSED"
  else NetResponse 200 None "ok" None.

Definition target (name : string) : UrlConfig :=
  mkUrlConfig name None ("http://" +:+ name +:+ "/") None None None None None None None.

(** A target with [response_time_threshold: 0]. *)
Definition target_threshold_0 : UrlConfig :=
  mkUrlConfig "A" None "http://A/" None None None None None (Some 0) None.

Definition config_alerts (a : AlertsConfig) : Config :=
  mkConfig None None (Some a) None None None.

Definition config_retry (count : option Z) : Config :=
  config_alerts (mkAlertsConfig count None None None).

(** An HTTPS target whose certificate is inspected. *)
Definition target_https (name : string) : UrlConfig :=
  mkUrlConfig name None ("https://" +:+ name +:+ "/") None None None None None None
    (Some true).

(** A certificate that expires ten and a half days after [T0]. *)
Definition cert_10_days : Certificate :=
  mkCertificate "Nov  5 00:00:00 2023 GMT" "Nov 25 10:13:20 2023 GMT"
    (T0 + 10 * day + day / 2) (Some "Example CA") (Some "foo").

(** A store with the history of target A over three clock hours: two
    successes in the first, at its first and last millisecond, nothing in
    the second, a failure and a success in the third, the current one. *)
Definition history_3_hours : list StoredCheck :=
  [mkStoredCheck 1699992000000 true (Some 100) (Some 200) None;
   mkStoredCheck 1699995599999 true (Some 201) (Some 200) None;
   mkStoredCheck 1699999200001 false (Some 300) (Some 500)
     (Some "Unexpected status code: 500");
   mkStoredCheck 1699999999000 true (Some 101) (Some 200) None].

Definition world_with_history (history : list StoredCheck) : World :=
  set_store (mkStore {["A" := history]} 5 None) fresh_world.

(** Every count, delay and period set to 0. *)
Definition config_zeros : Config :=
  mkConfig None None (Some (mkAlertsConfig (Some 0) (Some 0) None (Some 0)))
    (Some [mkUrlConfig "A" None "http://A/" (Some 0) None None None None None None])
    None None.

(** Host [foo] answers over HTTPS with that certificate; nothing else
    answers. *)
Definition net_foo (k : nat) (url : string) (o : RequestOptions) : NetReply :=
  if String.eqb url "https://foo/" then NetResponse 200 None "ok" (Some cert_10_days)
  else NetFailure "connect ECONNREFUSED".

(** One probe attempt per cycle. *)
Definition config_single : Config := config_retry (Some 1).

(** Incidents are kept thirty days, history five. *)
Definition config_30_days : Config :=
  mkConfig None None None None
    (Some (mkStorageConfig None (Some 5)))
    (Some (mkStatusPageConfig (Some true) None None (Some 30))).

End Sample.

(** Further sample inputs. *)
Module Scenario.


(** Recoveries are not announced. *)
Definition config_silent_recovery : Config :=
  Sample.config_alerts (mkAlertsConfig (Some 1) None (Some false) None).

(** Target A was found down by the only cycle run so far, under
    [config_silent_recovery]. *)
Definition down_once_silent : World :=
  world_of (run_cycles Sample.clock Sample.net_down Sample.parseUrl
              Sample.resolveUrl_any (Some config_silent_recovery)
              [Sample.target "A"] fresh_world).

Definition service (name : string) (category : option string) (status : Status)
    : UrlState :=
  mkUrlState status Sample.T0 (Some 120) None None category name.

Definition services : list UrlState :=
  [service "api" (Some "Core") Up; service "blog" None Up;
   service "db" (Some "Core") Down; service "mail" (Some "") Up].

End Scenario.

Module Scenario3.

(** SMTP is configured, with a sender name. *)
Definition env_smtp : gmap string string :=
  {["SMTP_ENABLED" := "true"; "SMTP_HOST" := "mail.example.org";
    "SMTP_PORT" := "465"; "SMTP_FROM_NAME" := "Uptime"]}.

(** The transport rejects the first message and accepts the later ones. *)
Definition sendMail_first_fails (k : nat) (t : Transport) (m : Mail) : option string :=
  match k with
  | O => Some "Mailbox unavailable"
  | S _ => None
  end.

Definition toISOString (t : Z) : string := "2023-11-14T22:13:21.000Z".

Definition no_notifier : Notifier := mkNotifier None [] [].

Definition failed_probe : CheckResult :=
  mkCheckResult "A" "http://A/" false None (Some 0) None None 1700000001000.

End Scenario3.

Module Scenario4.

(** Listener 1 throws, listener 2 does not. *)
Definition first_throws (l : nat) (c : Config) : option string :=
  match l with
  | 1%nat => Some "boom"
  | _ => None
  end.

Definition loaded : ConfigModule :=
  mkConfigModule (Some Sample.config_single) (Some "config.yaml") [1%nat; 2%nat] [] [].

End Scenario4.

Module Scenario5.

Definition CR : string := String (Ascii.ascii_of_nat 13) EmptyString.

(** A file with a comment, a quoted value, a line ending in CR, a
    duplicate and a line without a name. *)
Definition dotenv : string :=
  "# mail" +:+ Str.nl
  +:+ "SMTP_HOST = " +:+ JS.dquote +:+ "mail.example.org" +:+ JS.dquote +:+ Str.nl
  +:+ "SMTP_PORT=465" +:+ CR +:+ Str.nl
  +:+ "SMTP_HOST=other.example.org" +:+ Str.nl
  +:+ "=nameless" +:+ Str.nl
  +:+ "STATUS_PORT=8080" +:+ Str.nl.

Definition env_before : gmap string string := {["STATUS_PORT" := "3070"]}.

End Scenario5.

(** * Properties *)

(** Unfolding of the monad's primitives. *)
Ltac unfold_m :=
  unfold bind, ret, throw, emit, sleep, Date_now, request,
    get_state, put_state, get_store, put_store, get_status, put_status in *.

(** ** History retention *)

Section Retention.

Variable clock : nat -> Z.

Lemma prune_entry_same cutoff data name :
  prune_entry cutoff data name !! name = pruned_log cutoff (data !! name).
Proof.
  unfold prune_entry, pruned_log.
  destruct (data !! name) as [l|] eqn:E; simpl.
  - destruct (List.filter _ l) eqn:F; simpl.
    + apply lookup_delete_eq.
    + apply lookup_insert_eq.
  - apply lookup_delete_eq.
Qed.

Lemma prune_entry_other cutoff data name other :
  name <> other ->
  prune_entry cutoff data name !! other = data !! other.
Proof.
  intros Hne. unfold prune_entry.
  destruct (length _ =? 0)%nat.
  - by apply lookup_delete_ne.
  - by apply lookup_insert_ne.
Qed.

Lemma pruned_log_idem cutoff log :
  pruned_log cutoff (pruned_log cutoff log) = pruned_log cutoff log.
Proof.
  destruct log as [l|]; simpl; [|done].
  destruct (List.filter _ l) as [|c kept] eqn:F; [done|].
  unfold pruned_log. rewrite <- F.
  assert (G : List.filter (fun c => sc_timestamp c >? cutoff)
                (List.filter (fun c => sc_timestamp c >? cutoff) l)
              = List.filter (fun c => sc_timestamp c >? cutoff) l).
  { clear F. induction l as [|x l IH]; simpl; [done|].
    destruct (sc_timestamp x >? cutoff) eqn:E; simpl; [|done].
    by rewrite E, IH. }
  rewrite G. by rewrite F.
Qed.

(** The loop visits each key once: a visited log is pruned, the others
    are left alone. *)
Lemma prune_loop_lookup cutoff names :
  NoDup names ->
  forall data name,
    foldl (prune_entry cutoff) data names !! name
    = if bool_decide (name ∈ names) then pruned_log cutoff (data !! name)
      else data !! name.
Proof.
  induction 1 as [|n names Hn Hnd IH]; intros data name; simpl.
  - done.
  - rewrite IH. destruct (decide (name = n)) as [->|Hne].
    + rewrite prune_entry_same.
      rewrite (bool_decide_eq_true_2 (n ∈ n :: names)) by apply list_elem_of_here.
      case_bool_decide; [apply pruned_log_idem | done].
    + rewrite prune_entry_other by done.
      destruct (decide (name ∈ names)) as [Hin|Hin].
      * rewrite (bool_decide_eq_true_2 (name ∈ n :: names))
          by (apply elem_of_cons; by right).
        by rewrite (bool_decide_eq_true_2 (name ∈ names)).
      * rewrite (bool_decide_eq_false_2 (name ∈ n :: names))
          by (intros [?|?]%elem_of_cons; done).
        by rewrite (bool_decide_eq_false_2 (name ∈ names)).
Qed.

Lemma prune_keys_lookup cutoff (data : gmap string (list StoredCheck)) name :
  foldl (prune_entry cutoff) data (map fst (map_to_list data)) !! name
  = pruned_log cutoff (data !! name).
Proof.
  rewrite prune_loop_lookup by apply NoDup_fst_map_to_list.
  case_bool_decide as Hin; [done|].
  destruct (data !! name) as [l|] eqn:E; [|done].
  exfalso. apply Hin. apply list_elem_of_fmap.
  exists (name, l). split; [done|]. by apply elem_of_map_to_list.
Qed.

Lemma prune_lookup (w : World) (name : string) :
  exists w',
    prune clock w = Ok tt w'
    /\ w_ticks w' = S (w_ticks w)
    /\ w_reqs w' = w_reqs w /\ w_log w' = w_log w
    /\ w_state w' = w_state w /\ w_status w' = w_status w
    /\ retentionDays (w_store w') = retentionDays (w_store w)
    /\ saved (w_store w') = saved (w_store w)
    /\ forall name,
         checks (w_store w') !! name
         = pruned_log (clock (w_ticks w)
                       - retentionDays (w_store w) * 24 * 60 * 60 * 1000)
             (checks (w_store w) !! name).
Proof.
  unfold prune. unfold_m. eexists. split; [reflexivity|]. simpl.
  repeat split. intros n. apply prune_keys_lookup.
Qed.

Lemma pruned_log_kept cutoff log kept :
  pruned_log cutoff log = Some kept ->
  exists l, log = Some l
    /\ kept = List.filter (fun c => sc_timestamp c >? cutoff) l
    /\ kept <> [].
Proof.
  destruct log as [l|]; simpl; [|done].
  destruct (List.filter _ l) eqn:F; [done|].
  intros [= <-]. exists l. by rewrite F.
Qed.

(** C9. [prune] leaves of every target's log exactly the checks whose
    timestamp is strictly newer than [now - retentionDays] days, in their
    order; a check at or before the cutoff is removed (a check exactly at
    the cutoff goes); a log with nothing left is removed from the store. *)
Theorem prune_removes_exactly_expired (w : World) (name : string) :
  let cutoff :=
    clock (w_ticks w) - retentionDays (w_store w) * 24 * 60 * 60 * 1000 in
  exists w',
    prune clock w = Ok tt w'
    /\ checks (w_store w') !! name = pruned_log cutoff (checks (w_store w) !! name)
    /\ (forall kept, checks (w_store w') !! name = Some kept ->
          kept <> [] /\ forall c, In c kept -> sc_timestamp c > cutoff)
    /\ (forall l c, checks (w_store w) !! name = Some l -> In c l ->
          (sc_timestamp c <= cutoff
           <-> ~ In c (default [] (checks (w_store w') !! name)))).
Proof.
  intros cutoff.
  destruct (prune_lookup w name) as (w' & Hrun & _ & _ & _ & _ & _ & _ & _ & Hl).
  exists w'. split; [done|]. specialize (Hl name). fold cutoff in Hl.
  split; [done|]. split.
  - intros kept Hk. rewrite Hl in Hk.
    apply pruned_log_kept in Hk as (l & _ & -> & Hne). split; [done|].
    intros c Hc. apply filter_In in Hc as [_ Hc]. lia.
  - intros l c Hold Hc. rewrite Hl, Hold. simpl.
    assert (Hf : default [] (match List.filter (fun c => sc_timestamp c >? cutoff) l with
                             | [] => None
                             | kept => Some kept
                             end)
                 = List.filter (fun c => sc_timestamp c >? cutoff) l).
    { by destruct (List.filter _ l). }
    rewrite Hf. rewrite filter_In. split.
    + intros Hle [_ Hgt]. lia.
    + intros Hnot. destruct (sc_timestamp c >? cutoff) eqn:E; [|lia].
      exfalso. by apply Hnot.
Qed.

End Retention.

(** ** The incident ledger *)

Section Ledger.

Variable clock : nat -> Z.

Lemma addIncident_ledger (w : World) service error timestamp :
  exists w',
    addIncident clock service error timestamp w = Ok tt w'
    /\ w_ticks w' = S (w_ticks w)
    /\ w_reqs w' = w_reqs w /\ w_log w' = w_log w
    /\ w_state w' = w_state w /\ w_store w' = w_store w
    /\ sd_incidents (w_status w')
       = List.filter
           (fun i => inc_timestamp i >? clock (w_ticks w) - 90 * 24 * 60 * 60 * 1000)
           (mkIncident service error timestamp false None
            :: sd_incidents (w_status w)).
Proof.
  unfold addIncident. unfold_m. eexists. split; [reflexivity|]. by simpl.
Qed.

(** Neither [retentionHours] nor anything else that is configured reaches
    the cutoff of [addIncident]. *)
Lemma addIncident_ignores_retentionHours (w : World) hours service error timestamp :
  sd_incidents (w_status (world_of
    (addIncident clock service error timestamp
       (world_of (setRetentionHours hours w)))))
  = sd_incidents (w_status (world_of
      (addIncident clock service error timestamp w))).
Proof. reflexivity. Qed.

Lemma assign_first_none p f l :
  Forall (fun i => p i = false) l -> assign_first p f l = l.
Proof.
  induction 1 as [|i l Hi _ IH]; simpl; [done|]. by rewrite Hi, IH.
Qed.

Lemma assign_first_split p f before i after :
  Forall (fun j => p j = false) before -> p i = true ->
  assign_first p f (before ++ i :: after) = before ++ f i :: after.
Proof.
  induction 1 as [|j before Hj _ IH]; intros Hi; simpl.
  - by rewrite Hi.
  - by rewrite Hj, IH.
Qed.

Lemma find_none_Forall (p : Incident -> bool) l :
  List.find p l = None <-> Forall (fun i => p i = false) l.
Proof.
  induction l as [|i l IH]; simpl.
  - split; [constructor | done].
  - destruct (p i) eqn:E.
    + split; [done|]. intros H. inversion H; congruence.
    + rewrite IH. split; [by constructor | by inversion 1].
Qed.

Lemma assign_first_ids p now l :
  map incident_id (assign_first p (resolved_at now) l) = map incident_id l.
Proof.
  induction l as [|i l IH]; simpl; [done|].
  destruct (p i); simpl; [done | by rewrite IH].
Qed.

Lemma resolveIncident_ledger (w : World) service :
  exists w',
    resolveIncident clock service w = Ok tt w'
    /\ w_reqs w' = w_reqs w /\ w_log w' = w_log w
    /\ w_state w' = w_state w /\ w_store w' = w_store w
    /\ (w_ticks w <= w_ticks w')%nat
    /\ (Forall (fun i => is_open_for service i = false)
          (sd_incidents (w_status w)) -> w' = w)
    /\ sd_incidents (w_status w')
       = assign_first (is_open_for service) (resolved_at (clock (w_ticks w)))
           (sd_incidents (w_status w)).
Proof.
  unfold resolveIncident. unfold_m.
  destruct (List.find _ _) eqn:F.
  - eexists. split; [reflexivity|]. simpl. repeat split; [lia|].
    intros Hall. apply find_none_Forall in Hall. congruence.
  - exists w. apply find_none_Forall in F.
    repeat split; [lia|]. by rewrite assign_first_none.
Qed.

Lemma filter_sublist {A} (p : A -> bool) (l : list A) :
  sublist (List.filter p l) l.
Proof.
  induction l as [|x l IH]; simpl; [done|].
  destruct (p x); by constructor.
Qed.

Lemma map_filter_sublist {A B} (f : A -> B) (p : A -> bool) (l : list A) :
  sublist (map f (List.filter p l)) (map f l).
Proof.
  induction l as [|x l IH]; simpl; [done|].
  destruct (p x); simpl; by constructor.
Qed.

Lemma run_op_ids (w : World) (op : LedgerOp) :
  exists w',
    run_op clock op w = Ok tt w'
    /\ sublist (map incident_id (sd_incidents (w_status w')))
         (rev (opened [op]) ++ map incident_id (sd_incidents (w_status w))).
Proof.
  destruct op as [service error timestamp | service]; simpl.
  - destruct (addIncident_ledger w service error timestamp)
      as (w' & Hrun & _ & _ & _ & _ & _ & Hl).
    exists w'. split; [done|]. rewrite Hl.
    apply (map_filter_sublist incident_id).
  - destruct (resolveIncident_ledger w service)
      as (w' & Hrun & _ & _ & _ & _ & _ & _ & Hl).
    exists w'. split; [done|]. by rewrite Hl, assign_first_ids.
Qed.

Lemma run_ledger_ids (ops : list LedgerOp) :
  forall w : World,
    exists w',
      run_ledger clock ops w = Ok tt w'
      /\ sublist (map incident_id (sd_incidents (w_status w')))
           (rev (opened ops) ++ map incident_id (sd_incidents (w_status w))).
Proof.
  induction ops as [|op ops IH]; intros w.
  - exists w. by split.
  - destruct (run_op_ids w op) as (w1 & Hop & Hs1).
    destruct (IH w1) as (w' & Hrun & Hs).
    exists w'. split.
    + unfold run_ledger in *. simpl. unfold bind. by rewrite Hop.
    + etrans; [exact Hs|].
      assert (Ho : rev (opened (op :: ops)) = rev (opened ops) ++ rev (opened [op])).
      { destruct op; simpl; [done | by rewrite app_nil_r]. }
      rewrite Ho, <- app_assoc. by apply sublist_app.
Qed.

(** C8. After any history of the ledger, from any ledger: the incidents
    are listed most recently opened first; [resolveIncident] completes;
    it leaves the world as it is when the target has no unresolved
    incident; otherwise it marks the first one listed for the target, the
    most recently opened, resolved at the time of the call, and leaves
    every other incident as it is. *)
Theorem resolve_marks_most_recent_open
    (w0 : World) (ops : list LedgerOp) (service : string) :
  let w := world_of (run_ledger clock ops w0) in
  sublist (map incident_id (sd_incidents (w_status w)))
    (rev (opened ops) ++ map incident_id (sd_incidents (w_status w0)))
  /\ exists w',
       resolveIncident clock service w = Ok tt w'
       /\ (Forall (fun i => is_open_for service i = false)
             (sd_incidents (w_status w)) -> w' = w)
       /\ (forall before i after,
             sd_incidents (w_status w) = before ++ i :: after ->
             Forall (fun j => is_open_for service j = false) before ->
             is_open_for service i = true ->
             sd_incidents (w_status w')
             = before ++ resolved_at (clock (w_ticks w)) i :: after).
Proof.
  intros w. subst w.
  destruct (run_ledger_ids ops w0) as (w & Hrun & Hs). rewrite Hrun. simpl.
  split; [done|].
  destruct (resolveIncident_ledger w service)
    as (w' & Hres & _ & _ & _ & _ & _ & Hnone & Hl).
  exists w'. split; [done|]. split; [done|].
  intros before i after Hsplit Hbefore Hi.
  rewrite Hl, Hsplit. by apply assign_first_split.
Qed.

End Ledger.

(** C5. The ledger keeps an incident for ninety days whatever is configured:
    with [incident_retention_days: 30], an incident opened sixty days ago
    is still listed after the next incident is opened. *)
Theorem incident_window_ignores_configuration :
  (match status_page Sample.config_30_days with
   | Some sp => incident_retention_days sp
   | None => None
   end) = Some 30
  /\ map incident_id (sd_incidents (w_status (world_of
       ((main Sample.clock_60d Sample.net_down Sample.parseUrl Sample.resolveUrl
           (Some Sample.config_30_days) ;;
         addIncident Sample.clock_60d "api" (Some "timeout") Sample.T0 ;;
         addIncident Sample.clock_60d "web" (Some "timeout")
           (Sample.T0 + 60 * Sample.day))
          fresh_world))))
     = [("web", Some "timeout", Sample.T0 + 60 * Sample.day);
        ("api", Some "timeout", Sample.T0)].
Proof. split; reflexivity. Qed.

(** ** The probe *)

Lemma append_String c (s t : string) : String c s +:+ t = String c (s +:+ t).
Proof. reflexivity. Qed.

Lemma prefix_spec (p s : string) :
  String.prefix p s = true <-> exists rest, s = p +:+ rest.
Proof.
  revert s. induction p as [|c p IH]; intros s; simpl.
  - split; [intros _; exists s; reflexivity | intros _; by destruct s].
  - destruct s as [|d s]; simpl.
    + split; [done | intros [rest H]; discriminate H].
    + destruct (Ascii.ascii_dec c d) as [->|Hne].
      * rewrite IH. split; intros [rest H]; exists rest;
          rewrite append_String in *; congruence.
      * split; [done | intros [rest H]; rewrite append_String in H; congruence].
Qed.

Lemma includes_spec (s sub : string) :
  JS.includes s sub = true <-> contains s sub.
Proof.
  unfold contains. induction s as [|c s IH].
  - destruct sub as [|d sub]; simpl.
    + split; [intros _; by exists EmptyString, EmptyString | done].
    + split; [done|]. intros (before & after & H).
      destruct before; discriminate H.
  - cbn [JS.includes]. rewrite orb_true_iff, prefix_spec, IH. split.
    + intros [[rest H] | (before & after & H)].
      * by exists EmptyString, rest.
      * exists (String c before), after. rewrite append_String. by rewrite H.
    + intros (before & after & H). destruct before as [|d before].
      * left. by exists after.
      * right. exists before, after. rewrite append_String in H. congruence.
Qed.

Lemma array_includes_In (arr : list Z) (x : Z) :
  array_includes arr x = true <-> In x arr.
Proof.
  unfold array_includes. rewrite existsb_exists. split.
  - intros (y & Hy & E). apply Z.eqb_eq in E. by subst.
  - intros H. exists x. split; [done | apply Z.eqb_refl].
Qed.

Lemma advances_refl w : advances w w.
Proof. unfold advances, same_modules. repeat split; lia. Qed.

Lemma advances_trans w1 w2 w3 : advances w1 w2 -> advances w2 w3 -> advances w1 w3.
Proof.
  unfold advances, same_modules.
  intros ((? & ? & ?) & ? & ? & ?) ((? & ? & ?) & ? & ? & ?).
  repeat split; try congruence; lia.
Qed.

Lemma advances_set_ticks w n : (w_ticks w <= n)%nat -> advances w (set_ticks n w).
Proof. unfold advances, same_modules. simpl. repeat split; lia. Qed.

Section Probe.

Variable clock : nat -> Z.
Variable net : nat -> string -> RequestOptions -> NetReply.
Variable parseUrl : string -> option bool.
Variable resolveUrl : string -> string -> option string.

Lemma Date_now_advances (w : World) r :
  Date_now clock w = r ->
  r = Ok (clock (w_ticks w)) (set_ticks (S (w_ticks w)) w).
Proof. by intros <-. Qed.

Lemma request_advances url options (w : World) r :
  request net url options w = r ->
  exists reply w', r = Ok reply w' /\ advances w w'.
Proof.
  intros <-. do 2 eexists. split; [reflexivity|].
  unfold advances, same_modules. simpl. repeat split; lia.
Qed.

Lemma peerSslInfo_advances isHttps options cert (w : World) r :
  peerSslInfo clock isHttps options cert w = r ->
  exists sslInfo w', r = Ok sslInfo w' /\ advances w w'.
Proof.
  intros <-. unfold peerSslInfo.
  destruct (isHttps && _); [|exists None, w; split; [done | apply advances_refl]].
  destruct cert as [c|]; [|exists None, w; split; [done | apply advances_refl]].
  destruct (JS.truthy_str _); [|exists None, w; split; [done | apply advances_refl]].
  unfold_m. do 2 eexists. split; [reflexivity|].
  apply advances_set_ticks. lia.
Qed.

(** A transport call leaves the monitor's modules and the log alone. *)
Lemma makeRequest_advances urlString options redirectCount (w : World) :
  advances w (world_of (makeRequest clock net parseUrl resolveUrl
                          urlString options redirectCount w)).
Proof.
  funelim (makeRequest clock net parseUrl resolveUrl urlString options redirectCount w);
    simpl;
    repeat match goal with
      | H : request _ _ _ _ = _ |- _ =>
          apply request_advances in H as (? & ? & [= <- <-] & ?)
      | H : request _ _ _ _ = Crash _ _ |- _ =>
          apply request_advances in H as (? & ? & [=] & ?)
      | H : peerSslInfo _ _ _ _ _ = _ |- _ =>
          apply peerSslInfo_advances in H as (? & ? & [= <- <-] & ?)
      | H : peerSslInfo _ _ _ _ _ = Crash _ _ |- _ =>
          apply peerSslInfo_advances in H as (? & ? & [=] & ?)
      end;
    eauto using advances_refl, advances_trans.
Qed.

(** A probe ends the way its transport call ends: it dies with it, or
    returns a result, logged as a completed probe, one clock read later. *)
Lemma checkUrl_frame
    (urlConfig : UrlConfig) (globalSettings : SettingsConfig) (w : World) :
  match makeRequest clock net parseUrl resolveUrl (uc_url urlConfig)
          (request_options urlConfig globalSettings) 0
          (set_ticks (S (S (w_ticks w))) w) with
  | Crash msg w1 =>
      checkUrl clock net parseUrl resolveUrl urlConfig globalSettings w = Crash msg w1
  | Ok settled w1 =>
      exists result,
        checkUrl clock net parseUrl resolveUrl urlConfig globalSettings w
        = Ok result (set_log (w_log w1 ++ [EvProbe result])
                       (set_ticks (S (w_ticks w1)) w1))
  end.
Proof.
  unfold checkUrl. unfold_m. simpl.
  change (mkWorld (S (S (w_ticks w))) (w_reqs w) (w_log w) (w_state w)
            (w_store w) (w_status w))
    with (set_ticks (S (S (w_ticks w))) w).
  destruct (makeRequest _ _ _ _ _ _ _ _) as [[response|msg] w1|msg w1]; [| |done].
  - simpl. destruct (negb _); [by eexists|].
    destruct (_ && _); [by eexists|].
    destruct (_ && _); by eexists.
  - by eexists.
Qed.

(** C6, amended. Whenever the transport settles, [checkUrl] returns a
    result: after a response, [success] holds exactly when the status code
    is in the expected set (200 alone by default), the body contains the
    expected substring if one is configured, and the response time does
    not exceed the threshold if a non-zero one is configured; every
    failure carries an error description; a rejected transport gives a
    failure whose description is the rejection's message. *)
Theorem checkUrl_classifies
    (urlConfig : UrlConfig) (globalSettings : SettingsConfig) (w : World) :
  let startTime := clock (w_ticks w) in
  let timestamp := clock (S (w_ticks w)) in
  match makeRequest clock net parseUrl resolveUrl (uc_url urlConfig)
          (request_options urlConfig globalSettings) 0
          (set_ticks (S (S (w_ticks w))) w) with
  | Crash msg w1 =>
      checkUrl clock net parseUrl resolveUrl urlConfig globalSettings w = Crash msg w1
  | Ok settled w1 =>
      exists result,
        checkUrl clock net parseUrl resolveUrl urlConfig globalSettings w
        = Ok result (set_log (w_log w1 ++ [EvProbe result])
                       (set_ticks (S (w_ticks w1)) w1))
        /\ cr_name result = uc_name urlConfig
        /\ cr_timestamp result = timestamp
        /\ cr_responseTime result = Some (clock (w_ticks w1) - startTime)
        /\ (cr_success result = false -> cr_error result <> None)
        /\ match settled with
           | Resolved response =>
               cr_statusCode result = Some (hr_statusCode response)
               /\ cr_sslInfo result = hr_sslInfo response
               /\ (cr_success result = true <->
                     In (hr_statusCode response)
                       (default [200] (uc_expected_status urlConfig))
                     /\ (forall content,
                           uc_expected_content urlConfig = Some content ->
                           contains (hr_body response) content)
                     /\ (forall threshold,
                           uc_response_time_threshold urlConfig = Some threshold ->
                           threshold <> 0 ->
                           clock (w_ticks w1) - startTime <= threshold))
           | Rejected msg =>
               cr_success result = false /\ cr_error result = Some msg
           end
  end.
Proof.
  intros startTime timestamp. unfold checkUrl. unfold_m. simpl.
  change (mkWorld (S (S (w_ticks w))) (w_reqs w) (w_log w) (w_state w)
            (w_store w) (w_status w))
    with (set_ticks (S (S (w_ticks w))) w).
  destruct (makeRequest _ _ _ _ _ _ _ _) as [[response|msg] w1|msg w1]; [| |done].
  - simpl. fold startTime timestamp.
    destruct (array_includes _ _) eqn:Hstatus; simpl.
    2:{ eexists. split; [reflexivity|]. simpl. repeat split; try done.
        - intros (Hin & _). apply array_includes_In in Hin. congruence. }
    apply array_includes_In in Hstatus.
    destruct (JS.truthy_str (uc_expected_content urlConfig)
              && negb (JS.includes (hr_body response)
                         (default EmptyString (uc_expected_content urlConfig))))
      eqn:Hcontent; simpl.
    { eexists. split; [reflexivity|]. simpl. repeat split; try done.
      intros (_ & Hc & _).
      apply andb_true_iff in Hcontent as [Ht Hn].
      destruct (uc_expected_content urlConfig) as [content|]; [|done].
      specialize (Hc content eq_refl). apply includes_spec in Hc.
      simpl in Hn. by rewrite Hc in Hn. }
    assert (Hc : forall content,
               uc_expected_content urlConfig = Some content ->
               contains (hr_body response) content).
    { intros content E. rewrite E in Hcontent. simpl in Hcontent.
      destruct content as [|c content].
      - by exists EmptyString, (hr_body response).
      - simpl in Hcontent. apply negb_false_iff in Hcontent.
        by apply includes_spec. }
    destruct (JS.truthy_num (uc_response_time_threshold urlConfig)
              && (clock (w_ticks w1) - startTime
                  >? default 0 (uc_response_time_threshold urlConfig)))
      eqn:Hslow; simpl.
    { eexists. split; [reflexivity|]. simpl. repeat split; try done.
      intros (_ & _ & Ht).
      apply andb_true_iff in Hslow as [Hset Hgt].
      destruct (uc_response_time_threshold urlConfig) as [threshold|]; [|done].
      simpl in *. apply negb_true_iff, Z.eqb_neq in Hset.
      specialize (Ht threshold eq_refl Hset). lia. }
    eexists. split; [reflexivity|]. simpl. repeat split; try done.
    intros threshold E Hnz. rewrite E in Hslow. simpl in Hslow.
    apply Z.eqb_neq in Hnz. rewrite Hnz in Hslow. simpl in Hslow. lia.
  - simpl. eexists. split; [reflexivity|]. simpl. by repeat split.
Qed.

End Probe.

(** ** The retry policy *)

Lemma retry_log_quiet delay attempts : Forall quiet (retry_log delay attempts).
Proof.
  induction attempts as [|r [|r' rest] IH]; simpl; repeat constructor.
  exact IH.
Qed.

Lemma retry_log_cons delay r attempts :
  attempts <> nil ->
  retry_log delay (r :: attempts) = EvProbe r :: EvSleep delay :: retry_log delay attempts.
Proof. by destruct attempts. Qed.

Section Retry.

Variable clock : nat -> Z.
Variable net : nat -> string -> RequestOptions -> NetReply.
Variable parseUrl : string -> option bool.
Variable resolveUrl : string -> string -> option string.

Lemma checkUrl_run urlConfig globalSettings (w : World) r :
  checkUrl clock net parseUrl resolveUrl urlConfig globalSettings w = r ->
  match r with
  | Ok result w' =>
      same_modules w w' /\ w_log w' = w_log w ++ [EvProbe result]
      /\ (w_ticks w < w_ticks w')%nat
  | Crash _ w' => advances w w'
  end.
Proof.
  intros <-.
  pose proof (checkUrl_frame clock net parseUrl resolveUrl urlConfig globalSettings w) as H.
  pose proof (makeRequest_advances clock net parseUrl resolveUrl (uc_url urlConfig)
                (request_options urlConfig globalSettings) 0
                (set_ticks (S (S (w_ticks w))) w)) as Ha.
  simpl in H.
  destruct (makeRequest _ _ _ _ _ _ _ _) as [settled w1|msg w1]; simpl in Ha.
  - destruct H as (result & ->). 
    destruct Ha as ((? & ? & ?) & Hl & Ht & _). simpl in *.
    unfold same_modules. simpl. rewrite Hl. repeat split; try done. lia.
  - rewrite H. eapply advances_trans; [|exact Ha].
    apply advances_set_ticks. lia.
Qed.

(** When redirections always resolve, the transport settles. *)
Lemma makeRequest_settles urlString options redirectCount (w : World) :
  (forall location base, resolveUrl location base <> None) ->
  exists settled w',
    makeRequest clock net parseUrl resolveUrl urlString options redirectCount w
    = Ok settled w'.
Proof.
  intros Hres.
  funelim (makeRequest clock net parseUrl resolveUrl urlString options redirectCount w);
    repeat match goal with
      | H : request _ _ _ _ = Crash _ _ |- _ =>
          apply request_advances in H as (? & ? & [=] & ?)
      | H : peerSslInfo _ _ _ _ _ = Crash _ _ |- _ =>
          apply peerSslInfo_advances in H as (? & ? & [=] & ?)
      | H : resolveUrl _ _ = None |- _ => by apply Hres in H
      end;
    eauto.
Qed.

Lemma checkUrl_returns urlConfig globalSettings (w : World) :
  (forall location base, resolveUrl location base <> None) ->
  exists result w',
    checkUrl clock net parseUrl resolveUrl urlConfig globalSettings w = Ok result w'.
Proof.
  intros Hres.
  pose proof (checkUrl_frame clock net parseUrl resolveUrl urlConfig globalSettings w) as H.
  simpl in H.
  destruct (makeRequest_settles (uc_url urlConfig)
              (request_options urlConfig globalSettings) 0
              (set_ticks (S (S (w_ticks w))) w) Hres) as (settled & w1 & E).
  rewrite E in H. destruct H as (result & ->). eauto.
Qed.


Lemma sleep_if_run (b : bool) delay (w : World) r :
  (if b then sleep delay else ret tt) w = r ->
  r = Ok tt (set_log (w_log w ++ (if b then [EvSleep delay] else [])) w).
Proof.
  intros <-. destruct b; unfold_m; [done|].
  destruct w; unfold set_log; simpl. by rewrite app_nil_r.
Qed.

(** The loop never touches the monitor's modules and logs only probes and
    sleeps, whether it returns or dies. *)
Lemma retry_loop_frame urlConfig globalSettings retryCount retryDelay attempts
    result (w : World) :
  let w' := world_of (retry_loop clock net parseUrl resolveUrl urlConfig
                        globalSettings retryCount retryDelay attempts result w) in
  same_modules w w' /\ (w_ticks w <= w_ticks w')%nat
  /\ exists evs, w_log w' = w_log w ++ evs /\ Forall quiet evs.
Proof.
  funelim (retry_loop clock net parseUrl resolveUrl urlConfig globalSettings
             retryCount retryDelay attempts result w); simpl in *;
    repeat match goal with
      | H : checkUrl _ _ _ _ _ _ _ = _ |- _ => apply checkUrl_run in H
      | H : (if _ then sleep _ else ret tt) _ = _ |- _ =>
          apply sleep_if_run in H; inversion H; subst; clear H
      end; unfold advances, same_modules in *; simpl in *.
  all: repeat match goal with
         | H : _ /\ _ |- _ => destruct H
         | H : exists _, _ |- _ => destruct H
         end.
  - repeat split; try done. exists nil.
    split; [by rewrite app_nil_r | apply Forall_nil_2].
  - repeat split; try done; try lia. exists nil.
    split; [rewrite app_nil_r; congruence | apply Forall_nil_2].
  - repeat split; try done; try lia.
    exists [EvProbe r]. split; [done|]. by repeat constructor.
  - repeat split; try congruence; try lia.
    match goal with
    | Hl : w_log (world_of _) = _ ++ ?evs, Hp : w_log w1 = _ |- _ =>
        exists ([EvProbe r]
                ++ (if attempts + 1 <? retryCount then [EvSleep retryDelay] else [])
                ++ evs);
        split; [rewrite Hl, Hp; by rewrite <- !app_assoc|]
    end.
    apply Forall_app. split; [by repeat constructor|].
    apply Forall_app. split; [|done]. destruct (_ <? _); by repeat constructor.
Qed.

(** What a returning loop did: the attempts it made, in order. *)
Lemma retry_loop_run urlConfig globalSettings retryCount retryDelay attempts
    result (w : World) :
  forall res w',
    retry_loop clock net parseUrl resolveUrl urlConfig globalSettings
      retryCount retryDelay attempts result w = Ok res w' ->
    exists made : list CheckResult,
      w_log w' = w_log w ++ retry_log retryDelay made
      /\ res = match last made with Some r => Some r | None => result end
      /\ (forall i r, made !! i = Some r -> (S i < length made)%nat ->
            cr_success r = false)
      /\ attempts + Z.of_nat (length made) <= Z.max attempts retryCount
      /\ ((exists r, last made = Some r /\ cr_success r = true)
          \/ attempts + Z.of_nat (length made) = Z.max attempts retryCount).
Proof.
  funelim (retry_loop clock net parseUrl resolveUrl urlConfig globalSettings
             retryCount retryDelay attempts result w);
    intros res w' Hrun; try discriminate Hrun.
  - inversion Hrun; subst; clear Hrun. exists nil. simpl.
    rewrite app_nil_r. repeat split; try done; try lia.
  - inversion Hrun; subst; clear Hrun. apply checkUrl_run in Heq0 as (_ & Hl & _).
    exists [r]. simpl. split; [done|]. split; [done|]. split.
    { intros [|i] r' Hi Hlt; simpl in *; lia. }
    split; [lia|]. left. by exists r.
  - apply checkUrl_run in Heq1 as (_ & Hl & _).
    apply sleep_if_run in Heq. inversion Heq; subst; clear Heq.
    destruct (H _ _ Hrun) as (made & Hl' & Hres & Hfail & Hle & Hstop).
    exists (r :: made). simpl in Hl'.
    assert (Hlog : w_log w' = w_log w ++ retry_log retryDelay (r :: made)).
    { rewrite Hl', Hl, <- !app_assoc. f_equal.
      destruct made as [|r' made].
      - assert (E : (attempts + 1 <? retryCount) = false).
        { apply Z.ltb_ge. destruct Hstop as [(r' & Hlast & _) | Hfull];
            [discriminate Hlast | simpl in Hfull; lia]. }
        by rewrite E.
      - rewrite (retry_log_cons retryDelay r (r' :: made)) by discriminate.
        assert (E : (attempts + 1 <? retryCount) = true).
        { apply Z.ltb_lt. simpl length in Hle. lia. }
        by rewrite E. }
    split; [done|]. split.
    { rewrite Hres. destruct made as [|r' made]; [done|].
      rewrite last_cons_cons.
      destruct (last (r' :: made)) eqn:E; [done|]. by apply last_None in E. }
    split.
    { intros [|i] r' Hi Hlt; simpl in *.
      - congruence.
      - apply (Hfail i r' Hi). lia. }
    simpl length. split; [lia|].
    destruct Hstop as [(r' & Hlast & Hs) | Hfull].
    + left. exists r'. split; [|done].
      destruct made as [|r'' made]; [done|]. by rewrite last_cons_cons.
    + right. lia.
Qed.
Lemma retry_loop_returns urlConfig globalSettings retryCount retryDelay attempts
    result (w : World) :
  (forall location base, resolveUrl location base <> None) ->
  exists res w',
    retry_loop clock net parseUrl resolveUrl urlConfig globalSettings
      retryCount retryDelay attempts result w = Ok res w'.
Proof.
  intros Hres.
  funelim (retry_loop clock net parseUrl resolveUrl urlConfig globalSettings
             retryCount retryDelay attempts result w); eauto.
  - destruct (checkUrl_returns urlConfig globalSettings w Hres) as (? & ? & E).
    congruence.
  - apply sleep_if_run in Heq. discriminate Heq.
Qed.


End Retry.

(** With [retry_count: 3], a probe that fails twice and then succeeds: the
    check returns the success, after exactly three probes and two sleeps of
    ten seconds. *)
Example retry_third_attempt_succeeds :
  exists r1 r2 r3 w',
    checkWithRetry Sample.clock Sample.net_fail_twice Sample.parseUrl
      Sample.resolveUrl_any (Sample.target "A") (Sample.config_retry (Some 3))
      fresh_world = Ok (Some r3) w'
    /\ w_log w' = [EvProbe r1; EvSleep 10000; EvProbe r2; EvSleep 10000; EvProbe r3]
    /\ cr_success r1 = false /\ cr_success r2 = false /\ cr_success r3 = true.
Proof. vm_compute. do 4 eexists. repeat split. Qed.


(** With a negative [retry_count] the loop body never runs and the check
    returns the unassigned variable; the cycle then dies in [recordCheck]. *)
Example retry_count_negative_returns_nothing (w : World) :
  checkWithRetry Sample.clock Sample.net_up Sample.parseUrl Sample.resolveUrl_any
    (Sample.target "A") (Sample.config_retry (Some (-1))) w = Ok None w
  /\ exists msg w',
       runCheck Sample.clock Sample.net_up Sample.parseUrl Sample.resolveUrl_any
         (Some (Sample.config_retry (Some (-1)))) (Sample.target "A") fresh_world
       = Crash msg w'.
Proof.
  split.
  - unfold checkWithRetry. simpl. by simp retry_loop.
  - vm_compute. by do 2 eexists.
Qed.


(** C6, as stated, fails: with [response_time_threshold: 0] a response that
    took two seconds is a success, although its response time exceeds the
    configured threshold. *)
Lemma zero_threshold_is_no_threshold :
  exists result w' responseTime threshold,
    checkUrl Sample.clock Sample.net_up Sample.parseUrl Sample.resolveUrl_any
      Sample.target_threshold_0 no_settings fresh_world = Ok result w'
    /\ uc_response_time_threshold Sample.target_threshold_0 = Some threshold
    /\ cr_responseTime result = Some responseTime
    /\ responseTime > threshold
    /\ cr_success result = true.
Proof. vm_compute. do 4 eexists. repeat split. Qed.

(** A redirection whose [Location] does not parse kills the process: the
    exception is thrown inside the [end] listener. *)
Example unparsable_redirect_is_uncaught :
  exists msg w',
    checkUrl Sample.clock
      (fun _ _ _ => NetResponse 302 (Some "http://") EmptyString None)
      Sample.parseUrl Sample.resolveUrl (Sample.target "A") no_settings fresh_world
    = Crash msg w'.
Proof. vm_compute. by do 2 eexists. Qed.

(** A target that redirects for ever is a failed probe. *)
Example endless_redirects_fail :
  exists result w',
    checkUrl Sample.clock
      (fun _ _ _ => NetResponse 301 (Some "http://A/") EmptyString None)
      Sample.parseUrl Sample.resolveUrl (Sample.target "A") no_settings fresh_world
    = Ok result w'
    /\ cr_success result = false
    /\ cr_error result = Some "Too many redirects (max: 5)"
    /\ w_reqs w' = 6%nat.
Proof. vm_compute. do 2 eexists. repeat split. Qed.

(** ** The check cycle *)

Lemma quiet_no_alert e : quiet e -> no_alert e.
Proof. by destruct e. Qed.

Lemma down_alert_times_app target log evs :
  down_alert_times target (log ++ evs)
  = down_alert_times target log ++ down_alert_times target evs.
Proof. apply omap_app. Qed.

Lemma ssl_alert_times_app target log evs :
  ssl_alert_times target (log ++ evs)
  = ssl_alert_times target log ++ ssl_alert_times target evs.
Proof. apply omap_app. Qed.

Lemma no_alert_times target evs :
  Forall no_alert evs ->
  down_alert_times target evs = nil /\ ssl_alert_times target evs = nil.
Proof.
  induction 1 as [|e evs He _ [IH1 IH2]]; [done|].
  unfold down_alert_times, ssl_alert_times in *.
  destruct e; try done; simpl; by rewrite ?IH1, ?IH2.
Qed.

Lemma spaced_nil gap : spaced gap nil.
Proof. intros i j ti tj _ H. by rewrite lookup_nil in H. Qed.

Lemma spaced_snoc gap times t :
  spaced gap times ->
  (forall t0, t0 ∈ times -> t - t0 > gap) ->
  spaced gap (times ++ [t]).
Proof.
  intros Hs Hnew i j ti tj Hij Hi Hj.
  destruct (decide (j < length times)%nat) as [Hlt|Hge].
  - rewrite lookup_app_l in Hi, Hj by lia. by apply (Hs i j).
  - rewrite lookup_app_l in Hi.
    2:{ apply lookup_lt_Some in Hj. rewrite length_app in Hj. simpl in Hj. lia. }
    rewrite lookup_app_r in Hj by lia.
    destruct (j - length times)%nat eqn:E; simpl in Hj; [|by rewrite lookup_nil in Hj].
    injection Hj as <-. apply Hnew. by apply list_elem_of_lookup_2 in Hi.
Qed.


Lemma num_or_zero (t : Z) : JS.num_or (Some t) 0 = t.
Proof. unfold JS.num_or. destruct (t =? 0) eqn:E; lia. Qed.

Section Cycle.

Variable clock : nat -> Z.
Variable net : nat -> string -> RequestOptions -> NetReply.
Variable parseUrl : string -> option bool.
Variable resolveUrl : string -> string -> option string.





Lemma recordCheck_some name result (w : World) :
  exists w',
    recordCheck clock name (Some result) w = Ok tt w'
    /\ w_state w' = w_state w /\ w_status w' = w_status w
    /\ w_log w' = w_log w /\ w_ticks w' = S (w_ticks w)
    /\ checks (w_store w') !! name
       = pruned_log (clock (w_ticks w)
                     - retentionDays (w_store w) * 24 * 60 * 60 * 1000)
           (Some (default [] (checks (w_store w) !! name) ++ [stored result])).
Proof.
  unfold recordCheck, save, prune. unfold_m.
  destruct (checks (w_store w) !! name) as [l|] eqn:E; simpl.
  - rewrite E. simpl. eexists. split; [reflexivity|]. simpl.
    repeat split. rewrite prune_keys_lookup. by rewrite lookup_insert_eq.
  - rewrite lookup_insert_eq. simpl. eexists. split; [reflexivity|]. simpl.
    repeat split. rewrite prune_keys_lookup. by rewrite lookup_insert_eq.
Qed.

Lemma recordCheck_none name (w : World) :
  exists msg w',
    recordCheck clock name None w = Crash msg w'
    /\ w_state w' = w_state w /\ w_status w' = w_status w
    /\ w_log w' = w_log w /\ w_ticks w' = w_ticks w.
Proof.
  unfold recordCheck. unfold_m.
  destruct (checks (w_store w) !! name); simpl; by do 2 eexists.
Qed.

Lemma updateStatusPage_run getConfig (w : World) :
  exists w',
    updateStatusPage clock getConfig w = Ok tt w'
    /\ w_state w' = w_state w /\ w_store w' = w_store w
    /\ w_log w' = w_log w /\ w_ticks w' = S (w_ticks w)
    /\ sd_incidents (w_status w') = sd_incidents (w_status w).
Proof.
  unfold updateStatusPage, updateStatus. unfold_m. by eexists.
Qed.

Lemma set_urlState_run urlConfig result (w : World) :
  set_urlState urlConfig result w
  = Ok tt (set_state
             (mkState (<[uc_name urlConfig := state_of urlConfig result]>
                         (urlStates (w_state w)))
                (timers (w_state w)) (lastAlert (w_state w))) w).
Proof. reflexivity. Qed.


Lemma status_alert_run config urlConfig prevState result (w : World) :
  let name := uc_name urlConfig in
  let emails := config_emails config in
  let last := JS.num_or (lastAlert (w_state w) !! name) 0 in
  let now := clock (w_ticks w) in
  exists w',
    status_alert clock config urlConfig prevState result w = Ok tt w'
    /\ w_store w' = w_store w
    /\ urlStates (w_state w') = urlStates (w_state w)
    /\ timers (w_state w') = timers (w_state w)
    /\ ((cr_success result = false /\ was_down prevState = false
         /\ now - last > cooldown_ms config
         /\ w_log w' = w_log w ++ [EvNotifyDown now name result emails]
         /\ lastAlert (w_state w')
            = <[name := clock (S (S (w_ticks w)))]> (lastAlert (w_state w))
         /\ w_ticks w' = S (S (S (w_ticks w)))
         /\ sd_incidents (w_status w')
            = List.filter
                (fun i => inc_timestamp i
                          >? clock (S (w_ticks w)) - 90 * 24 * 60 * 60 * 1000)
                (mkIncident name (cr_error result) (cr_timestamp result) false None
                 :: sd_incidents (w_status w)))
        \/ (cr_success result = false /\ was_down prevState = false
            /\ now - last <= cooldown_ms config
            /\ w_log w' = w_log w
            /\ lastAlert (w_state w') = lastAlert (w_state w)
            /\ w_ticks w' = S (w_ticks w)
            /\ w_status w' = w_status w)
        \/ (cr_success result = true /\ was_down prevState = true
            /\ alert_on_recovery (default no_alerts (alerts config)) <> Some false
            /\ w_log w' = w_log w ++ [EvNotifyUp name result emails]
            /\ lastAlert (w_state w') = lastAlert (w_state w)
            /\ (w_ticks w <= w_ticks w' <= S (w_ticks w))%nat
            /\ sd_incidents (w_status w')
               = assign_first (is_open_for name) (resolved_at (clock (w_ticks w)))
                   (sd_incidents (w_status w)))
        \/ (w' = w
            /\ (cr_success result = false -> was_down prevState = true)
            /\ (cr_success result = true -> was_down prevState = true ->
                alert_on_recovery (default no_alerts (alerts config)) = Some false))).
Proof.
  intros name emails last now. unfold status_alert. fold name emails.
  destruct (cr_success result) eqn:Hs, (was_down prevState) eqn:Hd; simpl.
  - case_bool_decide as Hrec; simpl.
    + exists w. repeat split. by do 3 right.
    + destruct (resolveIncident_ledger clock (set_log (w_log w ++ [EvNotifyUp name result emails]) w) name)
        as (w' & Hrun & _ & Hlog & Hst & Hstore & Hticks & _ & Hinc).
      exists w'. unfold bind, emit. rewrite Hrun.
      split; [done|]. split; [done|]. rewrite Hst. split; [done|]. split; [done|].
      right. right. left. repeat split; try done.
      unfold resolveIncident in Hrun. unfold_m.
      destruct (List.find _ _); injection Hrun as <-; simpl; lia.
  - exists w. repeat split. do 3 right. by repeat split.
  - exists w. repeat split. do 3 right. by repeat split.
  - unfold_m. fold last now.
    destruct (now - last >? cooldown_ms config) eqn:Hg.
    + unfold cooldown_ms in Hg. rewrite Hg. unfold addIncident, set_lastAlert. unfold_m. simpl.
      eexists. split; [reflexivity|]. simpl. repeat split.
      left. repeat split. unfold cooldown_ms. lia.
    + unfold cooldown_ms in Hg. rewrite Hg.
      eexists. split; [reflexivity|]. simpl. repeat split.
      right. left. repeat split. unfold cooldown_ms. lia.
Qed.

Lemma ssl_alert_run config urlConfig result (w : World) :
  let name := uc_name urlConfig in
  let emails := config_emails config in
  let key := "ssl-" +:+ name in
  let last := JS.num_or (lastAlert (w_state w) !! key) 0 in
  let now := clock (w_ticks w) in
  exists w',
    ssl_alert clock config urlConfig result w = Ok tt w'
    /\ w_store w' = w_store w /\ w_status w' = w_status w
    /\ urlStates (w_state w') = urlStates (w_state w)
    /\ timers (w_state w') = timers (w_state w)
    /\ ((exists sslInfo,
           cr_sslInfo result = Some sslInfo
           /\ ssl_daysRemaining sslInfo <= 14
           /\ now - last > 24 * 60 * 60 * 1000
           /\ w_log w' = w_log w ++ [EvNotifySsl now name sslInfo emails]
           /\ lastAlert (w_state w')
              = <[key := clock (S (w_ticks w))]> (lastAlert (w_state w))
           /\ w_ticks w' = S (S (w_ticks w)))
        \/ (w_log w' = w_log w
            /\ lastAlert (w_state w') = lastAlert (w_state w)
            /\ (w_ticks w <= w_ticks w' <= S (w_ticks w))%nat
            /\ forall sslInfo,
                 cr_sslInfo result = Some sslInfo ->
                 ssl_daysRemaining sslInfo <= 14 ->
                 now - last <= 24 * 60 * 60 * 1000)).
Proof.
  intros name emails key last now. unfold ssl_alert. fold name emails key.
  destruct (cr_sslInfo result) as [sslInfo|] eqn:Hssl.
  2:{ exists w. repeat split. right. repeat split; [lia | lia | done]. }
  unfold SSL_WARNING_DAYS.
  destruct (ssl_daysRemaining sslInfo <=? 14) eqn:Hdays.
  2:{ exists w. repeat split. right. repeat split; [lia | lia |].
      intros ? [= <-] ?. lia. }
  unfold_m. fold last now.
  destruct (now - last >? 24 * 60 * 60 * 1000) eqn:Hg.
  - unfold set_lastAlert. unfold_m. simpl.
    eexists. split; [reflexivity|]. simpl. repeat split.
    left. exists sslInfo. repeat split; lia.
  - eexists. split; [reflexivity|]. simpl. repeat split.
    right. repeat split; try lia. 
Qed.

Lemma runCheck_steps config urlConfig (w : World) :
  let name := uc_name urlConfig in
  match checkWithRetry clock net parseUrl resolveUrl urlConfig config w with
  | Crash msg w1 =>
      runCheck clock net parseUrl resolveUrl (Some config) urlConfig w = Crash msg w1
  | Ok None w1 =>
      exists msg w2,
        runCheck clock net parseUrl resolveUrl (Some config) urlConfig w = Crash msg w2
        /\ w_state w2 = w_state w1 /\ w_status w2 = w_status w1
        /\ w_log w2 = w_log w1 /\ w_ticks w2 = w_ticks w1
  | Ok (Some result) w1 =>
      exists w2 w3 w4 w5,
        recordCheck clock name (Some result) w1 = Ok tt w2
        /\ status_alert clock config urlConfig (urlStates (w_state w) !! name) result
             (set_state
                (mkState (<[name := state_of urlConfig result]> (urlStates (w_state w2)))
                   (timers (w_state w2)) (lastAlert (w_state w2))) w2)
           = Ok tt w3
        /\ ssl_alert clock config urlConfig result w3 = Ok tt w4
        /\ updateStatusPage clock (Some config) w4 = Ok tt w5
        /\ runCheck clock net parseUrl resolveUrl (Some config) urlConfig w = Ok tt w5
  end.
Proof.
  intros name.
  assert (Hstart : forall r,
             checkWithRetry clock net parseUrl resolveUrl urlConfig config w = r ->
             runCheck clock net parseUrl resolveUrl (Some config) urlConfig w
             = match r with
               | Ok result w1 =>
                   (recordCheck clock name result ;;
                    match result with
                    | Some result0 =>
                        set_urlState urlConfig result0 ;;
                        status_alert clock config urlConfig
                          (urlStates (w_state w) !! name) result0 ;;
                        ssl_alert clock config urlConfig result0 ;;
                        updateStatusPage clock (Some config)
                    | None =>
                        throw "TypeError: Cannot read properties of undefined (reading 'success')"
                    end) w1
               | Crash msg w1 => Crash msg w1
               end).
  { intros r <-. reflexivity. }
  destruct (checkWithRetry _ _ _ _ _ _ _) as [[result|] w1|msg w1] eqn:E;
    rewrite (Hstart _ eq_refl); [| |reflexivity].
  - destruct (recordCheck_some name result w1) as (w2 & H2 & _).
    destruct (status_alert_run config urlConfig (urlStates (w_state w) !! name) result
                (set_state
                   (mkState (<[name := state_of urlConfig result]> (urlStates (w_state w2)))
                      (timers (w_state w2)) (lastAlert (w_state w2))) w2))
      as (w3 & H3 & _).
    destruct (ssl_alert_run config urlConfig result w3) as (w4 & H4 & _).
    destruct (updateStatusPage_run (Some config) w4) as (w5 & H5 & _).
    exists w2, w3, w4, w5. repeat split; try done.
    unfold bind at 1. rewrite H2. unfold bind at 1. rewrite set_urlState_run.
    unfold bind at 1. fold name. rewrite H3. unfold bind at 1. by rewrite H4.
  - destruct (recordCheck_none name w1) as (msg & w2 & H2 & ?).
    exists msg, w2. split; [|done]. unfold bind at 1. by rewrite H2.
Qed.

Lemma inv_frame gap (w w' : World) :
  alert_inv clock gap w ->
  lastAlert (w_state w') = lastAlert (w_state w) ->
  (exists evs, w_log w' = w_log w ++ evs /\ Forall no_alert evs) ->
  (w_ticks w <= w_ticks w')%nat ->
  alert_inv clock gap w'.
Proof.
  intros (Hpast & Hdown & Hssl & Hsd & Hss) Hla (evs & Hlog & Hq) Ht.
  assert (Hd : forall target, down_alert_times target (w_log w')
                              = down_alert_times target (w_log w)).
  { intros target. rewrite Hlog, down_alert_times_app.
    destruct (no_alert_times target evs Hq) as [-> _]. apply app_nil_r. }
  assert (Hs : forall target, ssl_alert_times target (w_log w')
                              = ssl_alert_times target (w_log w)).
  { intros target. rewrite Hlog, ssl_alert_times_app.
    destruct (no_alert_times target evs Hq) as [_ ->]. apply app_nil_r. }
  unfold alert_inv. rewrite Hla. repeat split.
  - intros key t Hk. destruct (Hpast key t Hk) as (k & ? & ?). exists k. split; [lia|done].
  - intros target t. rewrite Hd. apply Hdown.
  - intros target t. rewrite Hs. apply Hssl.
  - intros target. rewrite Hd. apply Hsd.
  - intros target. rewrite Hs. apply Hss.
Qed.

(** A stamp is not newer than the reading that comes next. *)
Lemma stamp_le_now gap (w : World) key t k :
  monotone clock -> alert_inv clock gap w ->
  lastAlert (w_state w) !! key = Some t -> (w_ticks w <= k)%nat -> t <= clock k.
Proof.
  intros Hmono (Hpast & _) Hk Hle.
  destruct (Hpast key t Hk) as (k0 & Hk0 & ->). apply Hmono. lia.
Qed.

Lemma inv_down_fire gap (w w' : World) name r emails :
  monotone clock -> alert_inv clock gap w ->
  clock (w_ticks w) - JS.num_or (lastAlert (w_state w) !! name) 0 > gap ->
  w_log w' = w_log w ++ [EvNotifyDown (clock (w_ticks w)) name r emails] ->
  lastAlert (w_state w')
  = <[name := clock (S (S (w_ticks w)))]> (lastAlert (w_state w)) ->
  w_ticks w' = S (S (S (w_ticks w))) ->
  alert_inv clock gap w'.
Proof.
  intros Hmono Hinv Hguard Hlog Hla Ht.
  pose proof (stamp_le_now gap w) as Hle.
  destruct Hinv as (Hpast & Hdown & Hssl & Hsd & Hss).
  assert (Hd : forall target,
             down_alert_times target (w_log w')
             = down_alert_times target (w_log w)
               ++ (if String.eqb name target then [clock (w_ticks w)] else nil)).
  { intros target. rewrite Hlog, down_alert_times_app. f_equal.
    unfold down_alert_times. simpl. by destruct (String.eqb name target). }
  assert (Hs : forall target, ssl_alert_times target (w_log w')
                              = ssl_alert_times target (w_log w)).
  { intros target. rewrite Hlog, ssl_alert_times_app. apply app_nil_r. }
  assert (Hnew : forall key t, lastAlert (w_state w) !! key = Some t ->
                   exists t', lastAlert (w_state w') !! key = Some t' /\ t <= t').
  { intros key t Hk. rewrite Hla. destruct (decide (name = key)) as [->|Hne].
    - rewrite lookup_insert_eq. eexists. split; [done|].
      apply (Hle key t _ Hmono); [by repeat split | done | lia].
    - rewrite lookup_insert_ne by done. exists t. split; [done|lia]. }
  unfold alert_inv. repeat split.
  - intros key t. rewrite Hla, Ht. destruct (decide (name = key)) as [->|Hne].
    + rewrite lookup_insert_eq. intros [= <-]. exists (S (S (w_ticks w))). split; [lia|done].
    + rewrite lookup_insert_ne by done. intros Hk.
      destruct (Hpast key t Hk) as (k & ? & ?). exists k. split; [lia|done].
  - intros target t. rewrite Hd. intros [Hin|Hin]%elem_of_app.
    + destruct (Hdown target t Hin) as (t0 & Hk & ?).
      destruct (Hnew target t0 Hk) as (t' & ? & ?). exists t'. split; [done|lia].
    + destruct (String.eqb name target) eqn:E; [|by apply not_elem_of_nil in Hin].
      apply String.eqb_eq in E. subst target.
      apply list_elem_of_singleton in Hin. subst t.
      rewrite Hla, lookup_insert_eq. eexists. split; [done|]. apply Hmono. lia.
  - intros target t. rewrite Hs. intros Hin.
    destruct (Hssl target t Hin) as (t0 & Hk & ?).
    destruct (Hnew _ t0 Hk) as (t' & ? & ?). exists t'. split; [done|lia].
  - intros target. rewrite Hd.
    destruct (String.eqb name target) eqn:E; [|rewrite app_nil_r; apply Hsd].
    apply String.eqb_eq in E. subst target.
    apply spaced_snoc; [apply Hsd|]. intros t0 Hin.
    destruct (Hdown name t0 Hin) as (t' & Hk & ?).
    rewrite Hk, num_or_zero in Hguard. lia.
  - intros target. rewrite Hs. apply Hss.
Qed.

Lemma inv_ssl_fire gap (w w' : World) name sslInfo emails :
  monotone clock -> alert_inv clock gap w ->
  clock (w_ticks w) - JS.num_or (lastAlert (w_state w) !! ("ssl-" +:+ name)) 0
  > 24 * 60 * 60 * 1000 ->
  w_log w' = w_log w ++ [EvNotifySsl (clock (w_ticks w)) name sslInfo emails] ->
  lastAlert (w_state w')
  = <["ssl-" +:+ name := clock (S (w_ticks w))]> (lastAlert (w_state w)) ->
  w_ticks w' = S (S (w_ticks w)) ->
  alert_inv clock gap w'.
Proof.
  intros Hmono Hinv Hguard Hlog Hla Ht.
  pose proof (stamp_le_now gap w) as Hle.
  destruct Hinv as (Hpast & Hdown & Hssl & Hsd & Hss).
  assert (Hs : forall target,
             ssl_alert_times target (w_log w')
             = ssl_alert_times target (w_log w)
               ++ (if String.eqb name target then [clock (w_ticks w)] else nil)).
  { intros target. rewrite Hlog, ssl_alert_times_app. f_equal.
    unfold ssl_alert_times. simpl. by destruct (String.eqb name target). }
  assert (Hd : forall target, down_alert_times target (w_log w')
                              = down_alert_times target (w_log w)).
  { intros target. rewrite Hlog, down_alert_times_app. apply app_nil_r. }
  assert (Hnew : forall key t, lastAlert (w_state w) !! key = Some t ->
                   exists t', lastAlert (w_state w') !! key = Some t' /\ t <= t').
  { intros key t Hk. rewrite Hla. destruct (decide ("ssl-" +:+ name = key)) as [<-|Hne].
    - rewrite lookup_insert_eq. eexists. split; [done|].
      apply (Hle ("ssl-" +:+ name) t _ Hmono); [by repeat split | done | lia].
    - rewrite lookup_insert_ne by done. exists t. split; [done|lia]. }
  unfold alert_inv. repeat split.
  - intros key t. rewrite Hla, Ht. destruct (decide ("ssl-" +:+ name = key)) as [<-|Hne].
    + rewrite lookup_insert_eq. intros [= <-]. exists (S (w_ticks w)). split; [lia|done].
    + rewrite lookup_insert_ne by done. intros Hk.
      destruct (Hpast key t Hk) as (k & ? & ?). exists k. split; [lia|done].
  - intros target t. rewrite Hd. intros Hin.
    destruct (Hdown target t Hin) as (t0 & Hk & ?).
    destruct (Hnew _ t0 Hk) as (t' & ? & ?). exists t'. split; [done|lia].
  - intros target t. rewrite Hs. intros [Hin|Hin]%elem_of_app.
    + destruct (Hssl target t Hin) as (t0 & Hk & ?).
      destruct (Hnew _ t0 Hk) as (t' & ? & ?). exists t'. split; [done|lia].
    + destruct (String.eqb name target) eqn:E; [|by apply not_elem_of_nil in Hin].
      apply String.eqb_eq in E. subst target.
      apply list_elem_of_singleton in Hin. subst t.
      rewrite Hla, lookup_insert_eq. eexists. split; [done|]. apply Hmono. lia.
  - intros target. rewrite Hd. apply Hsd.
  - intros target. rewrite Hs.
    destruct (String.eqb name target) eqn:E; [|rewrite app_nil_r; apply Hss].
    apply String.eqb_eq in E. subst target.
    apply spaced_snoc; [apply Hss|]. intros t0 Hin.
    destruct (Hssl name t0 Hin) as (t' & Hk & ?).
    rewrite Hk, num_or_zero in Hguard. lia.
Qed.

Lemma checkWithRetry_frame urlConfig config (w : World) :
  let w' := world_of (checkWithRetry clock net parseUrl resolveUrl urlConfig config w) in
  same_modules w w' /\ (w_ticks w <= w_ticks w')%nat
  /\ exists evs, w_log w' = w_log w ++ evs /\ Forall quiet evs.
Proof. apply retry_loop_frame. Qed.

(** A cycle preserves what the suppression map knows. *)
Lemma runCheck_inv config urlConfig (w : World) :
  monotone clock ->
  alert_inv clock (cooldown_ms config) w ->
  alert_inv clock (cooldown_ms config)
    (world_of (runCheck clock net parseUrl resolveUrl (Some config) urlConfig w)).
Proof.
  intros Hmono Hinv.
  pose proof (runCheck_steps config urlConfig w) as Hsteps.
  pose proof (checkWithRetry_frame urlConfig config w) as Hframe.
  destruct (checkWithRetry _ _ _ _ _ _ _) as [[result|] w1|msg w1];
    simpl in Hframe; destruct Hframe as ((Hst1 & _) & Ht1 & evs & Hl1 & Hq1).
  - destruct Hsteps as (w2 & w3 & w4 & w5 & H2 & H3 & H4 & H5 & ->). simpl.
    assert (Hinv1 : alert_inv clock (cooldown_ms config) w1).
    { apply (inv_frame _ w); [done | by rewrite Hst1 | | done].
      exists evs. split; [done|]. eapply Forall_impl; [exact Hq1|]. apply quiet_no_alert. }
    destruct (recordCheck_some (uc_name urlConfig) result w1)
      as (w2' & H2' & Hst2 & _ & Hl2 & Ht2 & _).
    rewrite H2 in H2'. injection H2' as <-.
    set (w2s := set_state _ w2) in H3.
    assert (Hinv2 : alert_inv clock (cooldown_ms config) w2s).
    { apply (inv_frame _ w1); [done | by subst w2s; simpl; rewrite Hst2 | | subst w2s; simpl; lia].
      exists nil. split; [|done]. subst w2s. simpl. by rewrite Hl2, app_nil_r. }
    assert (Hinv3 : alert_inv clock (cooldown_ms config) w3).
    { destruct (status_alert_run config urlConfig
                  (urlStates (w_state w) !! uc_name urlConfig) result w2s)
        as (w3' & H3' & _ & _ & _ & Hcase).
      rewrite H3 in H3'. injection H3' as <-.
      destruct Hcase as [(_ & _ & Hg & Hl & Hla & Ht)
                        |[(_ & _ & _ & Hl & Hla & Ht & _)
                        |[(_ & _ & _ & Hl & Hla & Ht & _)
                        |(-> & _)]]].
      - destruct Ht as (Ht & _). by apply (inv_down_fire _ w2s w3 (uc_name urlConfig) result (config_emails config)).
      - apply (inv_frame _ w2s); [done | done | | lia].
        exists nil. split; [by rewrite Hl, app_nil_r | done].
      - apply (inv_frame _ w2s); [done | done | | lia].
        eexists. split; [exact Hl|]. by repeat constructor.
      - done. }
    assert (Hinv4 : alert_inv clock (cooldown_ms config) w4).
    { destruct (ssl_alert_run config urlConfig result w3)
        as (w4' & H4' & _ & _ & _ & _ & Hcase).
      rewrite H4 in H4'. injection H4' as <-.
      destruct Hcase as [(sslInfo & _ & _ & Hg & Hl & Hla & Ht)
                        |(Hl & Hla & Ht & _)].
      - by apply (inv_ssl_fire _ w3 w4 (uc_name urlConfig) sslInfo (config_emails config)).
      - apply (inv_frame _ w3); [done | done | | lia].
        exists nil. split; [by rewrite Hl, app_nil_r | done]. }
    destruct (updateStatusPage_run (Some config) w4) as (w5' & H5' & Hst5 & _ & Hl5 & Ht5 & _).
    rewrite H5 in H5'. injection H5' as <-.
    apply (inv_frame _ w4); [done | by rewrite Hst5 | | lia].
    exists nil. split; [by rewrite Hl5, app_nil_r | done].
  - destruct Hsteps as (msg & w2 & -> & Hst2 & _ & Hl2 & Ht2). simpl.
    apply (inv_frame _ w); [done | by rewrite Hst2, Hst1 | | lia].
    exists evs. split; [by rewrite Hl2|]. eapply Forall_impl; [exact Hq1|]. apply quiet_no_alert.
  - rewrite Hsteps. simpl.
    apply (inv_frame _ w); [done | by rewrite Hst1 | | done].
    exists evs. split; [done|]. eapply Forall_impl; [exact Hq1|]. apply quiet_no_alert.
Qed.

Lemma for_each_cons {A} (x : A) (rest : list A) (body : A -> M unit) (w : World) :
  for_each (x :: rest) body w
  = match body x w with
    | Ok _ w' => for_each rest body w'
    | Crash msg w' => Crash msg w'
    end.
Proof. reflexivity. Qed.

Lemma fresh_world_inv gap : alert_inv clock gap fresh_world.
Proof.
  unfold alert_inv, fresh_world. simpl. repeat split.
  - intros key t H. by rewrite lookup_empty in H.
  - intros target t H. by apply not_elem_of_nil in H.
  - intros target t H. by apply not_elem_of_nil in H.
  - intros target. apply spaced_nil.
  - intros target. apply spaced_nil.
Qed.

Lemma run_cycles_inv config (fires : list UrlConfig) :
  monotone clock ->
  forall w : World,
    alert_inv clock (cooldown_ms config) w ->
    alert_inv clock (cooldown_ms config)
      (world_of (run_cycles clock net parseUrl resolveUrl (Some config) fires w)).
Proof.
  intros Hmono. induction fires as [|urlConfig fires IH]; intros w Hinv; [done|].
  pose proof (runCheck_inv config urlConfig w Hmono Hinv) as Hstep.
  unfold run_cycles in *. rewrite for_each_cons.
  destruct (runCheck _ _ _ _ _ _ _) as [[] w1|msg w1]; simpl in Hstep;
    [by apply IH | done].
Qed.



(** C3. A cycle whose retry-gated check succeeds while the target was
    down, with [alert_on_recovery] enabled (or absent): the cycle
    completes, the target is up, the recovery notification goes out right
    after the probes, and the most recently opened unresolved incident of
    the target is marked resolved at that time, whatever the suppression
    map holds. *)
Theorem recovery_is_always_reported config urlConfig (w : World) result w1 :
  let name := uc_name urlConfig in
  let at_ms := clock (S (w_ticks w1)) in
  checkWithRetry clock net parseUrl resolveUrl urlConfig config w = Ok (Some result) w1 ->
  cr_success result = true ->
  was_down (urlStates (w_state w) !! name) = true ->
  alert_on_recovery (default no_alerts (alerts config)) <> Some false ->
  exists w' later,
    runCheck clock net parseUrl resolveUrl (Some config) urlConfig w = Ok tt w'
    /\ us_status <$> urlStates (w_state w') !! name = Some Up
    /\ w_log w' = w_log w1 ++ EvNotifyUp name result (config_emails config) :: later
    /\ sd_incidents (w_status w')
       = assign_first (is_open_for name) (resolved_at at_ms) (sd_incidents (w_status w))
    /\ (forall before i after,
          sd_incidents (w_status w) = before ++ i :: after ->
          Forall (fun j => is_open_for name j = false) before ->
          is_open_for name i = true ->
          sd_incidents (w_status w') = before ++ resolved_at at_ms i :: after).
Proof.
  intros name at_ms Hrun Hok Hprev Hrec.
  pose proof (runCheck_steps config urlConfig w) as Hsteps.
  pose proof (checkWithRetry_frame urlConfig config w) as Hframe.
  rewrite Hrun in Hsteps, Hframe. simpl in Hframe.
  destruct Hframe as ((Hst1 & Hstore1 & Hsp1) & Ht1 & evs & Hl1 & Hq1).
  destruct Hsteps as (w2 & w3 & w4 & w5 & H2 & H3 & H4 & H5 & Hcycle).
  fold name in H2, H3.
  destruct (recordCheck_some name result w1)
    as (w2' & H2' & Hst2 & Hsp2 & Hl2 & Ht2 & Hc2).
  rewrite H2 in H2'. injection H2' as <-.
  set (w2s := set_state _ w2) in H3.
  destruct (status_alert_run config urlConfig (urlStates (w_state w) !! name) result w2s)
    as (w3' & H3' & Hstore3 & Hus3 & _ & Hcase).
  rewrite H3 in H3'. injection H3' as <-.
  destruct (ssl_alert_run config urlConfig result w3)
    as (w4' & H4' & Hstore4 & Hsp4 & Hus4 & _ & Hcase4).
  rewrite H4 in H4'. injection H4' as <-.
  destruct (updateStatusPage_run (Some config) w4)
    as (w5' & H5' & Hst5 & Hstore5 & Hl5 & _ & Hinc5).
  rewrite H5 in H5'. injection H5' as <-.
  fold name in Hcase.
  destruct Hcase as [(Hs & _)
                    |[(Hs & _)
                    |[(_ & _ & _ & Hl3 & _ & _ & Hinc3)
                    |(_ & _ & Hoff)]]];
    [congruence | congruence | | by specialize (Hoff Hok Hprev)].
  assert (Hledger : sd_incidents (w_status w5)
                    = assign_first (is_open_for name) (resolved_at at_ms)
                        (sd_incidents (w_status w))).
  { rewrite Hinc5, Hsp4, Hinc3. subst w2s at_ms. simpl. by rewrite Ht2, Hsp2, Hsp1. }
  assert (Hlog : exists later,
             w_log w5 = w_log w1 ++ EvNotifyUp name result (config_emails config) :: later).
  { rewrite Hl5.
    destruct Hcase4 as [(sslInfo & _ & _ & _ & -> & _) | (-> & _)];
      rewrite Hl3; subst w2s; simpl; rewrite Hl2.
    - eexists. by rewrite <- app_assoc.
    - by exists nil. }
  destruct Hlog as (later & Hlog).
  exists w5, later. split; [done|]. split.
  { rewrite Hst5, Hus4, Hus3. subst w2s. simpl. rewrite lookup_insert_eq.
    simpl. by rewrite Hok. }
  split; [done|]. split; [done|].
  intros before i after Hsplit Hbefore Hi.
  rewrite Hledger, Hsplit. by apply assign_first_split.
Qed.

End Cycle.

Lemma sample_clock_monotone : monotone Sample.clock.
Proof. intros i j Hij. unfold Sample.clock. lia. Qed.


(** Target A fails twice and then answers: down, down, up, with one
    down-notification, one incident opened then resolved, and one recovery
    notification. *)
Example down_down_up :
  let w := world_of
             (run_cycles Sample.clock Sample.net_fail_twice Sample.parseUrl
                Sample.resolveUrl_any (Some Sample.config_single)
                [Sample.target "A"; Sample.target "A"; Sample.target "A"]
                fresh_world) in
  List.filter (fun e => match e with EvProbe _ | EvSleep _ => false | _ => true end)
    (w_log w)
  = [EvNotifyDown 1700000004000 "A"
       (mkCheckResult "A" "http://A/" false None (Some 2000)
          (Some "connect ECONNREFUSED") None 1700000001000) [];
     EvNotifyUp "A"
       (mkCheckResult "A" "http://A/" true (Some 200) (Some 2000) None None
          1700000014000) []]
  /\ map (fun i => (inc_service i, inc_resolved i)) (sd_incidents (w_status w))
     = [("A", true)]
  /\ us_status <$> urlStates (w_state w) !! "A" = Some Up.
Proof. vm_compute. repeat split. Qed.

Lemma recovery_is_always_reported_witness :
  exists w' later,
    runCheck Sample.clock Sample.net_fail_twice Sample.parseUrl Sample.resolveUrl_any
      (Some Sample.config_single) (Sample.target "A")
      (world_of
         (run_cycles Sample.clock Sample.net_fail_twice Sample.parseUrl
            Sample.resolveUrl_any (Some Sample.config_single)
            [Sample.target "A"; Sample.target "A"] fresh_world))
    = Ok tt w'
    /\ w_log w'
       = w_log (world_of
           (checkWithRetry Sample.clock Sample.net_fail_twice Sample.parseUrl
              Sample.resolveUrl_any (Sample.target "A") Sample.config_single
              (world_of
                 (run_cycles Sample.clock Sample.net_fail_twice Sample.parseUrl
                    Sample.resolveUrl_any (Some Sample.config_single)
                    [Sample.target "A"; Sample.target "A"] fresh_world))))
         ++ EvNotifyUp "A"
              (mkCheckResult "A" "http://A/" true (Some 200) (Some 2000) None None
                 1700000014000) []
            :: later.
Proof.
  destruct (recovery_is_always_reported Sample.clock Sample.net_fail_twice
              Sample.parseUrl Sample.resolveUrl_any Sample.config_single
              (Sample.target "A")
              (world_of
                 (run_cycles Sample.clock Sample.net_fail_twice Sample.parseUrl
                    Sample.resolveUrl_any (Some Sample.config_single)
                    [Sample.target "A"; Sample.target "A"] fresh_world))
              (mkCheckResult "A" "http://A/" true (Some 200) (Some 2000) None None
                 1700000014000)
              (world_of
                 (checkWithRetry Sample.clock Sample.net_fail_twice Sample.parseUrl
                    Sample.resolveUrl_any (Sample.target "A") Sample.config_single
                    (world_of
                       (run_cycles Sample.clock Sample.net_fail_twice Sample.parseUrl
                          Sample.resolveUrl_any (Some Sample.config_single)
                          [Sample.target "A"; Sample.target "A"] fresh_world)))))
    as (w' & later & Hrun & _ & Hlog & _).
  - vm_compute. reflexivity.
  - reflexivity.
  - vm_compute. reflexivity.
  - vm_compute. discriminate.
  - exists w', later. split; [exact Hrun | exact Hlog].
Defined.

(** ** Fields set to 0 *)

Lemma num_or_absent_if_zero x d : JS.num_or (absent_if_zero x) d = JS.num_or x d.
Proof.
  destruct x as [v|]; simpl; [|done]. destruct (v =? 0) eqn:E; simpl; [done|].
  by rewrite E.
Qed.

Lemma alerts_of_config_without_zeros config :
  default no_alerts (alerts (config_without_zeros config))
  = alerts_without_zeros (default no_alerts (alerts config)).
Proof. unfold config_without_zeros. simpl. by destruct (alerts config). Qed.

Lemma bind_eq {A B} (m m' : M A) (k k' : A -> M B) (w : World) :
  m w = m' w -> (forall a w1, k a w1 = k' a w1) -> bind m k w = bind m' k' w.
Proof. intros Hm Hk. unfold bind. rewrite Hm. destruct (m' w); [apply Hk | done]. Qed.

Lemma for_each_eq {A B} (f : A -> B) (items : list A) (body : A -> M unit)
    (body' : B -> M unit) :
  (forall x w, body x w = body' (f x) w) ->
  forall w, for_each items body w = for_each (map f items) body' w.
Proof.
  intros Hb. induction items as [|x items IH]; intros w; [done|].
  simpl. apply bind_eq; [apply Hb | intros _ w1; apply IH].
Qed.

Section Defaults.

Variable clock : nat -> Z.
Variable net : nat -> string -> RequestOptions -> NetReply.
Variable parseUrl : string -> option bool.
Variable resolveUrl : string -> string -> option string.

Lemma retry_loop_step urlConfig globalSettings retryCount retryDelay
    attempts result (w : World) :
  retry_loop clock net parseUrl resolveUrl urlConfig globalSettings retryCount
    retryDelay attempts result w
  = if decide (attempts < retryCount) then
      match checkUrl clock net parseUrl resolveUrl urlConfig globalSettings w with
      | Crash msg w1 => Crash msg w1
      | Ok r w1 =>
          if cr_success r then Ok (Some r) w1
          else
            retry_loop clock net parseUrl resolveUrl urlConfig globalSettings
              retryCount retryDelay (attempts + 1) (Some r)
              (set_log (w_log w1 ++ (if attempts + 1 <? retryCount
                                     then [EvSleep retryDelay] else [])) w1)
      end
    else Ok result w.
Proof.
  rewrite retry_loop_unfold_eq. unfold retry_loop_unfold.
  destruct (decide (attempts < retryCount)); simpl; [|done].
  destruct (checkUrl _ _ _ _ _ _ _) as [r w1|msg w1]; simpl; [|done].
  destruct (cr_success r); simpl; [done|].
  pose proof (sleep_if_run (attempts + 1 <? retryCount) retryDelay w1 _ eq_refl) as Hs.
  rewrite Hs. simpl. by rewrite retry_loop_unfold_eq.
Qed.

Lemma retry_loop_ext urlConfig urlConfig' globalSettings retryCount retryDelay :
  (forall w, checkUrl clock net parseUrl resolveUrl urlConfig globalSettings w
             = checkUrl clock net parseUrl resolveUrl urlConfig' globalSettings w) ->
  forall (n : nat) attempts result (w : World),
    Z.to_nat (retryCount - attempts) = n ->
    retry_loop clock net parseUrl resolveUrl urlConfig globalSettings retryCount
      retryDelay attempts result w
    = retry_loop clock net parseUrl resolveUrl urlConfig' globalSettings retryCount
        retryDelay attempts result w.
Proof.
  intros Hext n. induction n as [|n IH]; intros attempts result w Hn;
    rewrite (retry_loop_step urlConfig), (retry_loop_step urlConfig');
    destruct (decide (attempts < retryCount)); try done; try lia.
  rewrite <- Hext.
  destruct (checkUrl _ _ _ _ _ _ _) as [r w1|msg w1]; [|done].
  destruct (cr_success r); [done|]. apply IH. lia.
Qed.

Lemma checkUrl_without_zero urlConfig globalSettings (w : World) :
  checkUrl clock net parseUrl resolveUrl urlConfig globalSettings w
  = checkUrl clock net parseUrl resolveUrl (url_without_zero urlConfig) globalSettings w.
Proof. reflexivity. Qed.

Lemma checkWithRetry_without_zeros urlConfig config (w : World) :
  checkWithRetry clock net parseUrl resolveUrl urlConfig config w
  = checkWithRetry clock net parseUrl resolveUrl (url_without_zero urlConfig)
      (config_without_zeros config) w.
Proof.
  unfold checkWithRetry. rewrite alerts_of_config_without_zeros. simpl.
  rewrite !num_or_absent_if_zero.
  eapply retry_loop_ext; [|reflexivity]. intros w0. apply checkUrl_without_zero.
Qed.

Lemma status_alert_without_zeros config urlConfig prevState result (w : World) :
  status_alert clock config urlConfig prevState result w
  = status_alert clock (config_without_zeros config) (url_without_zero urlConfig)
      prevState result w.
Proof.
  unfold status_alert. rewrite alerts_of_config_without_zeros. simpl.
  by rewrite num_or_absent_if_zero.
Qed.

Lemma updateStatusPage_without_zeros config (w : World) :
  updateStatusPage clock (Some config) w
  = updateStatusPage clock (Some (config_without_zeros config)) w.
Proof.
  unfold updateStatusPage. apply bind_eq; [done|]. intros st w1. simpl.
  assert (E : omap (fun urlConfig => urlStates st !! uc_name urlConfig)
                (default [] (option_map (map url_without_zero) (urls config)))
              = omap (fun urlConfig => urlStates st !! uc_name urlConfig)
                  (default [] (urls config))).
  { destruct (urls config) as [l|]; [|done].
    change (default [] (option_map (map url_without_zero) (Some l)))
      with (map url_without_zero l).
    change (default [] (Some l)) with l.
    induction l as [|u l IH]; [done|]. csimpl. by rewrite IH. }
  by rewrite E.
Qed.

Lemma runCheck_without_zeros config urlConfig (w : World) :
  runCheck clock net parseUrl resolveUrl (Some config) urlConfig w
  = runCheck clock net parseUrl resolveUrl (Some (config_without_zeros config))
      (url_without_zero urlConfig) w.
Proof.
  unfold runCheck. apply bind_eq; [done|]. intros st w1.
  apply bind_eq; [apply checkWithRetry_without_zeros|]. intros result w2.
  apply bind_eq; [done|]. intros _ w3.
  destruct result as [result|]; [|done].
  apply bind_eq; [done|]. intros _ w4.
  apply bind_eq; [apply status_alert_without_zeros|]. intros _ w5.
  apply bind_eq; [done|]. intros _ w6.
  apply updateStatusPage_without_zeros.
Qed.

Lemma scheduleChecks_without_zeros config (w : World) :
  scheduleChecks clock net parseUrl resolveUrl (Some config) w
  = scheduleChecks clock net parseUrl resolveUrl (Some (config_without_zeros config)) w.
Proof.
  unfold scheduleChecks. apply bind_eq; [done|]. intros st w1.
  apply bind_eq; [done|]. intros _ w2. simpl.
  destruct (urls config) as [l|]; simpl; [|done].
  apply for_each_eq. intros urlConfig w3.
  apply bind_eq; [apply runCheck_without_zeros|]. intros _ w4.
  simpl. by rewrite num_or_absent_if_zero.
Qed.

(** C10. A configuration in which [retry_count], [retry_delay],
    [cooldown_period] or a target's [delay] is 0 drives the retry-gated
    check, the cycle and the scheduling exactly as the configuration
    without these fields does. In particular: with [retry_count: 0] the
    check makes up to three attempts, and exactly three when none succeeds;
    with [cooldown_period: 0] two down-notifications for a target are more
    than 300 seconds apart; with [delay: 0] the timer of a lone target
    fires every 60 seconds. *)
Theorem zero_is_read_as_absent (config : Config) (urlConfig : UrlConfig) (w : World) :
  checkWithRetry clock net parseUrl resolveUrl urlConfig config w
  = checkWithRetry clock net parseUrl resolveUrl (url_without_zero urlConfig)
      (config_without_zeros config) w
  /\ runCheck clock net parseUrl resolveUrl (Some config) urlConfig w
     = runCheck clock net parseUrl resolveUrl (Some (config_without_zeros config))
         (url_without_zero urlConfig) w
  /\ scheduleChecks clock net parseUrl resolveUrl (Some config) w
     = scheduleChecks clock net parseUrl resolveUrl
         (Some (config_without_zeros config)) w
  /\ (retry_count (default no_alerts (alerts config)) = Some 0 ->
      (forall location base, resolveUrl location base <> None) ->
      exists made result w',
        checkWithRetry clock net parseUrl resolveUrl urlConfig config w
        = Ok (Some result) w'
        /\ last made = Some result
        /\ w_log w'
           = w_log w
             ++ retry_log
                  (JS.num_or (retry_delay (default no_alerts (alerts config))) 10 * 1000)
                  made
        /\ (length made <= 3)%nat
        /\ (cr_success result = false -> length made = 3%nat))
  /\ (cooldown_period (default no_alerts (alerts config)) = Some 0 ->
      monotone clock ->
      forall fires target,
        spaced (300 * 1000)
          (down_alert_times target
             (w_log (world_of
                (run_cycles clock net parseUrl resolveUrl (Some config) fires
                   fresh_world)))))
  /\ (uc_delay urlConfig = Some 0 -> urls config = Some [urlConfig] ->
      forall w',
        scheduleChecks clock net parseUrl resolveUrl (Some config) w = Ok tt w' ->
        timers (w_state w') !! uc_name urlConfig = Some (60 * 1000)).
Proof.
  split; [apply checkWithRetry_without_zeros|].
  split; [apply runCheck_without_zeros|].
  split; [apply scheduleChecks_without_zeros|].
  split; [|split].
  - intros Hzero Hres. unfold checkWithRetry. rewrite Hzero.
    change (JS.num_or (Some 0) 3) with 3.
    set (D := JS.num_or _ 10 * 1000).
    destruct (retry_loop_returns clock net parseUrl resolveUrl urlConfig
                (default no_settings (settings config)) 3 D 0 None w Hres)
      as (res & w' & Hrun).
    destruct (retry_loop_run _ _ _ _ _ _ _ _ _ _ _ _ _ Hrun)
      as (made & Hlog & Hret & _ & Hle & Hstop).
    destruct (last made) as [result|] eqn:Hlast.
    + exists made, result, w'. subst res. repeat split; try done; try lia.
      intros Hfail. destruct Hstop as [(r & Hr & Hs) | Hfull]; [congruence | lia].
    + apply last_None in Hlast. subst made. simpl in *.
      destruct Hstop as [(r & Hr & _) | Hfull]; [discriminate Hr | lia].
  - intros Hzero Hmono fires target.
    pose proof (run_cycles_inv clock net parseUrl resolveUrl config fires Hmono
                  fresh_world (fresh_world_inv clock (cooldown_ms config))) as Hinv.
    destruct Hinv as (_ & _ & _ & Hspaced & _).
    unfold cooldown_ms in Hspaced. rewrite Hzero in Hspaced. apply Hspaced.
  - intros Hzero Hurls w'. unfold scheduleChecks. rewrite Hurls.
    unfold bind at 1. unfold get_state at 1. unfold bind at 1. unfold put_state at 1.
    rewrite for_each_cons. unfold bind at 1.
    destruct (runCheck _ _ _ _ _ _ _) as [[] w1|msg w1]; [|done].
    rewrite Hzero. unfold_m. simpl. intros [= <-]. simpl. apply lookup_insert_eq.
Qed.
End Defaults.

Lemma zero_is_read_as_absent_witness :
  spaced (300 * 1000)
    (down_alert_times "A"
       (w_log (world_of
          (run_cycles Sample.clock Sample.net_down Sample.parseUrl
             Sample.resolveUrl_any (Some Sample.config_zeros)
             [Sample.target "A"; Sample.target "A"] fresh_world)))).
Proof.
  exact (proj1 (proj2 (proj2 (proj2 (proj2
           (zero_is_read_as_absent Sample.clock Sample.net_down Sample.parseUrl
              Sample.resolveUrl_any Sample.config_zeros (Sample.target "A")
              fresh_world)))))
           eq_refl sample_clock_monotone
           [Sample.target "A"; Sample.target "A"] "A").
Defined.

(** With every field set to 0, a target that is down is probed three times,
    ten seconds apart, and its timer fires every sixty seconds. *)
Example zeros_run_with_the_defaults :
  let w := world_of (scheduleChecks Sample.clock Sample.net_down Sample.parseUrl
                       Sample.resolveUrl_any (Some Sample.config_zeros) fresh_world) in
  map (fun e => match e with
                | EvProbe _ => "probe"
                | EvSleep ms => "sleep " +:+ pretty ms
                | EvNotifyDown _ _ _ _ => "down"
                | EvSetInterval _ ms => "timer " +:+ pretty ms
                | _ => "other"
                end) (w_log w)
  = ["probe"; "sleep 10000"; "probe"; "sleep 10000"; "probe"; "down"; "timer 60000"].
Proof. vm_compute. reflexivity. Qed.

(** ** Certificate notifications *)

(** Over any sequence of cycles under a clock that never goes back, two
    certificate notifications for the same target are more than 24 hours
    apart. *)
Lemma ssl_alerts_once_a_day clock net parseUrl resolveUrl config fires :
  monotone clock ->
  forall target,
    spaced (24 * 60 * 60 * 1000)
      (ssl_alert_times target
         (w_log (world_of
            (run_cycles clock net parseUrl resolveUrl (Some config) fires
               fresh_world)))).
Proof.
  intros Hmono.
  pose proof (run_cycles_inv clock net parseUrl resolveUrl config fires Hmono
                fresh_world (fresh_world_inv clock (cooldown_ms config))) as Hinv.
  by destruct Hinv as (_ & _ & _ & _ & Hspaced).
Qed.

(** C7. The certificate notification of target [foo] is keyed
    [ssl-foo], which is also the status key of a target named [ssl-foo].
    Alone, [foo], whose certificate has ten days left, gets its
    notification in its first cycle. When the target [ssl-foo] has just
    gone down, the same cycle of [foo] sends nothing: the down stamp of
    the other target stands for a certificate notification that never went
    out. *)
Theorem ssl_alert_key_collides :
  let run fires :=
    world_of (run_cycles Sample.clock Sample.net_foo Sample.parseUrl
                Sample.resolveUrl_any (Some Sample.config_single) fires fresh_world) in
  ssl_alert_times "foo" (w_log (run [Sample.target_https "foo"])) = [1700000005000]
  /\ (let w := run [Sample.target "ssl-foo"; Sample.target_https "foo"] in
      match urlStates (w_state w) !! "foo" with
      | Some st => ssl_daysRemaining <$> us_sslInfo st
      | None => None
      end = Some 10
      /\ ssl_alert_times "foo" (w_log w) = []
      /\ down_alert_times "ssl-foo" (w_log w) = [1700000004000]
      /\ lastAlert (w_state w) !! "ssl-foo" = Some 1700000006000).
Proof. vm_compute. repeat split. Qed.

(** ** Hourly averages *)















Section Hourly.

Variable clock : nat -> Z.





End Hourly.

(** Checks over three consecutive hours: the exact mean and percentage of
    each hour, and null, not zero, for the hour without checks. *)
Example three_hours_of_history :
  getHourlyAverages Sample.clock "A" 3 (Sample.world_with_history Sample.history_3_hours)
  = Ok [mkHourlyAverage 1699992000000 (Some 151) (Some 100) 2;
        mkHourlyAverage 1699995600000 None None 0;
        mkHourlyAverage 1699999200000 (Some 201) (Some 50) 2]
      (set_ticks 1 (Sample.world_with_history Sample.history_3_hours)).
Proof. vm_compute. reflexivity. Qed.

(** A stored check without a response time counts as a success but not as
    a check: here one timed success and one untimed success make 200%. *)
Example untimed_checks_are_not_counted :
  getHourlyAverages Sample.clock "A" 1
    (Sample.world_with_history
       [mkStoredCheck 1699999200001 true (Some 100) (Some 200) None;
        mkStoredCheck 1699999999000 true None None None])
  = Ok [mkHourlyAverage 1699999200000 (Some 100) (Some 200) 1]
      (set_ticks 1
         (Sample.world_with_history
            [mkStoredCheck 1699999200001 true (Some 100) (Some 200) None;
             mkStoredCheck 1699999999000 true None None None])).
Proof. vm_compute. reflexivity. Qed.



(** Three incidents opened, for api, web and api again: resolving api marks
    the one opened last. *)
Lemma resolve_marks_most_recent_open_witness :
  exists w',
    resolveIncident Sample.clock "api"
      (world_of (run_ledger Sample.clock
                   [OpOpen "api" (Some "timeout") Sample.T0;
                    OpOpen "web" (Some "refused") (Sample.T0 + 1000);
                    OpOpen "api" (Some "status 500") (Sample.T0 + 2000)]
                   fresh_world))
    = Ok tt w'
    /\ sd_incidents (w_status w')
       = [mkIncident "api" (Some "status 500") (Sample.T0 + 2000) true
            (Some (Sample.T0 + 3000));
          mkIncident "web" (Some "refused") (Sample.T0 + 1000) false None;
          mkIncident "api" (Some "timeout") Sample.T0 false None].
Proof.
  destruct (resolve_marks_most_recent_open Sample.clock fresh_world
              [OpOpen "api" (Some "timeout") Sample.T0;
               OpOpen "web" (Some "refused") (Sample.T0 + 1000);
               OpOpen "api" (Some "status 500") (Sample.T0 + 2000)] "api")
    as (_ & w' & Hrun & _ & Hmark).
  exists w'. split; [exact Hrun|].
  exact (Hmark nil
           (mkIncident "api" (Some "status 500") (Sample.T0 + 2000) false None)
           [mkIncident "web" (Some "refused") (Sample.T0 + 1000) false None;
            mkIncident "api" (Some "timeout") Sample.T0 false None]
           eq_refl (Forall_nil_2 _) eq_refl).
Defined.

(** * Further properties *)

(** ** Requests, cycles and timers *)

Lemma request_reqs net url options (w : World) r :
  request net url options w = r ->
  exists reply, r = Ok reply (set_reqs (S (w_reqs w)) w).
Proof. intros <-. by eexists. Qed.

Lemma peerSslInfo_reqs clock isHttps options cert (w : World) r :
  peerSslInfo clock isHttps options cert w = r ->
  w_reqs (world_of r) = w_reqs w.
Proof.
  intros <-. unfold peerSslInfo.
  destruct (isHttps && _); [|done].
  destruct cert as [c|]; [|done].
  by destruct (JS.truthy_str _).
Qed.

(** One transport call issues one request, plus one per redirection it
    follows: never more than [maxRedirects - redirectCount] of these. *)
Lemma makeRequest_reqs clock net parseUrl resolveUrl urlString options redirectCount
    (w : World) :
  let w' := world_of (makeRequest clock net parseUrl resolveUrl urlString options
                        redirectCount w) in
  (w_reqs w <= w_reqs w'
   <= w_reqs w + 1
      + (if ro_followRedirects options
         then Z.to_nat (ro_maxRedirects options - redirectCount) else 0))%nat.
Proof.
  funelim (makeRequest clock net parseUrl resolveUrl urlString options redirectCount w);
    simpl;
    repeat match goal with
      | H : request _ _ _ _ = _ |- _ =>
          apply request_reqs in H as (? & H); inversion H; subst; clear H
      | H : peerSslInfo _ _ _ _ _ = _ |- _ =>
          apply peerSslInfo_reqs in H; simpl in H
      end; simpl in *; try lia.
  apply andb_true_iff in Heq2 as [_ Hf]. rewrite Hf in *. lia.
Qed.

(** Case analysis of straight-line monadic code. *)
Ltac split_cases :=
  repeat match goal with
    | |- context [match ?x with _ => _ end] => destruct x eqn:?; simpl
    end.

(** *** Computations that leave an observation of the world unchanged *)

Lemma keeps_ret {T A} (f : World -> T) (a : A) : keeps f (ret a).
Proof. by intros w. Qed.

Lemma keeps_throw {T A} (f : World -> T) msg : keeps f (@throw A msg).
Proof. by intros w. Qed.

Lemma keeps_bind {T A B} (f : World -> T) (m : M A) (k : A -> M B) :
  keeps f m -> (forall a, keeps f (k a)) -> keeps f (bind m k).
Proof.
  intros Hm Hk w. unfold bind. specialize (Hm w).
  destruct (m w) as [a w1|msg w1]; simpl in *; [|done].
  by rewrite Hk.
Qed.

Lemma keeps_for_each {T A} (f : World -> T) (items : list A) (body : A -> M unit) :
  (forall x, keeps f (body x)) -> keeps f (for_each items body).
Proof.
  intros Hb. induction items as [|x rest IH]; simpl.
  - apply keeps_ret.
  - apply keeps_bind; [apply Hb | intros _; exact IH].
Qed.

Lemma runCheck_unfold clock net parseUrl resolveUrl config urlConfig (w : World) :
  runCheck clock net parseUrl resolveUrl (Some config) urlConfig w
  = match checkWithRetry clock net parseUrl resolveUrl urlConfig config w with
    | Ok result w1 =>
        after_probes clock config urlConfig
          (urlStates (w_state w) !! uc_name urlConfig) result w1
    | Crash msg w1 => Crash msg w1
    end.
Proof. reflexivity. Qed.

Lemma recordCheck_reqs clock name result : keeps w_reqs (recordCheck clock name result).
Proof.
  intros w. unfold recordCheck, prune, save. unfold_m.
  destruct (checks (w_store w) !! name), result; reflexivity.
Qed.

Lemma status_alert_reqs clock config urlConfig prevState result :
  keeps w_reqs (status_alert clock config urlConfig prevState result).
Proof.
  intros w. unfold status_alert, addIncident, resolveIncident, set_lastAlert. unfold_m.
  split_cases; reflexivity.
Qed.

Lemma ssl_alert_reqs clock config urlConfig result :
  keeps w_reqs (ssl_alert clock config urlConfig result).
Proof.
  intros w. unfold ssl_alert, set_lastAlert. unfold_m. split_cases; reflexivity.
Qed.

(** The steps of a cycle other than the probes issue no request. *)
Lemma after_probes_reqs clock config urlConfig prevState result :
  keeps w_reqs (after_probes clock config urlConfig prevState result).
Proof.
  unfold after_probes. apply keeps_bind; [apply recordCheck_reqs|]. intros _.
  destruct result as [result|]; [|apply keeps_throw].
  apply keeps_bind; [by intros w|]. intros _.
  apply keeps_bind; [apply status_alert_reqs|]. intros _.
  apply keeps_bind; [apply ssl_alert_reqs|]. intros _. by intros w.
Qed.

Lemma checkUrl_reqs clock net parseUrl resolveUrl urlConfig globalSettings (w : World) :
  let w' := world_of (checkUrl clock net parseUrl resolveUrl urlConfig globalSettings w) in
  let options := request_options urlConfig globalSettings in
  (w_reqs w <= w_reqs w'
   <= w_reqs w + 1
      + (if ro_followRedirects options then Z.to_nat (ro_maxRedirects options) else 0))%nat.
Proof.
  intros w' options. subst w'.
  pose proof (checkUrl_frame clock net parseUrl resolveUrl urlConfig globalSettings w) as H.
  pose proof (makeRequest_reqs clock net parseUrl resolveUrl (uc_url urlConfig)
                options 0 (set_ticks (S (S (w_ticks w))) w)) as Hr.
  simpl in H, Hr. fold options in H. rewrite Z.sub_0_r in Hr.
  destruct (makeRequest _ _ _ _ _ _ _ _) as [settled w1|msg w1]; simpl in Hr.
  - destruct H as (result & ->). simpl. exact Hr.
  - rewrite H. exact Hr.
Qed.

Lemma retry_loop_reqs clock net parseUrl resolveUrl urlConfig globalSettings
    retryCount retryDelay attempts result (w : World) (per : nat) :
  (forall w0,
     w_reqs w0
     <= w_reqs (world_of (checkUrl clock net parseUrl resolveUrl urlConfig
                            globalSettings w0))
     <= w_reqs w0 + per)%nat ->
  let w' := world_of (retry_loop clock net parseUrl resolveUrl urlConfig
                        globalSettings retryCount retryDelay attempts result w) in
  (w_reqs w <= w_reqs w' <= w_reqs w + Z.to_nat (retryCount - attempts) * per)%nat.
Proof.
  intros Hper.
  funelim (retry_loop clock net parseUrl resolveUrl urlConfig globalSettings
             retryCount retryDelay attempts result w); simpl;
    repeat match goal with
      | H : checkUrl _ _ _ _ _ _ ?w = _ |- _ =>
          let Hq := fresh "Hq" in
          pose proof (Hper w) as Hq; rewrite H in Hq; simpl in Hq; clear H
      | H : (if _ then sleep _ else ret tt) _ = _ |- _ =>
          apply sleep_if_run in H; inversion H; subst; clear H
      end.
  - lia.
  - nia.
  - nia.
  - specialize (H per Hper). simpl in H.
    replace (Z.to_nat (retryCount - attempts))
      with (S (Z.to_nat (retryCount - (attempts + 1)))) by lia.
    lia.
Qed.

(** X1. A cycle issues at most [N * (1 + M)] requests, with [N] the retry
    count in force and [M] the redirection limit in force ([M] is 0 when
    [follow_redirects] is [false]); none of them is issued after the last
    probe. *)
Theorem requests_per_cycle_bounded clock net parseUrl resolveUrl
    (config : Config) (urlConfig : UrlConfig) (w : World) :
  let N := JS.num_or (retry_count (default no_alerts (alerts config))) 3 in
  let w1 := world_of (checkWithRetry clock net parseUrl resolveUrl urlConfig config w) in
  let w' := world_of (runCheck clock net parseUrl resolveUrl (Some config) urlConfig w) in
  w_reqs w' = w_reqs w1
  /\ (w_reqs w <= w_reqs w'
      <= w_reqs w
         + Z.to_nat N * requests_per_probe (default no_settings (settings config)))%nat.
Proof.
  intros N w1 w'. 
  assert (E : w_reqs w' = w_reqs w1).
  { subst w' w1. rewrite runCheck_unfold.
    destruct (checkWithRetry _ _ _ _ _ _ _) as [result w2|msg w2]; [|done].
    apply after_probes_reqs. }
  split; [exact E|]. rewrite E. subst w1. unfold checkWithRetry. fold N.
  pose proof (retry_loop_reqs clock net parseUrl resolveUrl urlConfig
                (default no_settings (settings config)) N
                (JS.num_or (retry_delay (default no_alerts (alerts config))) 10 * 1000)
                0 None w
                (requests_per_probe (default no_settings (settings config)))) as H.
  rewrite Z.sub_0_r in H. apply H. intros w0.
  pose proof (checkUrl_reqs clock net parseUrl resolveUrl urlConfig
                (default no_settings (settings config)) w0) as Hq.
  simpl in Hq. unfold requests_per_probe.
  destruct (bool_decide _); simpl in *; lia.
Qed.

Section CyclePost.

Variable clock : nat -> Z.
Variable net : nat -> string -> RequestOptions -> NetReply.
Variable parseUrl : string -> option bool.
Variable resolveUrl : string -> string -> option string.

(** A completed cycle, step by step: [w1] after the probes, [w3] after the
    status-change block, [w4] after the certificate block, [w5] at the end. *)
Lemma runCheck_post config urlConfig (w : World) result w1 :
  let name := uc_name urlConfig in
  let prev := urlStates (w_state w) !! name in
  let emails := config_emails config in
  let t := w_ticks w1 in
  let now := clock (S t) in
  let last := JS.num_or (lastAlert (w_state w) !! name) 0 in
  checkWithRetry clock net parseUrl resolveUrl urlConfig config w = Ok (Some result) w1 ->
  exists w2 w3 w4 w5,
    runCheck clock net parseUrl resolveUrl (Some config) urlConfig w = Ok tt w5
    /\ recordCheck clock name (Some result) w1 = Ok tt w2
    /\ w_store w5 = w_store w2
    /\ sd_services (w_status w5)
       = omap (fun u => urlStates (w_state w5) !! uc_name u) (default [] (urls config))
    /\ sd_lastUpdate (w_status w5) = Some (clock (w_ticks w4))
    /\ ((cr_success result = false /\ was_down prev = false
         /\ now - last > cooldown_ms config
         /\ w_log w3 = w_log w1 ++ [EvNotifyDown now name result emails]
         /\ lastAlert (w_state w3) = <[name := clock (S (S (S t)))]> (lastAlert (w_state w))
         /\ sd_incidents (w_status w3)
            = List.filter
                (fun i => inc_timestamp i >? clock (S (S t)) - 90 * 24 * 60 * 60 * 1000)
                (mkIncident name (cr_error result) (cr_timestamp result) false None
                 :: sd_incidents (w_status w)))
        \/ (cr_success result = false /\ was_down prev = false
            /\ now - last <= cooldown_ms config
            /\ w_log w3 = w_log w1
            /\ lastAlert (w_state w3) = lastAlert (w_state w)
            /\ sd_incidents (w_status w3) = sd_incidents (w_status w))
        \/ (cr_success result = true /\ was_down prev = true
            /\ alert_on_recovery (default no_alerts (alerts config)) <> Some false
            /\ w_log w3 = w_log w1 ++ [EvNotifyUp name result emails]
            /\ lastAlert (w_state w3) = lastAlert (w_state w)
            /\ sd_incidents (w_status w3)
               = assign_first (is_open_for name) (resolved_at now)
                   (sd_incidents (w_status w)))
        \/ (w_log w3 = w_log w1
            /\ lastAlert (w_state w3) = lastAlert (w_state w)
            /\ sd_incidents (w_status w3) = sd_incidents (w_status w)
            /\ (cr_success result = false -> was_down prev = true)
            /\ (cr_success result = true -> was_down prev = true ->
                alert_on_recovery (default no_alerts (alerts config)) = Some false)))
    /\ ((exists sslInfo,
           cr_sslInfo result = Some sslInfo
           /\ ssl_daysRemaining sslInfo <= 14
           /\ clock (w_ticks w3) - JS.num_or (lastAlert (w_state w3) !! ("ssl-" +:+ name)) 0
              > 24 * 60 * 60 * 1000
           /\ w_log w4 = w_log w3 ++ [EvNotifySsl (clock (w_ticks w3)) name sslInfo emails]
           /\ lastAlert (w_state w4)
              = <[("ssl-" +:+ name) := clock (S (w_ticks w3))]> (lastAlert (w_state w3)))
        \/ (w_log w4 = w_log w3
            /\ lastAlert (w_state w4) = lastAlert (w_state w3)
            /\ forall sslInfo,
                 cr_sslInfo result = Some sslInfo ->
                 ssl_daysRemaining sslInfo <= 14 ->
                 clock (w_ticks w3)
                 - JS.num_or (lastAlert (w_state w3) !! ("ssl-" +:+ name)) 0
                 <= 24 * 60 * 60 * 1000))
    /\ (S t <= w_ticks w3)%nat
    /\ urlStates (w_state w5) = <[name := state_of urlConfig result]> (urlStates (w_state w))
    /\ timers (w_state w5) = timers (w_state w)
    /\ lastAlert (w_state w5) = lastAlert (w_state w4)
    /\ checks (w_store w5) !! name
       = pruned_log (clock t - retentionDays (w_store w) * 24 * 60 * 60 * 1000)
           (Some (default [] (checks (w_store w) !! name) ++ [stored result]))
    /\ sd_incidents (w_status w5) = sd_incidents (w_status w3)
    /\ w_log w5 = w_log w4.
Proof.
  intros name prev emails t now last Hrun.
  pose proof (runCheck_steps clock net parseUrl resolveUrl config urlConfig w) as Hsteps.
  pose proof (checkWithRetry_frame clock net parseUrl resolveUrl urlConfig config w) as Hframe.
  rewrite Hrun in Hsteps, Hframe. simpl in Hframe.
  destruct Hframe as ((Hst1 & Hstore1 & Hsp1) & Ht1 & evs & Hl1 & Hq1).
  destruct Hsteps as (w2 & w3 & w4 & w5 & H2 & H3 & H4 & H5 & Hcycle).
  fold name in H2, H3.
  destruct (recordCheck_some clock name result w1)
    as (w2' & H2' & Hst2 & Hsp2 & Hl2 & Ht2 & Hc2).
  rewrite H2 in H2'. injection H2' as <-.
  set (w2s := set_state _ w2) in H3.
  destruct (status_alert_run clock config urlConfig (urlStates (w_state w) !! name) result w2s)
    as (w3' & H3' & Hstore3 & Hus3 & Htm3 & Hcase).
  rewrite H3 in H3'. injection H3' as <-.
  destruct (ssl_alert_run clock config urlConfig result w3)
    as (w4' & H4' & Hstore4 & Hsp4 & Hus4 & Htm4 & Hcase4).
  rewrite H4 in H4'. injection H4' as <-.
  destruct (updateStatusPage_run clock (Some config) w4)
    as (w5' & H5' & Hst5 & Hstore5 & Hl5 & _ & Hinc5).
  rewrite H5 in H5'. injection H5' as <-.
  fold name emails prev in Hcase. fold name emails in Hcase4.
  assert (Ew : w_ticks w2s = S t /\ w_log w2s = w_log w1
               /\ lastAlert (w_state w2s) = lastAlert (w_state w)
               /\ sd_incidents (w_status w2s) = sd_incidents (w_status w)).
  { subst w2s. simpl. by rewrite Ht2, Hl2, Hst2, Hst1, Hsp2, Hsp1. }
  destruct Ew as (Et & El & Ea & Ei). rewrite Et, El, Ea, Ei in Hcase.
  fold now last in Hcase.
  exists w2, w3, w4, w5. split; [done|]. split; [done|].
  split; [by rewrite Hstore5, Hstore4, Hstore3|].
  split.
  { rewrite Hst5. unfold updateStatusPage, updateStatus in H5. unfold_m.
    by injection H5 as <-. }
  split.
  { unfold updateStatusPage, updateStatus in H5. unfold_m. by injection H5 as <-. }
  split.
  { destruct Hcase as [(? & ? & ? & ? & ? & ? & ?)
                      |[(? & ? & ? & ? & ? & ? & Hsp3)
                      |[(? & ? & ? & ? & ? & ? & ?)
                      |(-> & ? & ?)]]].
    - left. by repeat split.
    - right. left. repeat split; try done. by rewrite Hsp3.
    - right. right. left. by repeat split.
    - right. right. right. by repeat split. }
  split.
  { destruct Hcase4 as [(sslInfo & ? & ? & ? & ? & ? & ?) | (? & ? & ? & ?)].
    - left. exists sslInfo. by repeat split.
    - right. by repeat split. }
  split.
  { destruct Hcase as [(_ & _ & _ & _ & _ & Hle & _)
                      |[(_ & _ & _ & _ & _ & Hle & _)
                      |[(_ & _ & _ & _ & _ & Hle & _)
                      |(Hle & _)]]]; [lia | lia | lia | by rewrite Hle, Et]. }
  repeat split.
  - rewrite Hst5, Hus4, Hus3. subst w2s. simpl. by rewrite Hst2, Hst1.
  - rewrite Hst5, Htm4, Htm3. subst w2s. simpl. by rewrite Hst2, Hst1.
  - by rewrite Hst5.
  - rewrite Hstore5, Hstore4, Hstore3. subst w2s. simpl. by rewrite Hc2, Hstore1.
  - by rewrite Hinc5, Hsp4.
  - done.
Qed.

End CyclePost.





Lemma length_append (s t : string) :
  String.length (s +:+ t) = (String.length s + String.length t)%nat.
Proof.
  induction s as [|c s IH]; [done|].
  rewrite append_String. simpl. by rewrite IH.
Qed.




(** X4. With [alert_on_recovery: false], the cycle that finds a target up
    again after it was down completes and files the target as up, but
    sends no recovery notification and leaves the incident ledger as it
    is: the incident opened for the outage stays unresolved. *)
Theorem silent_recovery_leaves_incident_open clock net parseUrl resolveUrl
    (config : Config) (urlConfig : UrlConfig) (w : World) result w1 :
  let name := uc_name urlConfig in
  checkWithRetry clock net parseUrl resolveUrl urlConfig config w = Ok (Some result) w1 ->
  cr_success result = true ->
  was_down (urlStates (w_state w) !! name) = true ->
  alert_on_recovery (default no_alerts (alerts config)) = Some false ->
  exists w',
    runCheck clock net parseUrl resolveUrl (Some config) urlConfig w = Ok tt w'
    /\ us_status <$> urlStates (w_state w') !! name = Some Up
    /\ (w_log w' = w_log w1
        \/ exists at_ms sslInfo,
             w_log w' = w_log w1 ++ [EvNotifySsl at_ms name sslInfo (config_emails config)])
    /\ sd_incidents (w_status w') = sd_incidents (w_status w)
    /\ (forall i, In i (sd_incidents (w_status w)) -> is_open_for name i = true ->
          In i (sd_incidents (w_status w')) /\ inc_resolved i = false).
Proof.
  intros name Hrun Hok Hprev Hoff.
  destruct (runCheck_post clock net parseUrl resolveUrl config urlConfig w result w1 Hrun)
    as (w2 & w3 & w4 & w5 & Hcycle & _ & _ & _ & _ & Hstatus & Hssl & _
        & Hus & _ & _ & _ & Hinc5 & Hl5).
  fold name in Hstatus, Hssl, Hus.
  assert (H3 : w_log w3 = w_log w1
               /\ sd_incidents (w_status w3) = sd_incidents (w_status w)).
  { destruct Hstatus as [(Hs & _)
                        |[(Hs & _)
                        |[(_ & _ & Hon & _)
                        |(? & _ & ? & _)]]]; [congruence | congruence | done | done]. }
  destruct H3 as (Hl3 & Hinc3).
  assert (Hledger : sd_incidents (w_status w5) = sd_incidents (w_status w))
    by (by rewrite Hinc5).
  exists w5. split; [done|]. split; [|split; [|split; [done|]]].
  - rewrite Hus, lookup_insert_eq. simpl. by rewrite Hok.
  - rewrite Hl5. destruct Hssl as [(sslInfo & _ & _ & _ & -> & _) | (-> & _)].
    + right. exists (clock (w_ticks w3)), sslInfo. by rewrite Hl3.
    + by left.
  - intros i Hi Hopen. rewrite Hledger. split; [done|].
    unfold is_open_for in Hopen. apply andb_true_iff in Hopen as [_ Hopen].
    by apply negb_true_iff in Hopen.
Qed.

Lemma silent_recovery_leaves_incident_open_witness :
  exists w',
    runCheck Sample.clock Sample.net_up Sample.parseUrl Sample.resolveUrl_any
      (Some Scenario.config_silent_recovery) (Sample.target "A")
      Scenario.down_once_silent = Ok tt w'
    /\ map (fun i => (inc_service i, inc_resolved i)) (sd_incidents (w_status w'))
       = [("A", false)].
Proof.
  edestruct (silent_recovery_leaves_incident_open Sample.clock Sample.net_up
               Sample.parseUrl Sample.resolveUrl_any Scenario.config_silent_recovery
               (Sample.target "A") Scenario.down_once_silent)
    as (w' & Hrun & _ & _ & Hinc & _).
  - vm_compute. reflexivity.
  - reflexivity.
  - vm_compute. reflexivity.
  - reflexivity.
  - exists w'. split; [exact Hrun|]. rewrite Hinc. vm_compute. reflexivity.
Defined.



(** ** Certificates *)

(** A transport call made without [checkSsl] reports no certificate. *)
Lemma makeRequest_no_ssl clock net parseUrl resolveUrl urlString options redirectCount
    (w : World) response w' :
  ro_checkSsl options <> Some true ->
  makeRequest clock net parseUrl resolveUrl urlString options redirectCount w
  = Ok (Resolved response) w' ->
  hr_sslInfo response = None.
Proof.
  intros Hoff.
  funelim (makeRequest clock net parseUrl resolveUrl urlString options redirectCount w);
    intros Hrun; try discriminate Hrun; [|by eauto].
  injection Hrun as <- <-. simpl.
  unfold peerSslInfo in Heq0.
  rewrite bool_decide_eq_false_2 in Heq0 by done.
  rewrite andb_false_r in Heq0. by injection Heq0 as <- <-.
Qed.

Lemma checkUrl_no_ssl clock net parseUrl resolveUrl urlConfig globalSettings
    (w : World) result w' :
  uc_check_ssl urlConfig <> Some true ->
  checkUrl clock net parseUrl resolveUrl urlConfig globalSettings w = Ok result w' ->
  cr_sslInfo result = None.
Proof.
  intros Hoff. unfold checkUrl. unfold_m. simpl.
  destruct (makeRequest _ _ _ _ _ _ _ _) as [[response|msg] w1|msg w1] eqn:E; [| |done].
  - apply makeRequest_no_ssl in E; [|done].
    simpl. destruct (negb _); [by intros [= <- <-]|].
    destruct (_ && _); [by intros [= <- <-]|].
    destruct (_ && _); by intros [= <- <-].
  - simpl. by intros [= <- <-].
Qed.

(** What holds of every probe's outcome holds of the outcome the retry
    loop returns. *)
Lemma retry_loop_result clock net parseUrl resolveUrl urlConfig globalSettings
    retryCount retryDelay attempts result (w : World) (P : CheckResult -> Prop) :
  (forall w0 r w0',
     checkUrl clock net parseUrl resolveUrl urlConfig globalSettings w0 = Ok r w0' -> P r) ->
  (forall r, result = Some r -> P r) ->
  forall r w',
    retry_loop clock net parseUrl resolveUrl urlConfig globalSettings
      retryCount retryDelay attempts result w = Ok (Some r) w' ->
    P r.
Proof.
  intros Hprobe.
  funelim (retry_loop clock net parseUrl resolveUrl urlConfig globalSettings
             retryCount retryDelay attempts result w);
    intros Hinit r0 w' Hrun; try discriminate Hrun.
  - injection Hrun as -> <-. by apply Hinit.
  - injection Hrun as <- <-. by eapply Hprobe.
  - eapply (H P Hprobe); [|exact Hrun]. intros r' [= <-]. by eapply Hprobe.
Qed.

Lemma checkWithRetry_no_ssl clock net parseUrl resolveUrl urlConfig config
    (w : World) result w1 :
  uc_check_ssl urlConfig <> Some true ->
  checkWithRetry clock net parseUrl resolveUrl urlConfig config w = Ok (Some result) w1 ->
  cr_sslInfo result = None.
Proof.
  intros Hoff Hrun. unfold checkWithRetry in Hrun.
  eapply (retry_loop_result _ _ _ _ _ _ _ _ _ _ _ (fun r => cr_sslInfo r = None));
    [| |exact Hrun].
  - intros w0 r w0'. by apply checkUrl_no_ssl.
  - done.
Qed.

(** The events of a cycle of a target whose certificate is not inspected. *)
Lemma runCheck_no_ssl clock net parseUrl resolveUrl config urlConfig (w : World) :
  uc_check_ssl urlConfig <> Some true ->
  exists evs,
    w_log (world_of (runCheck clock net parseUrl resolveUrl (Some config) urlConfig w))
    = w_log w ++ evs
    /\ Forall no_ssl_event evs.
Proof.
  intros Hoff.
  pose proof (runCheck_steps clock net parseUrl resolveUrl config urlConfig w) as Hsteps.
  pose proof (checkWithRetry_frame clock net parseUrl resolveUrl urlConfig config w) as Hframe.
  destruct (checkWithRetry _ _ _ _ _ _ _) as [[result|] w1|msg w1] eqn:Hrun;
    simpl in Hframe; destruct Hframe as (_ & _ & evs & Hl1 & Hq1).
  - clear Hsteps.
    destruct (runCheck_post clock net parseUrl resolveUrl config urlConfig w result w1 Hrun)
      as (w2 & w3 & w4 & w5 & -> & _ & _ & _ & _ & Hstatus & Hssl & _
          & _ & _ & _ & _ & _ & Hl5).
    simpl. rewrite Hl5.
    apply checkWithRetry_no_ssl in Hrun; [|done].
    destruct Hssl as [(sslInfo & Hsome & _) | (-> & _)]; [congruence|].
    assert (Hq : Forall no_ssl_event evs).
    { eapply Forall_impl; [exact Hq1|]. by intros []. }
    destruct Hstatus as [(_ & _ & _ & -> & _)
                        |[(_ & _ & _ & -> & _)
                        |[(_ & _ & _ & -> & _)
                        |(-> & _)]]]; rewrite Hl1.
    + eexists. rewrite <- app_assoc. split; [reflexivity|].
      apply Forall_app. split; [done | by repeat constructor].
    + by exists evs.
    + eexists. rewrite <- app_assoc. split; [reflexivity|].
      apply Forall_app. split; [done | by repeat constructor].
    + by exists evs.
  - destruct Hsteps as (msg & w2 & -> & _ & _ & Hl2 & _). simpl.
    exists evs. split; [by rewrite Hl2|].
    eapply Forall_impl; [exact Hq1|]. by intros [].
  - rewrite Hsteps. simpl. exists evs. split; [done|].
    eapply Forall_impl; [exact Hq1|]. by intros [].
Qed.

Lemma no_ssl_event_times target evs :
  Forall no_ssl_event evs -> ssl_alert_times target evs = nil.
Proof.
  induction 1 as [|e evs He _ IH]; [done|].
  unfold ssl_alert_times in *. destruct e; try done; simpl; by rewrite ?IH.
Qed.

(** X6. Cycles of targets that do not set [check_ssl: true] send no
    certificate notification, whatever the scheme of their URL, wherever
    they are redirected and whatever certificate the peer presents. *)
Theorem no_certificate_alert_without_check_ssl clock net parseUrl resolveUrl
    (config : Config) (fires : list UrlConfig) (w : World) :
  Forall (fun urlConfig => uc_check_ssl urlConfig <> Some true) fires ->
  let w' := world_of (run_cycles clock net parseUrl resolveUrl (Some config) fires w) in
  (exists evs, w_log w' = w_log w ++ evs /\ Forall no_ssl_event evs)
  /\ forall target, ssl_alert_times target (w_log w') = ssl_alert_times target (w_log w).
Proof.
  intros Hoff w'.
  assert (Hlog : exists evs, w_log w' = w_log w ++ evs /\ Forall no_ssl_event evs).
  { subst w'. revert w. induction Hoff as [|urlConfig fires Hu _ IH]; intros w.
    - exists nil. split; [by rewrite app_nil_r | constructor].
    - unfold run_cycles in *. rewrite for_each_cons.
      destruct (runCheck_no_ssl clock net parseUrl resolveUrl config urlConfig w Hu)
        as (evs & Hl & Hq).
      destruct (runCheck _ _ _ _ _ _ _) as [[] w1|msg w1]; simpl in Hl.
      + destruct (IH w1) as (evs' & Hl' & Hq').
        exists (evs ++ evs'). rewrite Hl', Hl, <- app_assoc. split; [done|].
        by apply Forall_app.
      + simpl. by exists evs. }
  split; [exact Hlog|]. intros target.
  destruct Hlog as (evs & -> & Hq).
  rewrite ssl_alert_times_app, (no_ssl_event_times target evs Hq). apply app_nil_r.
Qed.

Lemma no_certificate_alert_without_check_ssl_witness :
  ssl_alert_times "foo"
    (w_log (world_of
       (run_cycles Sample.clock Sample.net_foo Sample.parseUrl Sample.resolveUrl_any
          (Some Sample.config_single)
          [mkUrlConfig "foo" None "https://foo/" None None None None None None None]
          fresh_world)))
  = [].
Proof.
  refine (proj2 (no_certificate_alert_without_check_ssl Sample.clock Sample.net_foo
                   Sample.parseUrl Sample.resolveUrl_any Sample.config_single
                   [mkUrlConfig "foo" None "https://foo/" None None None None None None None]
                   fresh_world _) "foo").
  repeat constructor. discriminate.
Defined.

(** X7. The certificate block's reading of a certificate: the days
    remaining are the whole days between the probe's clock reading and the
    expiry, rounded down, so the warning threshold of 14 days is met
    exactly when less than 15 days remain; an expired certificate has a
    negative count and is still reported as [valid]. *)
Theorem certificate_warning_window clock (options : RequestOptions)
    (c : Certificate) (w : World) :
  ro_checkSsl options = Some true ->
  cert_valid_to c <> EmptyString ->
  let now := clock (w_ticks w) in
  let day := 24 * 60 * 60 * 1000 in
  exists info,
    peerSslInfo clock true options (Some c) w = Ok (Some info) (set_ticks (S (w_ticks w)) w)
    /\ ssl_validTo info = cert_valid_to c
    /\ ssl_valid info = true
    /\ ssl_daysRemaining info * day <= cert_valid_to_ms c - now
       < (ssl_daysRemaining info + 1) * day
    /\ (ssl_daysRemaining info <= SSL_WARNING_DAYS
        <-> cert_valid_to_ms c - now < 15 * day)
    /\ (ssl_daysRemaining info < 0 <-> cert_valid_to_ms c < now).
Proof.
  intros Hon Hto now day. unfold peerSslInfo. rewrite Hon. simpl.
  destruct (cert_valid_to c) as [|a s] eqn:E; [done|]. simpl. unfold_m.
  eexists. split; [reflexivity|]. simpl. fold now.
  change (1000 * 60 * 60 * 24) with day.
  assert (Hday : 0 < day) by (unfold day; lia).
  pose proof (Z.div_mod (cert_valid_to_ms c - now) day ltac:(lia)) as Hdm.
  pose proof (Z.mod_pos_bound (cert_valid_to_ms c - now) day Hday) as Hmod.
  set (d := (cert_valid_to_ms c - now) / day) in *.
  unfold SSL_WARNING_DAYS. repeat split; try done; try nia.
Qed.

Lemma certificate_warning_window_witness :
  exists info,
    peerSslInfo Sample.clock true
      (request_options (Sample.target_https "foo") no_settings)
      (Some Sample.cert_10_days) fresh_world
    = Ok (Some info) (set_ticks 1 fresh_world)
    /\ ssl_daysRemaining info <= SSL_WARNING_DAYS.
Proof.
  destruct (certificate_warning_window Sample.clock
              (request_options (Sample.target_https "foo") no_settings)
              Sample.cert_10_days fresh_world)
    as (info & Hrun & _ & _ & _ & Hwarn & _).
  - reflexivity.
  - discriminate.
  - exists info. split; [exact Hrun|]. apply Hwarn. vm_compute. reflexivity.
Defined.

(** ** Timers *)













Lemma after_probes_retentions clock config urlConfig prevState result :
  keeps retentions (after_probes clock config urlConfig prevState result).
Proof.
  unfold after_probes. apply keeps_bind.
  { intros w. unfold recordCheck, prune, save. unfold_m.
    destruct (checks (w_store w) !! uc_name urlConfig), result; reflexivity. }
  intros _. destruct result as [result|]; [|apply keeps_throw].
  apply keeps_bind; [by intros w|]. intros _.
  apply keeps_bind.
  { intros w. unfold status_alert, addIncident, resolveIncident, set_lastAlert. unfold_m.
    split_cases; reflexivity. }
  intros _. apply keeps_bind.
  { intros w. unfold ssl_alert, set_lastAlert. unfold_m. split_cases; reflexivity. }
  intros _. by intros w.
Qed.

Lemma runCheck_retentions clock net parseUrl resolveUrl getConfig urlConfig :
  keeps retentions (runCheck clock net parseUrl resolveUrl getConfig urlConfig).
Proof.
  intros w. destruct getConfig as [config|]; [|done].
  rewrite runCheck_unfold.
  pose proof (checkWithRetry_frame clock net parseUrl resolveUrl urlConfig config w) as Hf.
  destruct (checkWithRetry _ _ _ _ _ _ _) as [result w1|msg w1]; simpl in Hf;
    destruct Hf as ((_ & Hstore & Hstatus) & _).
  - rewrite after_probes_retentions. unfold retentions. by rewrite Hstore, Hstatus.
  - simpl. unfold retentions. by rewrite Hstore, Hstatus.
Qed.

Lemma scheduleChecks_retentions clock net parseUrl resolveUrl getConfig :
  keeps retentions (scheduleChecks clock net parseUrl resolveUrl getConfig).
Proof.
  unfold scheduleChecks. apply keeps_bind; [by intros w|]. intros st.
  apply keeps_bind; [by intros w|]. intros _.
  destruct getConfig as [config|]; [|apply keeps_ret].
  destruct (urls config) as [urls|]; [|apply keeps_ret].
  apply keeps_for_each. intros urlConfig.
  apply keeps_bind; [apply runCheck_retentions|]. intros _.
  apply keeps_bind; [by intros w|]. intros _.
  apply keeps_bind; [by intros w|]. intros st'. by intros w.
Qed.

(** X11. [main] starts the store and the status page with the configured
    retention (5 days when absent or 0). A later configuration change
    sets the status page's retention hours from the new configuration but
    never the store's retention: the history keeps being pruned with the
    retention read at start-up. *)
Theorem reload_never_changes_store_retention clock net parseUrl resolveUrl
    (config newConfig : Config) (w : World) :
  let started := world_of (main clock net parseUrl resolveUrl (Some config) w) in
  let reloaded :=
    world_of (configChanged clock net parseUrl resolveUrl newConfig started) in
  retentions started = (configured_retention config, configured_retention config * 24)
  /\ retentions reloaded
     = (configured_retention config, configured_retention newConfig * 24).
Proof.
  intros started reloaded.
  assert (Hs : retentions started
               = (configured_retention config, configured_retention config * 24)).
  { subst started. unfold main. fold (configured_retention config).
    unfold initStore, setRetentionHours. unfold_m. simpl.
    by rewrite scheduleChecks_retentions. }
  split; [exact Hs|]. subst reloaded. unfold configChanged.
  fold (configured_retention newConfig).
  unfold setRetentionHours. unfold_m. simpl.
  rewrite scheduleChecks_retentions. unfold retentions in *. simpl.
  by injection Hs as -> _.
Qed.

Lemma append_assoc (s t u : string) : (s +:+ t) +:+ u = s +:+ (t +:+ u).
Proof.
  induction s as [|a s IH]; [done|]. by rewrite !append_String, IH.
Qed.

Lemma replace_all_app c by_ s t :
  replace_all c by_ (s +:+ t) = replace_all c by_ s +:+ replace_all c by_ t.
Proof.
  induction s as [|a s IH]; [done|].
  rewrite append_String. simpl. destruct (Ascii.eqb a c).
  - rewrite IH. symmetry. apply append_assoc.
  - by rewrite append_String, IH.
Qed.

Lemma escapeHtml_escaped (s : string) : escapeHtml (Some s) = escaped s.
Proof.
  unfold escapeHtml. destruct s as [|a0 s0]; [done|]. simpl JS.truthy_str. simpl negb.
  cbv iota. simpl default.
  generalize (String a0 s0). clear. intros s.
  induction s as [|a s IH]; [done|].
  cbn [escaped replace_all]. unfold entity.
  destruct (Ascii.eqb a chr_amp) eqn:Ea.
  { rewrite !replace_all_app, IH. reflexivity. }
  cbn [replace_all].
  destruct (Ascii.eqb a chr_lt) eqn:El.
  { rewrite !replace_all_app, IH. reflexivity. }
  cbn [replace_all].
  destruct (Ascii.eqb a chr_gt) eqn:Eg.
  { rewrite !replace_all_app, IH. reflexivity. }
  cbn [replace_all].
  destruct (Ascii.eqb a chr_quot) eqn:Eq.
  { by rewrite IH. }
  by rewrite IH.
Qed.

Lemma chars_append (s t : string) :
  Strings.String.list_ascii_of_string (s +:+ t) = Strings.String.list_ascii_of_string s ++ Strings.String.list_ascii_of_string t.
Proof.
  induction s as [|a s IH]; [done|]. rewrite append_String. simpl. by rewrite IH.
Qed.

(** The five kinds of character [escapeHtml] tells apart. *)
Lemma entity_cases (a : Ascii.ascii) :
  (a = chr_amp /\ entity a = "&amp;") \/ (a = chr_lt /\ entity a = "&lt;")
  \/ (a = chr_gt /\ entity a = "&gt;") \/ (a = chr_quot /\ entity a = "&quot;")
  \/ (a <> chr_amp /\ a <> chr_lt /\ a <> chr_gt /\ a <> chr_quot /\ entity a = String a EmptyString).
Proof.
  unfold entity.
  destruct (Ascii.eqb a chr_amp) eqn:Ea; [apply Ascii.eqb_eq in Ea; tauto|].
  destruct (Ascii.eqb a chr_lt) eqn:El; [apply Ascii.eqb_eq in El; tauto|].
  destruct (Ascii.eqb a chr_gt) eqn:Eg; [apply Ascii.eqb_eq in Eg; tauto|].
  destruct (Ascii.eqb a chr_quot) eqn:Eq; [apply Ascii.eqb_eq in Eq; tauto|].
  apply Ascii.eqb_neq in Ea, El, Eg, Eq. tauto.
Qed.

Lemma escaped_inj (s t : string) : escaped s = escaped t -> s = t.
Proof.
  revert t. induction s as [|a s IH]; intros [|b t]; cbn [escaped].
  - done.
  - intros H. exfalso.
    destruct (entity_cases b) as [[_ E]|[[_ E]|[[_ E]|[[_ E]|(_ & _ & _ & _ & E)]]]];
      rewrite E in H; discriminate H.
  - intros H. exfalso.
    destruct (entity_cases a) as [[_ E]|[[_ E]|[[_ E]|[[_ E]|(_ & _ & _ & _ & E)]]]];
      rewrite E in H; discriminate H.
  - intros H.
    destruct (entity_cases a) as [[-> E]|[[-> E]|[[-> E]|[[-> E]|(? & ? & ? & ? & E)]]]];
    destruct (entity_cases b) as [[-> F]|[[-> F]|[[-> F]|[[-> F]|(? & ? & ? & ? & F)]]]];
      rewrite ?E, ?F in H; rewrite ?append_String in H;
      try discriminate H;
      try (injection H as H; f_equal; by apply IH);
      try (injection H as ? H; subst; done).
    injection H as -> H. f_equal. by apply IH.
Qed.

(** X12. [escapeHtml] maps [null], [undefined] and the empty string to the
    empty string; otherwise its four replacements amount to one pass that
    writes [&amp;], [&lt;], [&gt;] and [&quot;] for the ampersand, the angle
    brackets and the double quote and copies every other character (the
    apostrophe included): no ampersand is escaped twice. The result holds
    none of [<], [>] and the double quote, and different strings have
    different results. *)
Theorem escapeHtml_is_one_safe_pass (s t : string) :
  escapeHtml None = EmptyString
  /\ escapeHtml (Some s) = escaped s
  /\ (forall c, In c (Strings.String.list_ascii_of_string (escapeHtml (Some s))) ->
        c <> chr_lt /\ c <> chr_gt /\ c <> chr_quot)
  /\ (escapeHtml (Some s) = escapeHtml (Some t) -> s = t).
Proof.
  split; [done|]. split; [apply escapeHtml_escaped|]. split.
  - rewrite escapeHtml_escaped. induction s as [|a s IH]; [done|].
    cbn [escaped]. intros c. rewrite chars_append, in_app_iff. intros [Hc|Hc]; [|by apply IH].
    destruct (entity_cases a) as [[_ E]|[[_ E]|[[_ E]|[[_ E]|(_ & ? & ? & ? & E)]]]];
      rewrite E in Hc; simpl in Hc;
      repeat match goal with
        | H : _ \/ _ |- _ => destruct H as [<-|H]
        | H : False |- _ => destruct H
        end; repeat split; try done.
  - rewrite !escapeHtml_escaped. apply escaped_inj.
Qed.

(** X13. [formatTime] reads the clock once and words the age of an instant:
    [just now] below one minute, also for an instant in the future; then
    whole minutes from 1 to 59, whole hours from 1 to 23, whole days from
    1 to 6, each rounded down; from seven days on, the locale's date. *)
Theorem formatTime_words_the_age clock toLocaleDateString (iso : Z) (w : World) :
  let age := clock (w_ticks w) - iso in
  exists text,
    formatTime clock toLocaleDateString iso w = Ok text (set_ticks (S (w_ticks w)) w)
    /\ (age < 60000 -> text = "just now")
    /\ (60000 <= age < 3600000 ->
        exists n, 1 <= n <= 59 /\ n * 60000 <= age < (n + 1) * 60000
                  /\ text = pretty n +:+ "m ago")
    /\ (3600000 <= age < 86400000 ->
        exists n, 1 <= n <= 23 /\ n * 3600000 <= age < (n + 1) * 3600000
                  /\ text = pretty n +:+ "h ago")
    /\ (86400000 <= age < 604800000 ->
        exists n, 1 <= n <= 6 /\ n * 86400000 <= age < (n + 1) * 86400000
                  /\ text = pretty n +:+ "d ago")
    /\ (604800000 <= age -> text = toLocaleDateString iso).
Proof.
  intros age. unfold formatTime. unfold_m. fold age.
  pose proof (Z.div_mod age 60000 ltac:(lia)) as Hm.
  pose proof (Z.mod_pos_bound age 60000 ltac:(lia)) as Hm'.
  pose proof (Z.div_mod age 3600000 ltac:(lia)) as Hh.
  pose proof (Z.mod_pos_bound age 3600000 ltac:(lia)) as Hh'.
  pose proof (Z.div_mod age 86400000 ltac:(lia)) as Hd.
  pose proof (Z.mod_pos_bound age 86400000 ltac:(lia)) as Hd'.
  set (mins := age / 60000) in *. set (hours := age / 3600000) in *.
  set (days := age / 86400000) in *.
  destruct (mins <? 1) eqn:E1.
  { eexists. split; [reflexivity|]. repeat split; try done; intros; lia. }
  destruct (mins <? 60) eqn:E2.
  { eexists. split; [reflexivity|]. repeat split; try (intros; lia).
    intros _. exists mins. repeat split; try lia. }
  destruct (hours <? 24) eqn:E3.
  { eexists. split; [reflexivity|]. repeat split; try (intros; lia).
    intros _. exists hours. repeat split; lia. }
  destruct (days <? 7) eqn:E4.
  { eexists. split; [reflexivity|]. repeat split; try (intros; lia).
    intros _. exists days. repeat split; lia. }
  eexists. split; [reflexivity|]. repeat split; intros; (done || lia).
Qed.

Lemma first_occurrences_elem l x : x ∈ first_occurrences l <-> x ∈ l.
Proof.
  induction l as [|y l IH]; [done|]. simpl.
  rewrite !elem_of_cons, <- IH, !list_elem_of_In, filter_In.
  destruct (String.eqb x y) eqn:E.
  - apply String.eqb_eq in E. subst. tauto.
  - apply String.eqb_neq in E. simpl. split; [tauto|]. intros [?|?]; [done|]. tauto.
Qed.

Lemma first_occurrences_snoc l x :
  first_occurrences (l ++ [x])
  = if bool_decide (x ∈ l) then first_occurrences l else first_occurrences l ++ [x].
Proof.
  induction l as [|y l IH]; [done|]. simpl. rewrite IH.
  destruct (decide (x = y)) as [->|Hne].
  - rewrite (bool_decide_eq_true_2 (y ∈ y :: l)) by apply list_elem_of_here.
    case_bool_decide as Hin; [done|].
    rewrite List.filter_app. simpl. rewrite String.eqb_refl. simpl. by rewrite app_nil_r.
  - destruct (decide (x ∈ l)) as [Hin|Hin].
    + rewrite (bool_decide_eq_true_2 (x ∈ l)) by done.
      by rewrite (bool_decide_eq_true_2 (x ∈ y :: l)) by (apply elem_of_cons; by right).
    + rewrite (bool_decide_eq_false_2 (x ∈ l)) by done.
      rewrite (bool_decide_eq_false_2 (x ∈ y :: l))
        by (intros [?|?]%elem_of_cons; done).
      rewrite List.filter_app. simpl.
      assert (E : String.eqb x y = false) by (by apply String.eqb_neq).
      by rewrite E.
Qed.

Lemma in_category_same svc : in_category (category_of svc) svc = true.
Proof. apply String.eqb_refl. Qed.

Lemma in_category_other category svc :
  category <> category_of svc -> in_category category svc = false.
Proof. intros Hne. apply String.eqb_neq. congruence. Qed.

Lemma filter_in_category_none category (services : list UrlState) :
  category ∉ map category_of services ->
  List.filter (in_category category) services = [].
Proof.
  induction services as [|s l IH]; [done|]. simpl. intros Hin.
  apply not_elem_of_cons in Hin as [Hne Hin].
  rewrite in_category_other by done. by apply IH.
Qed.

(** The grouping loop, from the start to any point of the list. *)
Lemma group_services_spec (services : list UrlState) :
  Forall (fun svc => category_of svc ∉ Object_prototype) services ->
  exists groupedServices,
    group_services services
    = Returned (first_occurrences (map category_of services), groupedServices)
    /\ forall category,
         groupedServices !! category
         = if bool_decide (category ∈ map category_of services)
           then Some (List.filter (in_category category) services)
           else None.
Proof.
  unfold group_services. induction services as [|svc services IH] using rev_ind.
  - intros _. exists ∅. split; [done|]. intros c. by rewrite lookup_empty.
  - intros Hok. apply Forall_app in Hok as [Hok Hsvc]. rewrite Forall_singleton in Hsvc.
    destruct (IH Hok) as (grouped & Hrun & Hlook).
    rewrite foldl_app. simpl. rewrite Hrun. simpl.
    rewrite map_app. cbn [map]. rewrite first_occurrences_snoc.
    rewrite Hlook.
    assert (Hother : forall c, c <> category_of svc ->
              (if bool_decide (c ∈ map category_of services ++ [category_of svc])
               then Some (List.filter (in_category c) (services ++ [svc])) else None)
              = grouped !! c).
    { intros c Hne. rewrite Hlook, List.filter_app. simpl.
      rewrite in_category_other, app_nil_r by done.
      destruct (decide (c ∈ map category_of services)) as [Hc|Hc].
      - rewrite !bool_decide_eq_true_2; [done | done | apply elem_of_app; by left].
      - rewrite !bool_decide_eq_false_2; [done | done |].
        intros [?|?%list_elem_of_singleton]%elem_of_app; done. }
    assert (Hsame : bool_decide (category_of svc ∈ map category_of services ++ [category_of svc])
                    = true).
    { apply bool_decide_eq_true_2, elem_of_app. right. apply list_elem_of_here. }
    destruct (decide (category_of svc ∈ map category_of services)) as [Hin|Hin].
    + rewrite !(bool_decide_eq_true_2 _ Hin).
      eexists. split; [reflexivity|]. intros c.
      destruct (decide (c = category_of svc)) as [->|Hne].
      * rewrite lookup_insert_eq, Hsame, List.filter_app. simpl.
        by rewrite in_category_same.
      * rewrite lookup_insert_ne by done. by rewrite Hother.
    + rewrite !(bool_decide_eq_false_2 _ Hin).
      rewrite (bool_decide_eq_false_2 _ Hsvc).
      eexists. split; [reflexivity|]. intros c.
      destruct (decide (c = category_of svc)) as [->|Hne].
      * rewrite lookup_insert_eq, Hsame, List.filter_app. simpl.
        by rewrite in_category_same, filter_in_category_none.
      * rewrite lookup_insert_ne by done. by rewrite Hother.
Qed.

Lemma first_occurrences_NoDup l : NoDup (first_occurrences l).
Proof.
  induction l as [|x l IH]; [constructor|]. simpl. apply NoDup_cons. split.
  - rewrite list_elem_of_In, filter_In, String.eqb_refl. simpl. by intros [_ ?].
  - eapply sublist_NoDup; [exact IH | apply filter_sublist].
Qed.

(** X14. The grouping of the services on the status page. When no category
    is the name of a property every object inherits, the loop returns the
    categories in order of first appearance, without repetition, and files
    under each category exactly the services of that category, in the
    order of the service list ([Uncategorized] standing for a missing or
    empty category), so every service is shown once. When some service's
    category is such a name ([constructor], [toString], ...), the loop
    throws. *)
Theorem services_are_grouped_by_category (services : list UrlState) :
  (Forall (fun svc => category_of svc ∉ Object_prototype) services ->
   exists groupedServices,
     let categories := first_occurrences (map category_of services) in
     group_services services = Returned (categories, groupedServices)
     /\ NoDup categories
     /\ (forall category, category ∈ categories <->
           exists svc, In svc services /\ category_of svc = category)
     /\ (forall category, category ∈ categories ->
           groupedServices !! category
           = Some (List.filter (in_category category) services))
     /\ (forall category, category ∉ categories -> groupedServices !! category = None)
     /\ (forall svc, In svc services ->
           In svc (default [] (groupedServices !! category_of svc))))
  /\ (~ Forall (fun svc => category_of svc ∉ Object_prototype) services ->
      exists msg, group_services services = Thrown msg).
Proof.
  split.
  - intros Hok. destruct (group_services_spec services Hok) as (grouped & Hrun & Hlook).
    exists grouped. simpl. split; [exact Hrun|].
    split; [apply first_occurrences_NoDup|]. split; [|split; [|split]].
    + intros c. rewrite first_occurrences_elem, list_elem_of_fmap. split.
      * intros (svc & -> & Hin). exists svc. split; [by apply list_elem_of_In | done].
      * intros (svc & Hin & <-). exists svc. split; [done | by apply list_elem_of_In].
    + intros c Hc. rewrite first_occurrences_elem in Hc.
      by rewrite Hlook, bool_decide_eq_true_2.
    + intros c Hc. rewrite first_occurrences_elem in Hc.
      by rewrite Hlook, bool_decide_eq_false_2.
    + intros svc Hin. rewrite Hlook, bool_decide_eq_true_2.
      * simpl. apply filter_In. split; [done | apply in_category_same].
      * apply list_elem_of_fmap. exists svc. split; [done | by apply list_elem_of_In].
  - intros Hbad. apply not_Forall_Exists in Hbad; [|intros svc; apply _].
    induction services as [|svc services IH] using rev_ind.
    + by apply Exists_nil in Hbad.
    + unfold group_services in *. rewrite foldl_app. simpl.
      destruct (decide (Forall (fun svc => category_of svc ∉ Object_prototype) services))
        as [Hok|Hnot].
      * apply Exists_app in Hbad as [Hbad|Hbad].
        { exfalso. apply Exists_exists in Hbad as (x & Hx & Hbad).
          rewrite Forall_forall in Hok. by apply Hbad, Hok. }
        apply Exists_cons in Hbad as [Hbad|Hbad]; [|by apply Exists_nil in Hbad].
        simpl in Hbad. apply dec_stable in Hbad.
        destruct (group_services_spec services Hok) as (grouped & Hrun & Hlook).
        unfold group_services in Hrun. rewrite Hrun. simpl.
        rewrite Hlook, bool_decide_eq_false_2.
        -- rewrite bool_decide_eq_true_2 by done. by eexists.
        -- intros (x & Hx & Hin)%list_elem_of_fmap.
           rewrite Forall_forall in Hok. apply (Hok x Hin). by rewrite <- Hx.
      * apply not_Forall_Exists in Hnot; [|intros x; apply _].
        destruct (IH Hnot) as (msg & ->). by exists msg.
Qed.

Lemma services_are_grouped_by_category_witness :
  exists groupedServices,
    group_services Scenario.services = Returned (["Core"; "Uncategorized"], groupedServices)
    /\ map us_name (default [] (groupedServices !! "Core")) = ["api"; "db"]
    /\ map us_name (default [] (groupedServices !! "Uncategorized")) = ["blog"; "mail"].
Proof.
  destruct (proj1 (services_are_grouped_by_category Scenario.services))
    as (grouped & Hrun & _ & _ & Hlook & _).
  - apply (bool_decide_unpack _). vm_compute. exact I.
  - exists grouped. split; [exact Hrun|]. split.
    + rewrite Hlook; [reflexivity|]. vm_compute. apply list_elem_of_here.
    + rewrite Hlook; [reflexivity|]. vm_compute. apply list_elem_of_further, list_elem_of_here.
Defined.

Example category_named_constructor_throws :
  group_services [Scenario.service "api" (Some "constructor") Up]
  = Thrown "TypeError: groupedServices[category].push is not a function".
Proof. reflexivity. Qed.




(** ** Notifications *)

Section NotifyProps.

Variable env : gmap string string.
Variable sendMail : nat -> Transport -> Mail -> option string.
Variable toISOString : Z -> string.

Lemma sendEmail_configured to subject body (st : Notifier) :
  let config := getSmtpConfig env in
  let t := default (transport_of config) (transporter st) in
  let mail := mkMail (sender config) to subject body in
  smtp_enabled config = true ->
  smtp_host config <> "localhost" ->
  sendEmail env sendMail to subject body st
  = mkNotifier (Some t) (outbox st ++ [mail])
      (console st ++ [delivery_line to (sendMail (length (outbox st)) t mail)]).
Proof.
  intros config t mail Hon Hhost. unfold sendEmail. fold config. rewrite Hon.
  assert (Ehost : String.eqb (smtp_host config) "localhost" = false)
    by (by apply String.eqb_neq).
  assert (Etruthy : JS.truthy_str (Some (smtp_host config)) = true).
  { unfold config, getSmtpConfig. simpl. unfold JS.str_or.
    by destruct (env !! "SMTP_HOST") as [[|a s]|]. }
  rewrite Ehost, Etruthy. cbn [negb orb]. fold (sender config). fold mail.
  unfold getTransporter. fold config. fold (transport_of config).
  subst t. destruct st as [[t0|] sent lines]; cbn [transporter outbox console default];
    destruct (sendMail _ _ _); reflexivity.
Qed.

Lemma sendEmail_unconfigured to subject body (st : Notifier) :
  let config := getSmtpConfig env in
  smtp_enabled config = false \/ smtp_host config = "localhost" ->
  sendEmail env sendMail to subject body st
  = mkNotifier (transporter st) (outbox st)
      (console st ++ logged_instead subject body to).
Proof.
  intros config Hoff. unfold sendEmail. fold config.
  assert (E : negb (smtp_enabled config)
              || negb (JS.truthy_str (Some (smtp_host config)))
              || String.eqb (smtp_host config) "localhost" = true).
  { destruct Hoff as [->| ->]; [done|]. by rewrite orb_true_r. }
  rewrite E. unfold log. simpl. by rewrite <- !app_assoc.
Qed.

Lemma send_to_all_configured emails subject body (st : Notifier) :
  let config := getSmtpConfig env in
  let t := default (transport_of config) (transporter st) in
  smtp_enabled config = true ->
  smtp_host config <> "localhost" ->
  emails <> [] ->
  send_to_all env sendMail emails subject body st
  = mkNotifier (Some t)
      (outbox st ++ map (fun to => mkMail (sender config) to subject body) emails)
      (console st
       ++ deliveries sendMail t (sender config) subject body (length (outbox st)) emails).
Proof.
  intros config t Hon Hhost. subst t. unfold send_to_all.
  revert st. induction emails as [|to emails IH]; intros st Hne; [done|].
  simpl. rewrite sendEmail_configured by done. fold config.
  destruct emails as [|to' emails'].
  - simpl. reflexivity.
  - rewrite IH by done. simpl. rewrite <- !app_assoc. simpl.
    rewrite length_app. simpl.
    replace (length (outbox st) + 1)%nat with (S (length (outbox st))) by lia.
    reflexivity.
Qed.

Lemma send_to_all_unconfigured emails subject body (st : Notifier) :
  let config := getSmtpConfig env in
  smtp_enabled config = false \/ smtp_host config = "localhost" ->
  send_to_all env sendMail emails subject body st
  = mkNotifier (transporter st) (outbox st)
      (console st ++ flat_map (logged_instead subject body) emails).
Proof.
  intros config Hoff. unfold send_to_all.
  revert st. induction emails as [|to emails IH]; intros st.
  - simpl. rewrite app_nil_r. by destruct st.
  - cbn [foldl]. rewrite sendEmail_unconfigured by done. rewrite IH.
    cbn [transporter outbox console flat_map]. by rewrite <- app_assoc.
Qed.

End NotifyProps.

(** X16. The three notifications run the same loop over the configured
    addresses. When SMTP is enabled and a host other than [localhost] is
    set, the loop hands one message per address to the transport, in
    order, all with the notification's subject and body and the configured
    sender, through the transport created at the first message of the
    process; the console gets one line per address, telling whether the
    message was accepted: a rejected message does not keep the later
    addresses from being tried. Otherwise nothing is handed to the
    transport, no transport is created, and four console lines stand for
    each message. *)
Theorem notifications_go_to_every_address (env : gmap string string)
    (sendMail : nat -> Transport -> Mail -> option string) (toISOString : Z -> string)
    (urlConfig : UrlConfig) (result : CheckResult) (sslInfo : SslInfo)
    (emails : list string) (subject body : string) (st : Notifier) :
  let config := getSmtpConfig env in
  let t := default (transport_of config) (transporter st) in
  let st' := send_to_all env sendMail emails subject body st in
  notifyDown env sendMail toISOString urlConfig result emails
  = send_to_all env sendMail emails (subject_down urlConfig)
      (body_down toISOString urlConfig result)
  /\ notifyUp env sendMail toISOString urlConfig result emails
     = send_to_all env sendMail emails (subject_up urlConfig)
         (body_up toISOString urlConfig result)
  /\ notifySslExpiring env sendMail urlConfig sslInfo emails
     = send_to_all env sendMail emails (subject_ssl urlConfig) (body_ssl urlConfig sslInfo)
  /\ (smtp_enabled config = true -> smtp_host config <> "localhost" ->
      outbox st'
      = outbox st ++ map (fun to => mkMail (sender config) to subject body) emails
      /\ console st'
         = console st
           ++ deliveries sendMail t (sender config) subject body (length (outbox st)) emails
      /\ length (console st') = (length (console st) + length emails)%nat
      /\ (emails <> [] -> transporter st' = Some t))
  /\ (smtp_enabled config = false \/ smtp_host config = "localhost" ->
      outbox st' = outbox st
      /\ transporter st' = transporter st
      /\ console st' = console st ++ flat_map (logged_instead subject body) emails).
Proof.
  intros config t st'. split; [done|]. split; [done|]. split; [done|]. split.
  - intros Hon Hhost. destruct (decide (emails = [])) as [->|Hne].
    + subst st'. simpl. rewrite !app_nil_r. repeat split; [lia | done].
    + subst st'.
      rewrite (send_to_all_configured env sendMail emails subject body st Hon Hhost Hne).
      cbn [outbox console transporter]. fold config. repeat split.
      rewrite length_app. f_equal.
      generalize (length (outbox st)). clear. induction emails as [|to emails IH]; intros k.
      * reflexivity.
      * simpl. by rewrite IH.
  - intros Hoff. subst st'.
    by rewrite (send_to_all_unconfigured env sendMail emails subject body st Hoff).
Qed.

Lemma notifications_go_to_every_address_witness :
  map mail_to
    (outbox (notifyDown Scenario3.env_smtp Scenario3.sendMail_first_fails
               Scenario3.toISOString (Sample.target "A") Scenario3.failed_probe
               ["ops@example.org"; "dev@example.org"] Scenario3.no_notifier))
  = ["ops@example.org"; "dev@example.org"]
  /\ console (notifyDown Scenario3.env_smtp Scenario3.sendMail_first_fails
                Scenario3.toISOString (Sample.target "A") Scenario3.failed_probe
                ["ops@example.org"; "dev@example.org"] Scenario3.no_notifier)
     = ["[notify] Failed to send email: Mailbox unavailable";
        "[notify] Email sent to dev@example.org"].
Proof.
  destruct (notifications_go_to_every_address Scenario3.env_smtp
              Scenario3.sendMail_first_fails Scenario3.toISOString (Sample.target "A")
              Scenario3.failed_probe
              (mkSslInfo true EmptyString EmptyString None None 0)
              ["ops@example.org"; "dev@example.org"]
              (subject_down (Sample.target "A"))
              (body_down Scenario3.toISOString (Sample.target "A") Scenario3.failed_probe)
              Scenario3.no_notifier)
    as (Hdown & _ & _ & Hon & _).
  destruct Hon as (Hout & Hcon & _); [reflexivity | discriminate |].
  rewrite Hdown, Hout, Hcon. split; reflexivity.
Defined.

(** ** Message texts *)

Lemma trimEnd_nonempty_app (s t : string) :
  Str.trimEnd t <> EmptyString -> Str.trimEnd (s +:+ t) = s +:+ Str.trimEnd t.
Proof.
  intros Hne. induction s as [|a s IH]; [done|].
  rewrite !append_String. cbn [Str.trimEnd]. rewrite IH.
  destruct (s +:+ Str.trimEnd t) eqn:E; [|done].
  destruct s; [|discriminate E]. by destruct (Str.trimEnd t).
Qed.

Lemma trimEnd_nl (s : string) : Str.trimEnd (s +:+ Str.nl) = Str.trimEnd s.
Proof.
  induction s as [|a s IH]; [done|].
  rewrite append_String. cbn [Str.trimEnd]. by rewrite IH.
Qed.

Lemma trimEnd_cons_nonempty a (s : string) :
  Str.trimEnd s <> EmptyString -> Str.trimEnd (String a s) = String a (Str.trimEnd s).
Proof. intros Hne. cbn [Str.trimEnd]. by destruct (Str.trimEnd s). Qed.

(** A template between two line feeds, trimmed: [text] does not start
    with white space and [last] does not end with it. *)
Lemma trim_template (text last : string) :
  Str.trimStart (text +:+ last +:+ Str.nl) = text +:+ last +:+ Str.nl ->
  Str.trimEnd last = last -> last <> EmptyString ->
  Str.trim (Str.nl +:+ text +:+ last +:+ Str.nl) = text +:+ last.
Proof.
  intros Hstart Hkeep Hne. unfold Str.trim.
  assert (E : Str.trimStart (Str.nl +:+ text +:+ last +:+ Str.nl)
              = Str.trimStart (text +:+ last +:+ Str.nl)) by reflexivity.
  rewrite E, Hstart.
  rewrite trimEnd_nonempty_app; rewrite trimEnd_nl, Hkeep; done.
Qed.

(** X17. The text of the down notification: the template's seven lines
    without the line feeds around them. The error line reads
    [Unknown error] when the outcome carries no error or an empty one, the
    response time line reads [N/A] when the response time is missing or 0,
    and the status code line reads [N/A] when there is no status code. *)
Theorem down_message_text (toISOString : Z -> string)
    (urlConfig : UrlConfig) (result : CheckResult) :
  let time := toISOString (cr_timestamp result) in
  Str.trimEnd time = time -> time <> EmptyString ->
  body_down toISOString urlConfig result
  = "Service: " +:+ uc_name urlConfig +:+ Str.nl
    +:+ "URL: " +:+ uc_url urlConfig +:+ Str.nl
    +:+ "Status: DOWN" +:+ Str.nl
    +:+ "Error: "
    +:+ match cr_error result with
        | Some (String a e) => String a e
        | _ => "Unknown error"
        end +:+ Str.nl
    +:+ "Response Time: "
    +:+ match cr_responseTime result with
        | Some ms => if ms =? 0 then "N/A" else pretty ms +:+ "ms"
        | None => "N/A"
        end +:+ Str.nl
    +:+ "Status Code: "
    +:+ match cr_statusCode result with
        | Some code => if code =? 0 then "N/A" else pretty code
        | None => "N/A"
        end +:+ Str.nl
    +:+ "Time: " +:+ time.
Proof.
  intros time Hkeep Hne. unfold body_down. fold time.
  set (error := JS.str_or (cr_error result) "Unknown error").
  set (rt := if JS.truthy_num (cr_responseTime result) then _ else _).
  set (code := if JS.truthy_num (cr_statusCode result) then _ else _).
  assert (Ee : match cr_error result with
               | Some (String a e) => String a e
               | _ => "Unknown error"
               end = error).
  { subst error. unfold JS.str_or. by destruct (cr_error result) as [[|a e]|]. }
  assert (Er : match cr_responseTime result with
               | Some ms => if ms =? 0 then "N/A" else pretty ms +:+ "ms"
               | None => "N/A"
               end = rt).
  { subst rt. unfold JS.truthy_num. destruct (cr_responseTime result) as [ms|]; [|done].
    simpl. by destruct (ms =? 0). }
  assert (Ec : match cr_statusCode result with
               | Some c => if c =? 0 then "N/A" else pretty c
               | None => "N/A"
               end = code).
  { subst code. unfold JS.truthy_num. destruct (cr_statusCode result) as [c|]; [|done].
    simpl. by destruct (c =? 0). }
  rewrite Ee, Er, Ec.
  pose proof (trim_template
                ("Service: " +:+ uc_name urlConfig +:+ Str.nl
                 +:+ "URL: " +:+ uc_url urlConfig +:+ Str.nl
                 +:+ "Status: DOWN" +:+ Str.nl
                 +:+ "Error: " +:+ error +:+ Str.nl
                 +:+ "Response Time: " +:+ rt +:+ Str.nl
                 +:+ "Status Code: " +:+ code +:+ Str.nl +:+ "Time: ")
                time) as H.
  rewrite !append_assoc in H.
  apply H; [reflexivity | done | done].
Qed.

Lemma down_message_text_witness :
  body_down Scenario3.toISOString (Sample.target "A") Scenario3.failed_probe
  = "Service: A" +:+ Str.nl +:+ "URL: http://A/" +:+ Str.nl
    +:+ "Status: DOWN" +:+ Str.nl +:+ "Error: Unknown error" +:+ Str.nl
    +:+ "Response Time: N/A" +:+ Str.nl +:+ "Status Code: N/A" +:+ Str.nl
    +:+ "Time: 2023-11-14T22:13:21.000Z".
Proof.
  rewrite (down_message_text Scenario3.toISOString (Sample.target "A")
             Scenario3.failed_probe); [reflexivity | reflexivity | discriminate].
Defined.

(** ** Reloading the configuration *)

Lemma notify_loop listener_throws config (listeners : list nat) (cm : ConfigModule) :
  let cm' := foldl (notify_listener listener_throws config) cm listeners in
  cm_config cm' = cm_config cm /\ cm_configPath cm' = cm_configPath cm
  /\ cm_listeners cm' = cm_listeners cm
  /\ cm_calls cm' = cm_calls cm ++ map (fun l => (l, config)) listeners
  /\ cm_console cm'
     = cm_console cm
       ++ omap (fun l => (fun msg => "[config] Error in listener: " +:+ msg)
                           <$> listener_throws l config)
            listeners.
Proof.
  revert cm. induction listeners as [|l listeners IH]; intros cm; simpl.
  - by rewrite !app_nil_r.
  - destruct (IH (notify_listener listener_throws config cm l))
      as (Hc & Hp & Hl & Hcalls & Hcon).
    rewrite Hc, Hp, Hl, Hcalls, Hcon. simpl. rewrite <- !app_assoc.
    repeat split. f_equal. by destruct (listener_throws l config).
Qed.

(** X18. Reloading the configuration. A reload whose file cannot be read or
    parsed leaves the configuration in force, the listeners and the calls
    made as they are: [getConfig] keeps returning the last configuration
    that loaded. A reload that parses puts the new configuration in force
    and calls every registered listener once with it, in registration
    order; a listener that throws costs a console line, and the listeners
    after it are called all the same. Unsubscribing a callback removes
    every registration of it and no other. *)
Theorem reload_keeps_last_good_configuration listener_throws
    (parsed : Outcome Config) (callback : nat) (cm : ConfigModule) :
  let cm' := reload listener_throws parsed cm in
  cm_listeners cm' = cm_listeners cm
  /\ (forall msg, parsed = Thrown msg ->
        getConfig cm' = getConfig cm /\ cm_calls cm' = cm_calls cm)
  /\ (forall config, parsed = Returned config -> cm_configPath cm <> None ->
        cm_configPath cm <> Some EmptyString ->
        getConfig cm' = Some config
        /\ cm_calls cm' = cm_calls cm ++ map (fun l => (l, config)) (cm_listeners cm)
        /\ cm_console cm'
           = cm_console cm ++ ["[config] Loaded configuration"]
             ++ omap (fun l => (fun msg => "[config] Error in listener: " +:+ msg)
                                 <$> listener_throws l config)
                  (cm_listeners cm))
  /\ (forall l, In l (cm_listeners (unsubscribe callback cm))
        <-> In l (cm_listeners cm) /\ l <> callback)
  /\ cm_listeners (unsubscribe callback (onConfigChange callback (onConfigChange callback cm)))
     = cm_listeners (unsubscribe callback cm).
Proof.
  intros cm'. subst cm'. unfold reload, getConfig. split; [|split; [|split; [|split]]].
  - destruct (negb _); [done|]. destruct parsed as [config|msg]; [|done].
    unfold notifyListeners. simpl.
    by destruct (notify_loop listener_throws config (cm_listeners cm)
                   (mkConfigModule (Some config) (cm_configPath cm) (cm_listeners cm)
                      (cm_calls cm) (cm_console cm ++ ["[config] Loaded configuration"])))
      as (_ & _ & -> & _).
  - intros msg ->. by destruct (negb _).
  - intros config -> Hpath Hpath'.
    assert (E : JS.truthy_str (cm_configPath cm) = true).
    { by destruct (cm_configPath cm) as [[|a s]|]. }
    rewrite E. simpl. unfold notifyListeners. simpl.
    destruct (notify_loop listener_throws config (cm_listeners cm)
                (mkConfigModule (Some config) (cm_configPath cm) (cm_listeners cm)
                   (cm_calls cm) (cm_console cm ++ ["[config] Loaded configuration"])))
      as (-> & _ & _ & -> & ->).
    simpl. by rewrite <- app_assoc.
  - intros l. simpl. rewrite filter_In, negb_true_iff, Nat.eqb_neq. tauto.
  - simpl. rewrite !List.filter_app. simpl. rewrite Nat.eqb_refl. simpl.
    by rewrite !app_nil_r.
Qed.

Lemma reload_keeps_last_good_configuration_witness :
  cm_calls (reload Scenario4.first_throws (Returned Sample.config_zeros) Scenario4.loaded)
  = [(1%nat, Sample.config_zeros); (2%nat, Sample.config_zeros)]
  /\ getConfig (reload Scenario4.first_throws (Thrown "bad indentation") Scenario4.loaded)
     = Some Sample.config_single.
Proof.
  destruct (reload_keeps_last_good_configuration Scenario4.first_throws
              (Returned Sample.config_zeros) 1%nat Scenario4.loaded)
    as (_ & _ & Hok & _).
  destruct (Hok Sample.config_zeros eq_refl) as (_ & Hcalls & _); [done | done |].
  split; [exact Hcalls | reflexivity].
Defined.

(** ** The environment file *)

Lemma load_lines_lookup (lines : list string) (env : gmap string string) (key : string) :
  foldl Env.load_line env lines !! key
  = match env !! key with
    | Some v => Some v
    | None =>
        if bool_decide (key ∈ Object_prototype) then None
        else first_assignment key lines
    end.
Proof.
  revert env. induction lines as [|line lines IH]; intros env.
  - simpl. destruct (env !! key); [done|]. by destruct (bool_decide _).
  - cbn [foldl]. rewrite IH. unfold first_assignment. cbn [omap list_omap].
    unfold Env.load_line.
    destruct (Env.assignment line) as [[k v]|] eqn:E; [|done].
    unfold Env.undefined_in.
    destruct (decide (k = key)) as [->|Hne].
    + rewrite String.eqb_refl.
      destruct (env !! key) as [v0|] eqn:Ek.
      * rewrite bool_decide_eq_false_2 by done. simpl. by rewrite Ek.
      * rewrite bool_decide_eq_true_2 by done. simpl.
        destruct (bool_decide (key ∈ Object_prototype)) eqn:Ep; simpl.
        -- by rewrite Ek.
        -- by rewrite lookup_insert_eq.
    + assert (En : String.eqb k key = false) by (by apply String.eqb_neq).
      rewrite En.
      destruct (bool_decide (env !! k = None) && _); [|done].
      by rewrite lookup_insert_ne.
Qed.

(** X19. [loadEnv] never changes or removes a variable that is already set.
    A variable that is not set, and whose name no object inherits, gets
    the value of the first line of the file that assigns it: the text
    after the first [=], trimmed, without a quote at its start and without
    a quote at its end, under the trimmed text before that [=]; blank
    lines, lines starting with [#] and lines without a name before [=] are
    skipped. A missing or unreadable file leaves the environment as it
    is. *)
Theorem loadEnv_sets_only_unset_variables (file : FileRead)
    (env : gmap string string) (key : string) :
  (forall value, env !! key = Some value -> loadEnv file env !! key = Some value)
  /\ (forall content, file = FileContent content ->
        env !! key = None -> key ∉ Object_prototype ->
        loadEnv file env !! key
        = first_assignment key (Env.split (Ascii.ascii_of_nat 10) content))
  /\ (file = NoFile \/ (exists msg, file = ReadFails msg) -> loadEnv file env = env)
  /\ (key ∈ Object_prototype -> loadEnv file env !! key = env !! key).
Proof.
  split; [|split; [|split]].
  - intros value Hset. destruct file as [|msg|content]; simpl; [done | done |].
    by rewrite load_lines_lookup, Hset.
  - intros content -> Hunset Hown. simpl.
    by rewrite load_lines_lookup, Hunset, bool_decide_eq_false_2.
  - by intros [->|[msg ->]].
  - intros Hin. destruct file as [|msg|content]; simpl; [done | done |].
    rewrite load_lines_lookup. destruct (env !! key); [done|].
    by rewrite bool_decide_eq_true_2.
Qed.

Lemma loadEnv_sets_only_unset_variables_witness :
  loadEnv (FileContent Scenario5.dotenv) Scenario5.env_before !! "SMTP_HOST"
  = Some "mail.example.org"
  /\ loadEnv (FileContent Scenario5.dotenv) Scenario5.env_before !! "STATUS_PORT"
     = Some "3070".
Proof.
  split.
  - rewrite (proj1 (proj2 (loadEnv_sets_only_unset_variables
                             (FileContent Scenario5.dotenv) Scenario5.env_before
                             "SMTP_HOST")) Scenario5.dotenv eq_refl).
    + vm_compute. reflexivity.
    + reflexivity.
    + apply (bool_decide_unpack _). vm_compute. exact I.
  - apply (proj1 (loadEnv_sets_only_unset_variables
                    (FileContent Scenario5.dotenv) Scenario5.env_before "STATUS_PORT")).
    reflexivity.
Defined.

Example dotenv_is_read :
  loadEnv (FileContent Scenario5.dotenv) Scenario5.env_before
  = {["SMTP_HOST" := "mail.example.org"; "SMTP_PORT" := "465"; "STATUS_PORT" := "3070"]}.
Proof. vm_compute. reflexivity. Qed.

(** ** Scanning a line of the configuration file *)

Lemma scan_comment_unquoted (before after : string) prev (i : Z) :
  free_of Yaml.chr_squote before -> free_of Yaml.chr_dquote before ->
  free_of Yaml.chr_hash before ->
  Yaml.scan_comment (before +:+ String Yaml.chr_hash after) prev false false i
  = i + Z.of_nat (String.length before).
Proof.
  revert prev i. induction before as [|a before IH]; intros prev i Hs Hd Hh.
  - simpl. lia.
  - destruct Hs as [Hs Hs'], Hd as [Hd Hd'], Hh as [Hh Hh'].
    rewrite append_String. cbn [Yaml.scan_comment].
    apply Ascii.eqb_neq in Hs, Hd, Hh. rewrite Hs, Hd, Hh. simpl.
    rewrite IH by done. lia.
Qed.

Lemma scan_comment_none (line : string) prev inS inD (i : Z) :
  free_of Yaml.chr_hash line -> Yaml.scan_comment line prev inS inD i = -1.
Proof.
  revert prev inS inD i. induction line as [|a line IH]; intros prev inS inD i Hh; [done|].
  destruct Hh as [Hh Hh']. cbn [Yaml.scan_comment].
  apply Ascii.eqb_neq in Hh. rewrite Hh. simpl.
  destruct (_ && _ && _); [by apply IH|]. destruct (_ && _ && _); by apply IH.
Qed.

Lemma scan_comment_range (line : string) prev inS inD (i : Z) :
  let r := Yaml.scan_comment line prev inS inD i in
  r = -1
  \/ (i <= r < i + Z.of_nat (String.length line)
      /\ String.get (Z.to_nat (r - i)) line = Some Yaml.chr_hash).
Proof.
  revert prev inS inD i. induction line as [|a line IH]; intros prev inS inD i; [by left|].
  cbn [Yaml.scan_comment].
  assert (Hnext : forall prev' inS' inD',
            let r := Yaml.scan_comment line prev' inS' inD' (i + 1) in
            r = -1
            \/ (i <= r < i + Z.of_nat (String.length (String a line))
                /\ String.get (Z.to_nat (r - i)) (String a line) = Some Yaml.chr_hash)).
  { intros prev' inS' inD'. destruct (IH prev' inS' inD' (i + 1)) as [E|[Hr Hg]]; [by left|].
    right. cbn [String.length]. split; [lia|].
    replace (Z.to_nat (Yaml.scan_comment line prev' inS' inD' (i + 1) - i))
      with (S (Z.to_nat (Yaml.scan_comment line prev' inS' inD' (i + 1) - (i + 1)))) by lia.
    exact Hg. }
  destruct (_ && _ && _); [apply Hnext|].
  destruct (_ && _ && _); [apply Hnext|].
  destruct (Ascii.eqb a Yaml.chr_hash && _ && _) eqn:E; [|apply Hnext].
  right. apply andb_true_iff in E as [E _]. apply andb_true_iff in E as [E _].
  apply Ascii.eqb_eq in E. subst a. cbn [String.length].
  split; [lia|]. by rewrite Z.sub_diag.
Qed.

(** X20. [findCommentIndex] returns -1 or the index of a [#] of the line. On
    a line without [#] it returns -1. When the text before the first [#]
    holds no quote character, it returns the index of that [#], whatever
    precedes it: a [#] needs no space before it to start a comment, so the
    fragment of an unquoted URL is cut off. *)
Theorem comment_starts_at_first_unquoted_hash (line before after : string) :
  (Yaml.findCommentIndex line = -1
   \/ (0 <= Yaml.findCommentIndex line < Z.of_nat (String.length line)
       /\ String.get (Z.to_nat (Yaml.findCommentIndex line)) line = Some Yaml.chr_hash))
  /\ (free_of Yaml.chr_hash line -> Yaml.findCommentIndex line = -1)
  /\ (line = before +:+ String Yaml.chr_hash after ->
      free_of Yaml.chr_hash before -> free_of Yaml.chr_squote before ->
      free_of Yaml.chr_dquote before ->
      Yaml.findCommentIndex line = Z.of_nat (String.length before)).
Proof.
  unfold Yaml.findCommentIndex. split; [|split].
  - destruct (scan_comment_range line None false false 0) as [E|[Hr Hg]]; [by left|].
    right. rewrite Z.sub_0_r in Hg. split; [lia | done].
  - apply scan_comment_none.
  - intros -> Hh Hs Hd. by rewrite scan_comment_unquoted.
Qed.

Lemma comment_starts_at_first_unquoted_hash_witness :
  Yaml.findCommentIndex "    url: https://example.org/#/status" = 29.
Proof.
  rewrite (proj2 (proj2 (comment_starts_at_first_unquoted_hash
                           "    url: https://example.org/#/status"
                           "    url: https://example.org/" "/status")));
    [reflexivity | reflexivity | | |]; vm_compute; repeat split; discriminate.
Defined.

Example hash_in_quotes_is_kept :
  Yaml.findCommentIndex ("title: " +:+ JS.dquote +:+ "Status #1" +:+ JS.dquote +:+ " # page")
  = 19.
Proof. reflexivity. Qed.

Lemma substring_prefix (s t : string) : String.substring 0 (String.length s) (s +:+ t) = s.
Proof.
  induction s as [|a s IH]; [by destruct t|]. rewrite append_String. simpl. by rewrite IH.
Qed.

Lemma substring_all (t : string) : String.substring 0 (String.length t) t = t.
Proof. induction t as [|a t IH]; [done|]. simpl. by rewrite IH. Qed.

Lemma substring_suffix (s t : string) :
  String.substring (String.length s) (String.length t) (s +:+ t) = t.
Proof.
  induction s as [|a s IH]; [apply substring_all|]. rewrite append_String. by simpl.
Qed.

Lemma indexOf_first (c : Ascii.ascii) (before after : string) :
  free_of c before ->
  Yaml.indexOf c (before +:+ String c after) = Z.of_nat (String.length before).
Proof.
  induction before as [|a before IH]; intros Hfree.
  - simpl. by rewrite Ascii.eqb_refl.
  - destruct Hfree as [Hne Hfree]. rewrite append_String. cbn [Yaml.indexOf String.length].
    apply Ascii.eqb_neq in Hne. rewrite Hne, IH by done.
    destruct (_ <? 0) eqn:E; lia.
Qed.

Lemma indexOf_none (c : Ascii.ascii) (s : string) :
  free_of c s -> Yaml.indexOf c s = -1.
Proof.
  induction s as [|a s IH]; intros Hfree; [done|].
  destruct Hfree as [Hne Hfree]. cbn [Yaml.indexOf].
  apply Ascii.eqb_neq in Hne. by rewrite Hne, IH.
Qed.

(** X21. [splitKeyValue] cuts a string at its first colon and trims both
    parts: the key is the text before that colon, the value everything
    after it, further colons included, so a URL stays whole. On a string
    without a colon the value is the whole string, trimmed, and the key is
    the string without its last character, trimmed. *)
Theorem key_value_split_at_first_colon (str key value : string) :
  (str = key +:+ String Yaml.chr_colon value ->
   free_of Yaml.chr_colon key ->
   Yaml.splitKeyValue str = (Str.trim key, Str.trim value))
  /\ (free_of Yaml.chr_colon str ->
      Yaml.splitKeyValue str = (Str.trim (but_last str), Str.trim str)).
Proof.
  split.
  - intros -> Hfree. unfold Yaml.splitKeyValue, Yaml.slice.
    rewrite indexOf_first by done. rewrite length_append. cbn [String.length].
    set (k := String.length key). set (v := String.length value).
    assert (E1 : (Z.of_nat k <? 0) = false) by (apply Z.ltb_ge; lia).
    assert (E2 : (Z.of_nat k + 1 <? 0) = false) by (apply Z.ltb_ge; lia).
    rewrite E1, E2. change (0 <? 0) with false. cbv iota.
    rewrite (Z.min_l 0), (Z.min_l (Z.of_nat k)), (Z.min_l (Z.of_nat k + 1)) by lia.
    rewrite Z.sub_0_r, Nat2Z.id. change (Z.to_nat 0) with 0%nat.
    replace (Z.to_nat (Z.of_nat k + 1)) with (S k) by lia.
    replace (Z.to_nat (Z.of_nat (k + S v) - (Z.of_nat k + 1))) with v by lia.
    f_equal; f_equal.
    + apply substring_prefix.
    + pose proof (substring_suffix (key +:+ String Yaml.chr_colon EmptyString) value) as H.
      rewrite length_append in H. cbn [String.length] in H. fold k v in H.
      replace (k + 1)%nat with (S k) in H by lia.
      rewrite append_assoc in H. exact H.
  - intros Hfree. unfold Yaml.splitKeyValue, Yaml.slice, but_last.
    rewrite indexOf_none by done.
    set (n := String.length str).
    change (-1 + 1) with 0. change (0 <? 0) with false. change (-1 <? 0) with true.
    cbv iota. rewrite (Z.min_l 0) by lia. rewrite !Z.sub_0_r, Nat2Z.id.
    change (Z.to_nat 0) with 0%nat.
    replace (Z.to_nat (Z.max (Z.of_nat n + -1) 0)) with (n - 1)%nat by lia.
    subst n. by rewrite substring_all.
Qed.

Lemma key_value_split_at_first_colon_witness :
  Yaml.splitKeyValue "url:  https://example.org:8443/health "
  = ("url", "https://example.org:8443/health")
  /\ Yaml.splitKeyValue "flag" = ("fla", "flag").
Proof.
  split.
  - rewrite (proj1 (key_value_split_at_first_colon "url:  https://example.org:8443/health "
                      "url" "  https://example.org:8443/health "));
      [reflexivity | reflexivity |]. vm_compute. repeat split; discriminate.
  - rewrite (proj2 (key_value_split_at_first_colon "flag" EmptyString EmptyString));
      [reflexivity|]. vm_compute. repeat split; discriminate.
Defined.

(** ** The ledger's invariant *)

Lemma assign_first_Forall (P : Incident -> Prop) p f (incidents : list Incident) :
  (forall i, P i -> P (f i)) ->
  Forall P incidents -> Forall P (assign_first p f incidents).
Proof.
  intros Hf. induction 1 as [|i rest Hi Hrest IH]; simpl; [constructor|].
  destruct (p i); constructor; auto.
Qed.

Lemma filter_Forall {A} (P : A -> Prop) (p : A -> bool) (l : list A) :
  Forall P l -> Forall P (List.filter p l).
Proof.
  induction 1 as [|x l Hx Hl IH]; simpl; [constructor|].
  destruct (p x); [by constructor | done].
Qed.

Lemma resolved_at_recorded now i : resolution_recorded (resolved_at now i).
Proof. unfold resolution_recorded. simpl. split; done. Qed.

Lemma opened_recorded service error timestamp :
  resolution_recorded (mkIncident service error timestamp false None).
Proof. unfold resolution_recorded. simpl. split; done. Qed.

Lemma run_op_recorded clock (op : LedgerOp) (w : World) :
  Forall resolution_recorded (sd_incidents (w_status w)) ->
  Forall resolution_recorded (sd_incidents (w_status (world_of (run_op clock op w)))).
Proof.
  intros Hinv. destruct op as [service error timestamp | service]; cbn [run_op].
  - destruct (addIncident_ledger clock w service error timestamp)
      as (w' & -> & _ & _ & _ & _ & _ & Hinc). simpl. rewrite Hinc.
    apply filter_Forall. constructor; [apply opened_recorded | done].
  - destruct (resolveIncident_ledger clock w service)
      as (w' & -> & _ & _ & _ & _ & _ & _ & Hinc). simpl. rewrite Hinc.
    apply assign_first_Forall; [|done]. intros i _. apply resolved_at_recorded.
Qed.

Lemma runCheck_recorded clock net parseUrl resolveUrl getConfig urlConfig (w : World) :
  Forall resolution_recorded (sd_incidents (w_status w)) ->
  Forall resolution_recorded
    (sd_incidents (w_status (world_of
       (runCheck clock net parseUrl resolveUrl getConfig urlConfig w)))).
Proof.
  intros Hinv. destruct getConfig as [config|]; [|done].
  pose proof (runCheck_steps clock net parseUrl resolveUrl config urlConfig w) as Hsteps.
  pose proof (checkWithRetry_frame clock net parseUrl resolveUrl urlConfig config w) as Hf.
  destruct (checkWithRetry _ _ _ _ _ _ _) as [[result|] w1|msg w1] eqn:Hrun;
    simpl in Hf; destruct Hf as ((_ & _ & Hsp1) & _).
  - clear Hsteps.
    destruct (runCheck_post clock net parseUrl resolveUrl config urlConfig w result w1 Hrun)
      as (w2 & w3 & w4 & w5 & -> & _ & _ & _ & _ & Hstatus & _ & _
          & _ & _ & _ & _ & Hinc5 & _).
    simpl. rewrite Hinc5.
    destruct Hstatus as [(_ & _ & _ & _ & _ & ->)
                        |[(_ & _ & _ & _ & _ & ->)
                        |[(_ & _ & _ & _ & _ & ->)
                        |(_ & _ & -> & _)]]]; try done.
    + apply filter_Forall. constructor; [apply opened_recorded | done].
    + apply assign_first_Forall; [|done]. intros i _. apply resolved_at_recorded.
  - destruct Hsteps as (msg & w2 & -> & _ & Hsp2 & _). simpl. by rewrite Hsp2, Hsp1.
  - rewrite Hsteps. simpl. by rewrite Hsp1.
Qed.

(** X22. Every incident of the ledger is marked resolved exactly when it
    carries a resolution time. Whatever calls open or resolve incidents,
    and whatever check cycles run (completed or not), a ledger of which
    this holds is turned into one of which it holds; the empty ledger of a
    fresh process is such a ledger. The status page can therefore format
    the resolution time of every incident it shows as resolved. *)
Theorem resolved_incidents_carry_a_time clock net parseUrl resolveUrl
    (getConfig : option Config) (ops : list LedgerOp) (fires : list UrlConfig)
    (w : World) :
  Forall resolution_recorded (sd_incidents (w_status w)) ->
  Forall resolution_recorded
    (sd_incidents (w_status (world_of (run_ledger clock ops w))))
  /\ Forall resolution_recorded
       (sd_incidents (w_status (world_of
          (run_cycles clock net parseUrl resolveUrl getConfig fires w)))).
Proof.
  intros Hinv. split.
  - revert w Hinv. induction ops as [|op ops IH]; intros w Hinv; [done|].
    unfold run_ledger in *. rewrite for_each_cons.
    pose proof (run_op_recorded clock op w Hinv) as Hstep.
    destruct (run_op clock op w) as [[] w1|msg w1]; simpl in Hstep; [by apply IH | done].
  - revert w Hinv. induction fires as [|urlConfig fires IH]; intros w Hinv; [done|].
    unfold run_cycles in *. rewrite for_each_cons.
    pose proof (runCheck_recorded clock net parseUrl resolveUrl getConfig urlConfig w Hinv)
      as Hstep.
    destruct (runCheck _ _ _ _ _ _ _) as [[] w1|msg w1]; simpl in Hstep;
      [by apply IH | done].
Qed.

Lemma resolved_incidents_carry_a_time_witness :
  Forall resolution_recorded (sd_incidents (w_status fresh_world))
  /\ Forall resolution_recorded
       (sd_incidents (w_status (world_of
          (run_cycles Sample.clock Sample.net_fail_twice Sample.parseUrl
             Sample.resolveUrl_any (Some Sample.config_single)
             [Sample.target "A"; Sample.target "A"; Sample.target "A"] fresh_world)))).
Proof.
  split; [constructor|].
  apply (resolved_incidents_carry_a_time Sample.clock Sample.net_fail_twice
           Sample.parseUrl Sample.resolveUrl_any (Some Sample.config_single) []
           [Sample.target "A"; Sample.target "A"; Sample.target "A"] fresh_world).
  constructor.
Defined.

(** ** The page after scheduling *)






